(* ===== verification/_CoqProject ===== *)
-Q . S2P
Prelude.v
Frame.v
Reader.v
Sink.v
Runtime.v
EngineUrl.v
ArgParse.v
Ingest.v
IngestOld.v
Dag.v
Phases.v
Entry.v
