(* ===== verification/Prelude.v ===== *)
(** * A verification development of the DataEngineeringZoomcamp loaders

    The repository holds two command-line loaders that copy a CSV file,
    chunk by chunk, into a PostgreSQL table, and an Airflow DAG that
    stages six monthly Parquet files to Google Cloud Storage.

    - [src/M01_Homework/ingest_data.py] (the current loader): [main]
      parses the command line, builds the URL ([make_engine]), opens one
      transaction with [engine.begin()] and runs [ingest] in it; [ingest]
      opens the file with [pd.read_csv(..., chunksize=n, iterator=True)],
      normalises the first chunk with [to_datetime], re-creates the table
      from it ([head(0).to_sql(if_exists="replace")]), appends it, then
      appends every later chunk, printing progress and a summary.
    - [src/M01_Homework/ingest_data_old.py] (the first loader): downloads
      the URL with [curl] unless a local copy exists, connects through an
      autocommit engine, and runs the same chunk loop with the default
      [index=True] and a fixed chunk size of 100000.
    - [src/M03_Homework/airflow_project/dags/gcs_ingest_taxi.py]: the
      DAG; for each month of January-June 2024 a task group
      [download_file] >> [upload_to_gcs] >> [verify_gcs], run by Airflow.

    The loaders interact with the database through the URL
    [make_engine] formats and through [DataFrame.to_sql]; the DAG shares
    nothing with them but the Python helpers modelled in [EngineUrl].

    ** Files, in dependency order

    - [Prelude]: Python exceptions [Exc]; the result type [res] (a call
      that returns or raises) with its monad instances, the equivalence
      [≡] on results ("same value on success") and its [Proper]
      instances; generic lemmas on lists, options and [mapM]; the hint
      databases [pyres], [pyres_rw]; the tactics [res_inv], [py_simpl].
    - [Frame]: pandas frames as the loaders use them ([Cell], [Column],
      [DataFrame], [len], [head0], [df[c]] as [lookup_col]/[set_column]);
      [pd.to_datetime] behind the interface [DatetimeParser] (a class,
      so every theorem holds for any parser; [IsoParser] is one instance
      used by the witnesses); [DATETIME_COLS] and [to_datetime]
      (ingest_data.py lines 14-27) with the lemma that it commutes with
      concatenating and re-indexing frames.
    - [Reader]: the chunked reader [read_csv]/[next_chunk] (a library,
      modelled from the behaviour the loaders rely on), [drain] (the
      iteration of a [for] loop over it), the invariant [reader_at] tying
      a reader to its file.
    - [Sink]: tables and databases (a stdpp [gmap] from table name to
      [Table]) and [DataFrame.to_sql] with replace/append/fail and index.
    - [Runtime]: the world a script sees ([World]: files, web, committed
      databases by URL, open transactions, printed lines), the state
      monad [Proc] over it, and the effects: [print], [open_csv],
      statements on an [Engine] (a transaction each) or on a
      [Connection] of [engine.begin()] ([begin], [commit], [rollback],
      [with_begin]); [keeps_servers] and its hint database [keeps].
    - [EngineUrl]: the connection URLs of both loaders, and
      [parse_url], SQLAlchemy's URL pattern reading a URL back (a
      library, modelled from its documented pattern).
    - [Ingest]: the current loader ([ingest_loop], [ingest], [main]),
      its abstract specification [load_all] (read the whole file, normalise
      it, write it in one statement), the loop invariant [table_inv]
      shared with the old loader, and the theorems.
    - [IngestOld]: the old loader ([download], [curl], [old_loop],
      [old_ingest], [old_main]) and its theorems.
    - [Dag]: the DAG's constants, the task list its [for] loop builds
      ([dag_tasks], ids prefixed by their [TaskGroup]), the three tasks as
      state-passing functions [DProc] over a [DagWorld] (local disk,
      successive web answers, GCS objects), and Airflow's executor
      ([run_task], [dag_run], [with_retries]; modelled from Airflow's
      documented behaviour: trigger rule all_success, retries).
    - [ArgParse]: the Python library code both command lines go through,
      modelled from CPython 3.11: [int()] ([py_int], with its 4300-digit
      limit), [repr] of a [str] and of a [Namespace] ([ns_repr]), and
      [argparse]'s [parse_args] for parsers of options only
      ([parse_optional] and [classify]: [--flag=value], abbreviations,
      ambiguity, negative numbers, [--]; [consume]: each option and its
      value, [-h]; [finish_args]: required options and [str] defaults),
      its errors as [SystemExit 2 msg]; the invariant [st_inv] that every
      destination holds a value of its [type].
    - [Entry]: the two parsers ([parser], ingest_data.py lines 67-77;
      [old_parser], ingest_data_old.py lines 96-111), the attributes
      [main] reads ([cli_args_of]), and the entry points as [Proc]s of
      the argument vector: [main_argv] (lines 80-90) and [old_script]
      (the old [__main__] block, lines 95-117, with [old_main_ns]
      reading the namespace as the old [main] does).
    - [Phases]: a run of [ingest] as the specification's state machine:
      the Inductive step relation [istep] between the phases
      [Uninitialized], [Opened], [Appending i], [Complete] and [Failed],
      each rule running the source lines between two phases
      ([open_step], [first_chunk_step], [chunk_step]).

    ** What is proved

    - Refinement (C1, C3): the chunked loop of [ingest] computes exactly
      the one-shot table [load_all] of the file and fails exactly when
      the one-shot load fails; [main] commits it.  The shape of that
      table (C4), its exact success condition (C12), and the header-only
      file (C5).
    - Atomicity (C2): [main] changes no committed database when it
      raises.  The old loader instead leaves the chunks written before a
      failure (C9), which is what the specification describes.
    - The normaliser [to_datetime] (C6, C7) and the chunks it leaves
      well formed (C8).
    - The old loader's defects (C10, C11, C22): a stale local copy is
      loaded whatever the URL serves, a local path raises
      [UnboundLocalError], and an HTTP error page saved as [data.csv] is
      loaded as data.
    - The DAG (C13-C16): the declaration order is topological, a run
      with the files already local uploads them as they are, a broken
      download leaves a partial file that the retry then returns, and
      with the retries [default_args] never delivers, one unanswered
      request fails the run.
    - The URL (C17, C18): it reads back as its parts when these hold no
      separator, and a password with an ['@'] moves the rest of it into
      the host (the credentials are not escaped).
    - The phases (C19-C21): the machine reaches [Appending] only once the
      table was re-created from the first chunk, a failure before that
      leaves the world untouched, and every chunk [next] returns during a
      run has at most [chunksize] rows (an invariant of every reachable
      phase, by induction on the run).
    - The command lines (C23-C26): a command line of [--flag=value]
      arguments runs [main] on exactly those values, whatever the strings
      hold but the value ['--'], which CPython 3.11 turns into [[]] (C23,
      and C26 for the old script); [main] gets every attribute it reads
      with its type unless some option was given ['--'] (C24, from the
      argparse invariant [parse_args_typed_ns]); the old script run
      without [--csv_url] parses and then raises [AttributeError] after
      its banner (C25).

    The files also prove, as lemmas the claims build on, the reader's
    bound and termination ([next_chunk_bounded], [drain_terminates]),
    the sink's behaviour ([to_sql_replace_table], [to_sql_append_table],
    [to_sql_well_typed]), the liveness of the phase machine
    ([ingest_phases_live]) and that [ingest] computes its end phase
    ([ingest_phases]).

    ** Not modelled

    Column dtypes: every field that is not one of pandas' NA strings is
    a string until [to_datetime] converts it.  read_csv infers a dtype
    per chunk (int64, float64 when a value is missing, bool, object),
    [head(0).to_sql] fixes the SQL column types from the first chunk,
    and PostgreSQL then casts or rejects the values of later chunks;
    this chain lives in pandas' C parser, SQLAlchemy's type map and the
    server's assignment casts, none of which the repository's code
    touches, so it is left out rather than guessed.  The refinement
    theorems (C1, C5) are therefore statements about the rows and their
    text, not about the column types: a chunk whose inferred types differ
    from the first chunk's is the specification's SchemaMismatch, which
    the finding on [Reader.next_chunk_normalised] records.  Also left
    out: CSV tokenising; compression, since a file is modelled by its
    decompressed content (faithful for plain and valid gzip files; a
    [.gz] name holding other bytes raises [BadGzipFile] in pandas, which
    is why the old loader's error-page theorem C22 is stated for
    [data.csv]); [str()]'s 4300-digit limit on output (the loaders only
    format ports [int()] produced, which have at most 4300 digits); what
    [main] does with the [[]] argparse stores for a ['--'] value (the
    model stops with an error there); the elapsed times printed, and the
    module imports.  Of argparse: the help and usage texts ([--help] is its exit
    0), [sys.argv[0]], positional arguments and [nargs] other than a
    single value (the loaders declare neither), characters above
    code point 255, and what pandas does with [to_sql(name=None)] when
    the old script runs without [--table_name] (a parameter
    [unnamed_table] of [old_script]).  Of the DAG: the scheduling fields
    ([start_date], [max_active_runs] and Airflow's default schedule),
    [retry_delay], parallel execution of independent tasks (the tasks
    of different months touch different files, so an interleaving
    changes nothing the theorems state), and the GCS and HTTP clients
    beyond the calls the tasks make. *)

From Stdlib Require Export String Ascii ZArith Lia.
From stdpp Require Export base gmap strings list.

Open Scope string_scope.
Open Scope list_scope.
Open Scope nat_scope.

(** ** Python exceptions

    The exceptions the modelled code raises or lets propagate, with the
    library that raises them.  A value [Err e] of [res A] is a Python call
    that raised [e]. *)
Inductive Exc : Type :=
| ValueError (msg : string)          (** [pd.to_datetime] on an unparseable
                                         value; [read_csv] with [chunksize < 1] *)
| ParserError (msg : string)         (** [read_csv]: a record with more fields
                                         than the header *)
| EmptyDataError                     (** [read_csv] on a file with no header *)
| FileNotFoundError (path : string)  (** opening a missing local file *)
| StopIteration                      (** [next] on an exhausted reader *)
| UnboundLocalError (name : string)  (** reading a local never assigned *)
| OperationalError (url : string)    (** SQLAlchemy: the server at [url]
                                         refuses the connection *)
| ProgrammingError (msg : string)    (** SQL: insert into a column the
                                         destination table does not have *)
| CalledProcessError (cmd : string)  (** [subprocess.run(..., check=True)]
                                         on a non-zero exit status *)
| HTTPError (url : string)           (** [requests]: [raise_for_status] *)
| ConnectionError (url : string)    (** [requests]: the stream broke *)
| SystemExit (code : nat) (msg : string)
                                     (** [sys.exit]: argparse's [error] (code 2,
                                         the message it prints) and [--help]
                                         (code 0) *)
| AttributeError (msg : string).     (** an attribute of [None] *)

#[export] Instance Exc_eq_dec : EqDecision Exc.
Proof. solve_decision. Defined.

(** ** The result of a call that may raise *)
Inductive res (A : Type) : Type :=
| Ok (a : A)
| Err (e : Exc).
Arguments Ok {A} a.
Arguments Err {A} e.

#[export] Instance res_ret : MRet res := @Ok.
#[export] Instance res_bind : MBind res := λ A B f m,
  match m with Ok a => f a | Err e => Err e end.
#[export] Instance res_fmap : FMap res := λ A B f m,
  match m with Ok a => Ok (f a) | Err e => Err e end.

Declare Scope py_scope.
Delimit Scope py_scope with py.
Open Scope py_scope.

(** [raise e] is Python's [raise]; [ok? r] tests for a normal return. *)
Notation "'raise' e" := (Err e) (at level 10, e at level 9) : py_scope.

Definition is_ok {A} (r : res A) : bool :=
  match r with Ok _ => true | Err _ => false end.

(** Convert an [option] into a call that raises [e] on [None]. *)
Definition of_option {A} (e : Exc) (o : option A) : res A :=
  match o with Some a => Ok a | None => Err e end.

(** ** Shared lemmas on results *)

Create HintDb pyres discriminated.
Create Rewrite HintDb pyres_rw.

Lemma bind_Ok {A B} (a : A) (k : A → res B) : (Ok a ≫= k) = k a.
Proof. reflexivity. Qed.

Lemma bind_Err {A B} (e : Exc) (k : A → res B) : (Err e ≫= k) = Err e.
Proof. reflexivity. Qed.

Lemma fmap_Ok {A B} (f : A → B) (a : A) : f <$> Ok a = Ok (f a).
Proof. reflexivity. Qed.

#[export] Hint Rewrite @bind_Ok @bind_Err @fmap_Ok : pyres_rw.

Lemma bind_Ok_inv {A B} (m : res A) (k : A → res B) (b : B) :
  (m ≫= k) = Ok b → ∃ a, m = Ok a ∧ k a = Ok b.
Proof. destruct m; simpl; [eauto | discriminate]. Qed.

Lemma bind_Err_inv {A B} (m : res A) (k : A → res B) (e : Exc) :
  (m ≫= k) = Err e → m = Err e ∨ ∃ a, m = Ok a ∧ k a = Err e.
Proof. destruct m; simpl; [right; eauto | left; congruence]. Qed.

Lemma of_option_Ok {A} e (o : option A) a : of_option e o = Ok a ↔ o = Some a.
Proof. destruct o; simpl; split; congruence. Qed.

(** [mapM] over [res]: a map that raises the first error of the list. *)
Lemma mapM_res_Ok {A B} (f : A → res B) (l : list A) (k : list B) :
  mapM f l = Ok k ↔ Forall2 (λ x y, f x = Ok y) l k.
Proof.
  revert k. induction l as [|x l IH]; intros k; simpl.
  - split; [intros [= <-]; constructor | intros H; inversion H; reflexivity].
  - split.
    + destruct (f x) as [y|e] eqn:Hf; simpl; [|discriminate].
      destruct (mapM f l) as [ys|e] eqn:Hl; simpl; [|discriminate].
      intros [= <-]. constructor; [done | by apply IH].
    + intros H; inversion H as [|? y ? ys Hf Hl]; subst.
      apply IH in Hl. by rewrite Hf, Hl.
Qed.

Lemma length_mapM_res {A B} (f : A → res B) (l : list A) (k : list B) :
  mapM f l = Ok k → length k = length l.
Proof. intros H%mapM_res_Ok. symmetry. by eapply Forall2_length. Qed.

Lemma forallb_false_ex {A} (f : A → bool) (l : list A) :
  forallb f l = false → ∃ x, x ∈ l ∧ f x = false.
Proof.
  induction l as [|x l IH]; simpl; [done|].
  destruct (f x) eqn:Hx; simpl; intros H.
  - destruct (IH H) as (y & ? & ?). exists y. split; [by right | done].
  - exists x. split; [left | done].
Qed.

Lemma mapM_res_app {A B} (f : A → res B) (l1 l2 : list A) :
  mapM f (l1 ++ l2) = (k1 ← mapM f l1; k2 ← mapM f l2; Ok (k1 ++ k2)).
Proof.
  induction l1 as [|x l1 IH]; simpl.
  - by destruct (mapM f l2).
  - destruct (f x); simpl; [|done]. rewrite IH.
    destruct (mapM f l1), (mapM f l2); done.
Qed.

(** ** Results equal up to the exception raised

    Two calls are equivalent when they return the same values; when both
    raise, which exception they raise is not compared.  The chunked and the
    one-shot loaders are equivalent in this sense: they fail on the same
    inputs, possibly on different bad values first. *)
#[export] Instance res_equiv {A} : Equiv (res A) := λ r1 r2, ∀ a, r1 = Ok a ↔ r2 = Ok a.

#[export] Instance res_equiv_equivalence {A} : Equivalence (≡@{res A}).
Proof.
  split.
  - intros r a. done.
  - intros r1 r2 H a. by rewrite (H a).
  - intros r1 r2 r3 H1 H2 a. by rewrite (H1 a), (H2 a).
Qed.

#[export] Instance res_bind_proper {A B} :
  Proper (pointwise_relation A (≡) ==> (≡) ==> (≡@{res B})) mbind.
Proof.
  intros f g Hfg r1 r2 Hr b. destruct r1 as [a1|e1], r2 as [a2|e2]; simpl.
  - assert (Ok a2 = Ok a1) as [= ->] by (symmetry; by apply Hr). apply Hfg.
  - by pose proof (proj1 (Hr a1) eq_refl).
  - by pose proof (proj2 (Hr a2) eq_refl).
  - done.
Qed.

Lemma Err_equiv {A} e1 e2 : Err e1 ≡@{res A} Err e2.
Proof. done. Qed.

Lemma res_equiv_Ok {A} (r1 r2 : res A) a : r1 ≡ r2 → r1 = Ok a → r2 = Ok a.
Proof. intros H. apply H. Qed.

Lemma res_equiv_is_ok {A} (r1 r2 : res A) : r1 ≡ r2 → is_ok r1 = is_ok r2.
Proof.
  intros H. destruct r1 as [a|e1]; [by rewrite (proj1 (H a) eq_refl)|].
  destruct r2 as [a|e2]; [|done]. by pose proof (proj2 (H a) eq_refl).
Qed.

#[export] Instance is_ok_proper {A} : Proper ((≡) ==> (=)) (@is_ok A).
Proof. intros r1 r2 H. by apply res_equiv_is_ok. Qed.

(** ** Shared lemmas on lists *)

Lemma take_length_take {A} (n : nat) (l : list A) : take (length (take n l)) l = take n l.
Proof.
  rewrite length_take. destruct (Nat.le_ge_cases n (length l)).
  - by rewrite Nat.min_l.
  - rewrite Nat.min_r by done. rewrite !take_ge; [done | lia | done].
Qed.

(** Reading [c] records and then the next [n] is reading [c + (the number
    actually read)]. *)
Lemma take_advance {A} (c n : nat) (l : list A) :
  take (c + length (take n (drop c l))) l = take c l ++ take n (drop c l).
Proof. by rewrite <- take_take_drop, take_length_take. Qed.

Lemma drop_length_take {A} (n : nat) (l : list A) : drop (length (take n l)) l = drop n l.
Proof.
  rewrite length_take. destruct (Nat.le_ge_cases n (length l)).
  - by rewrite Nat.min_l.
  - rewrite Nat.min_r by done. rewrite !drop_ge; [done | lia | done].
Qed.

Lemma drop_advance {A} (c n : nat) (l : list A) :
  drop (c + length (take n (drop c l))) l = drop n (drop c l).
Proof. by rewrite <- drop_drop, drop_length_take. Qed.

Lemma map_seq_shift {A} (f : nat → A) (n m k : nat) :
  map f (seq (n + m) k) = map (λ i, f (n + i)) (seq m k).
Proof.
  revert m. induction k as [|k IH]; intros m; simpl; [done|].
  f_equal. rewrite <- IH. by rewrite Nat.add_succ_r.
Qed.

Lemma map_seq_shift0 {A} (f : nat → A) (n k : nat) :
  map f (seq n k) = map (λ i, f (n + i)) (seq 0 k).
Proof. rewrite <- map_seq_shift. by rewrite Nat.add_0_r. Qed.

Lemma imap_zip {A B C D} (f : nat → A → B) (g : nat → A → C) (h : B → C → D) (l : list A) :
  zip_with h (imap f l) (imap g l) = imap (λ j x, h (f j x) (g j x)) l.
Proof. revert f g. induction l as [|x l IH]; intros f g; simpl; [done|]. f_equal. apply IH. Qed.

(** ** Tactics *)

(** [res_inv] splits every hypothesis [m ≫= k = Ok b] into the value of
    [m] and the continuation, and removes the hypotheses [Err _ = Ok _]. *)
Ltac res_inv :=
  repeat match goal with
  | H : (?m ≫= _) = Ok _ |- _ =>
      let a := fresh "a" in let Hm := fresh "Hm" in
      apply bind_Ok_inv in H as (a & Hm & H)
  | H : Ok _ = Ok _ |- _ => injection H as H
  | H : Err _ = Ok _ |- _ => discriminate H
  | H : Ok _ = Err _ |- _ => discriminate H
  end.

(** [py_simpl] computes the result monad and the decidable tests. *)
Ltac py_simpl :=
  repeat (progress (autorewrite with pyres_rw in *; simpl in *)).
