(* ===== verification/Frame.v ===== *)
(** * Frame: the DataFrame chunks and their timestamp normalisation

    A chunk of [pd.read_csv] is a column-major table: an integer index and
    a list of named columns of equal length ([DataFrame]).  This file holds
    that data model, the operations the loaders apply to it ([len],
    [df.head(0)], [df[c]], [df[c] = ...]) and the normaliser
    [to_datetime] of src/M01_Homework/ingest_data.py (lines 14-27), with
    its invariant (shape preserved), its effect (exactly the present
    timestamp columns are converted) and its error behaviour.
    [pd.to_datetime] itself is a library call: it is the interface
    [DatetimeParser], a parser of one textual value. *)

From S2P Require Import Prelude.

(** ** Cells and frames *)

(** A cell as [read_csv] leaves it: missing ([NaN]), an integer, a string
    ([object] dtype), or a [datetime64[ns]] value (nanoseconds since the
    epoch). *)
Inductive Cell : Type :=
| CNull
| CInt (n : Z)
| CStr (s : string)
| CTime (t : Z).

#[export] Instance Cell_eq_dec : EqDecision Cell.
Proof. solve_decision. Defined.

Definition Column : Type := (string * list Cell)%type.

Record DataFrame : Type := mkFrame {
  index : list Z;              (** the row labels, a [RangeIndex] *)
  data : list Column           (** the columns, in order *)
}.

(** [df.columns] *)
Definition columns (df : DataFrame) : list string := map fst (data df).

(** [len(df)] *)
Definition len (df : DataFrame) : nat := length (index df).

(** Well-formed frame: column names are unique (read_csv de-duplicates
    them) and every column has one cell per row. *)
Definition frame_wf (df : DataFrame) : Prop :=
  NoDup (columns df) ∧ Forall (λ col, length col.2 = len df) (data df).

#[export] Instance frame_wf_dec df : Decision (frame_wf df).
Proof. unfold frame_wf. apply _. Defined.

(** [df.head(0)]: the same columns, no rows. *)
Definition head0 (df : DataFrame) : DataFrame :=
  {| index := []; data := map (λ col, (col.1, [])) (data df) |}.

(** [df[c]]: the column named [c]. *)
Fixpoint lookup_col (c : string) (d : list Column) : option (list Cell) :=
  match d with
  | [] => None
  | (c', v) :: d' => if decide (c = c') then Some v else lookup_col c d'
  end.

(** [df[c] = v]: replace column [c] in place, or append it when absent. *)
Fixpoint set_col (c : string) (v : list Cell) (d : list Column) : list Column :=
  match d with
  | [] => [(c, v)]
  | (c', v') :: d' => if decide (c = c') then (c, v) :: d' else (c', v') :: set_col c v d'
  end.

Definition set_column (df : DataFrame) (c : string) (v : list Cell) : DataFrame :=
  {| index := index df; data := set_col c v (data df) |}.

(** ** [pd.to_datetime]

    The library's parser of one textual value: [Some t] is the instant [t]
    (nanoseconds since the epoch), [None] a string it cannot parse. *)
Class DatetimeParser := parse_datetime : string → option Z.

Section ToDatetime.
Context `{DatetimeParser}.

(** [pd.to_datetime] on one cell: [NaN] becomes [NaT] (kept missing),
    an integer is read as nanoseconds since the epoch, a datetime is
    left as it is, and an unparseable string raises [ValueError]. *)
Definition to_datetime_cell (v : Cell) : res Cell :=
  match v with
  | CNull => Ok CNull
  | CInt n => Ok (CTime n)
  | CStr s => of_option (ValueError ("Unknown datetime string format: " +:+ s))
                        (CTime <$> parse_datetime s)
  | CTime t => Ok (CTime t)
  end.

(** [pd.to_datetime(df[c])]: element-wise, the first failure raises. *)
Definition pd_to_datetime (col : list Cell) : res (list Cell) :=
  mapM to_datetime_cell col.

(** One iteration of the loop of [to_datetime]:
    [if c in df.columns: df[c] = pd.to_datetime(df[c])]. *)
Definition convert_column (df : DataFrame) (c : string) : res DataFrame :=
  if bool_decide (c ∈ columns df) then
    col ← of_option (ValueError c) (lookup_col c (data df));
    col' ← pd_to_datetime col;
    Ok (set_column df c col')
  else Ok df.

(** [to_datetime(df, cols)] (ingest_data.py, lines 22-27): convert every
    column of [cols] that the frame has, in the order of [cols]. *)
Fixpoint to_datetime (df : DataFrame) (cols : list string) : res DataFrame :=
  match cols with
  | [] => Ok df
  | c :: cs => df' ← convert_column df c; to_datetime df' cs
  end.
End ToDatetime.

(** [DATETIME_COLS] (ingest_data.py, lines 14-19). *)
Definition DATETIME_COLS : list string :=
  ["tpep_pickup_datetime"; "tpep_dropoff_datetime";
   "lpep_pickup_datetime"; "lpep_dropoff_datetime"].

(** ** Column access lemmas *)

Create HintDb frame discriminated.

Lemma lookup_col_elem c d v : lookup_col c d = Some v → c ∈ map fst d.
Proof.
  induction d as [|[c' v'] d IH]; simpl; [discriminate|].
  case_decide; subst; [left | intros ?; right; auto].
Qed.

Lemma lookup_col_is_Some c d : c ∈ map fst d → is_Some (lookup_col c d).
Proof.
  induction d as [|[c' v'] d IH]; simpl; [set_solver|].
  rewrite elem_of_cons. case_decide; [eauto|]. intros [->|?]; [done | auto].
Qed.

Lemma lookup_col_In c d v : lookup_col c d = Some v → (c, v) ∈ d.
Proof.
  induction d as [|[c' v'] d IH]; simpl; [discriminate|].
  case_decide; [intros [= ->]; subst; left | intros ?; right; auto].
Qed.

(** With unique names, [lookup_col] finds every column of the frame. *)
Lemma lookup_col_NoDup c d v : NoDup (map fst d) → (c, v) ∈ d → lookup_col c d = Some v.
Proof.
  induction d as [|[c' v'] d IH]; simpl; [set_solver|]. intros Hnd Hin.
  apply NoDup_cons in Hnd as [Hc' Hnd]. apply elem_of_cons in Hin as [[= -> ->]|Hin].
  - by rewrite decide_True.
  - rewrite decide_False; [by apply IH|]. intros ->. apply Hc'.
    apply list_elem_of_In, in_map_iff. exists (c', v). split; [done|]. by apply list_elem_of_In.
Qed.

Lemma set_col_fst c v d : c ∈ map fst d → map fst (set_col c v d) = map fst d.
Proof.
  induction d as [|[c' v'] d IH]; simpl; [set_solver|].
  rewrite elem_of_cons. case_decide; subst; [done|].
  intros [->|?]; [done|]. simpl. f_equal. auto.
Qed.

Lemma lookup_set_col_eq c v d : lookup_col c (set_col c v d) = Some v.
Proof.
  induction d as [|[c' v'] d IH]; simpl; [by rewrite decide_True|].
  case_decide; simpl; [by rewrite decide_True | by rewrite decide_False].
Qed.

Lemma lookup_set_col_ne c c' v d :
  c ≠ c' → lookup_col c' (set_col c v d) = lookup_col c' d.
Proof.
  intros Hne. induction d as [|[c'' v'] d IH]; simpl;
    repeat (case_decide; simpl); subst; congruence.
Qed.

Lemma set_col_lengths c v d n :
  length v = n → Forall (λ col, length col.2 = n) d →
  Forall (λ col, length col.2 = n) (set_col c v d).
Proof.
  intros Hv. induction d as [|[c' v'] d IH]; simpl; intros Hd.
  - by constructor.
  - inversion Hd; subst. case_decide; constructor; auto.
Qed.

Lemma lookup_col_length df c v :
  frame_wf df → lookup_col c (data df) = Some v → length v = len df.
Proof.
  intros [_ Hl] Hc%lookup_col_In. rewrite Forall_forall in Hl.
  by apply (Hl (c, v)).
Qed.

#[export] Hint Resolve lookup_col_elem lookup_set_col_eq set_col_lengths : frame.

(** ** The normaliser keeps the shape of the frame *)

(** A cell that [pd.to_datetime] accepts. *)
Definition cell_parses `{DatetimeParser} (v : Cell) : bool := is_ok (to_datetime_cell v).

(** A cell in its normalised form: a datetime or missing. *)
Definition is_datetime (v : Cell) : bool :=
  match v with CTime _ | CNull => true | _ => false end.

Section ToDatetimeLemmas.
Context `{DatetimeParser}.

Lemma to_datetime_cell_datetime v v' : to_datetime_cell v = Ok v' → is_datetime v' = true.
Proof.
  destruct v; simpl; intros Hv; res_inv; subst; try done.
  destruct (parse_datetime s); simpl in Hv; by inversion Hv.
Qed.

Lemma to_datetime_cell_fix v : is_datetime v = true → to_datetime_cell v = Ok v.
Proof. by destruct v. Qed.

Lemma pd_to_datetime_length col col' :
  pd_to_datetime col = Ok col' → length col' = length col.
Proof. apply length_mapM_res. Qed.

Lemma pd_to_datetime_datetime col col' :
  pd_to_datetime col = Ok col' → Forall (λ v, is_datetime v = true) col'.
Proof.
  unfold pd_to_datetime. intros Hc%mapM_res_Ok. induction Hc; constructor; eauto using to_datetime_cell_datetime.
Qed.

Lemma pd_to_datetime_ok col :
  is_ok (pd_to_datetime col) = true ↔ Forall (λ v, cell_parses v = true) col.
Proof.
  unfold pd_to_datetime, cell_parses. induction col as [|v col IH]; simpl.
  - split; constructor.
  - rewrite Forall_cons, <- IH.
    destruct (to_datetime_cell v), (mapM _ col); simpl; intuition congruence.
Qed.

Lemma pd_to_datetime_fix col :
  Forall (λ v, is_datetime v = true) col → pd_to_datetime col = Ok col.
Proof.
  intros Hc. unfold pd_to_datetime. apply mapM_res_Ok. induction Hc; constructor; auto using to_datetime_cell_fix.
Qed.

Lemma convert_column_cols df c df' :
  convert_column df c = Ok df' → index df' = index df ∧ columns df' = columns df.
Proof.
  unfold convert_column. case_bool_decide as Hin; intros Hc; res_inv; subst; [|done].
  split; [done|]. by apply set_col_fst.
Qed.

Lemma convert_column_shape df c df' :
  frame_wf df → convert_column df c = Ok df' →
  frame_wf df' ∧ index df' = index df ∧ columns df' = columns df.
Proof.
  intros Hwf Hc. pose proof (convert_column_cols _ _ _ Hc) as [Hi Hcols].
  split_and!; [split | done | done]; [rewrite Hcols; apply Hwf|].
  unfold convert_column in Hc. case_bool_decide; res_inv; subst; [|apply Hwf].
  apply of_option_Ok in Hm.
  apply set_col_lengths; [|apply Hwf].
  rewrite (pd_to_datetime_length _ _ Hm0). exact (lookup_col_length df c _ Hwf Hm).
Qed.

Lemma convert_column_other df c c' df' :
  c ≠ c' → convert_column df c' = Ok df' → lookup_col c (data df') = lookup_col c (data df).
Proof.
  unfold convert_column. case_bool_decide; intros Hne Hc; res_inv; subst; [|done].
  by apply lookup_set_col_ne.
Qed.

Lemma convert_column_self df c df' v :
  convert_column df c = Ok df' → lookup_col c (data df) = Some v →
  ∃ v', pd_to_datetime v = Ok v' ∧ lookup_col c (data df') = Some v'.
Proof.
  unfold convert_column. case_bool_decide as Hin; intros Hc Hv.
  - res_inv. subst. apply of_option_Ok in Hm. rewrite Hv in Hm. simplify_eq.
    eexists; split; [done | apply lookup_set_col_eq].
  - by apply lookup_col_elem in Hv.
Qed.

Lemma set_col_lookup_id c v d : lookup_col c d = Some v → set_col c v d = d.
Proof.
  induction d as [|[c' v'] d IH]; simpl; [discriminate|].
  case_decide; [intros [= ->]; by subst | intros ?; f_equal; auto].
Qed.

(** A column already in normal form is left as it is. *)
Lemma convert_column_id df c :
  (∀ v, lookup_col c (data df) = Some v → Forall (λ x, is_datetime x = true) v) →
  convert_column df c = Ok df.
Proof.
  unfold convert_column. intros Hdt. case_bool_decide as Hin; [|done].
  destruct (lookup_col_is_Some c (data df) Hin) as [v Hv]. rewrite Hv. simpl.
  rewrite pd_to_datetime_fix by auto. simpl. unfold set_column.
  rewrite set_col_lookup_id by done. by destruct df.
Qed.

Lemma convert_column_ok df c :
  (∀ v, lookup_col c (data df) = Some v → Forall (λ x, cell_parses x = true) v) →
  is_ok (convert_column df c) = true.
Proof.
  unfold convert_column. intros Hp. case_bool_decide as Hin; [|done].
  destruct (lookup_col_is_Some c (data df) Hin) as [v Hv]. rewrite Hv. simpl.
  specialize (Hp v Hv). apply pd_to_datetime_ok in Hp.
  by destruct (pd_to_datetime v).
Qed.

Lemma convert_column_fails df c v :
  lookup_col c (data df) = Some v → is_ok (pd_to_datetime v) = false →
  is_ok (convert_column df c) = false.
Proof.
  unfold convert_column. intros Hv Hf.
  rewrite bool_decide_true by (by eapply lookup_col_elem). rewrite Hv. simpl.
  by destruct (pd_to_datetime v).
Qed.

Lemma is_datetime_parses x : is_datetime x = true → cell_parses x = true.
Proof. by destruct x. Qed.
End ToDatetimeLemmas.

Section ToDatetimeTheorems.
Context `{DatetimeParser}.

Lemma to_datetime_cols df cols df' :
  to_datetime df cols = Ok df' → index df' = index df ∧ columns df' = columns df.
Proof.
  revert df. induction cols as [|c cs IH]; simpl; intros df Hr; res_inv; [by subst|].
  destruct (convert_column_cols _ _ _ Hm) as [<- <-]. by apply IH.
Qed.

(** [to_datetime] keeps the frame well formed, its index (so its
    length) and its column names and their order. *)
Lemma to_datetime_shape df cols df' :
  frame_wf df → to_datetime df cols = Ok df' →
  frame_wf df' ∧ index df' = index df ∧ columns df' = columns df.
Proof.
  revert df. induction cols as [|c cs IH]; simpl; intros df Hwf Hr; res_inv; [by subst|].
  destruct (convert_column_shape _ _ _ Hwf Hm) as (Hwf' & <- & <-). by apply IH.
Qed.

(** On success, a column named in [cols] holds [pd.to_datetime] of its
    original values and every other column is unmodified. *)
Lemma to_datetime_columns df cols df' c v :
  to_datetime df cols = Ok df' → lookup_col c (data df) = Some v →
  ∃ v', lookup_col c (data df') = Some v' ∧
        (c ∈ cols → pd_to_datetime v = Ok v') ∧ (c ∉ cols → v' = v).
Proof.
  revert df v. induction cols as [|c0 cs IH]; simpl; intros df v Hr Hv; res_inv.
  - subst. exists v. split_and!; [done | set_solver | done].
  - destruct (decide (c = c0)) as [->|Hne].
    + destruct (convert_column_self _ _ _ _ Hm Hv) as (v1 & Hpd & Hv1).
      destruct (IH _ _ Hr Hv1) as (v' & Hv' & Hin & Hout).
      assert (v' = v1) as ->.
      { destruct (decide (c0 ∈ cs)) as [Hcs|]; [|by apply Hout].
        rewrite pd_to_datetime_fix in Hin by (by eapply pd_to_datetime_datetime).
        by injection (Hin Hcs). }
      exists v1. split_and!; [done | done | set_solver].
    + rewrite <- (convert_column_other _ _ _ _ Hne Hm) in Hv.
      destruct (IH _ _ Hr Hv) as (v' & Hv' & Hin & Hout).
      exists v'. split_and!; [done | | ]; intros ?; [apply Hin | apply Hout]; set_solver.
Qed.

(** [to_datetime] succeeds exactly when every present column of [cols]
    has values [pd.to_datetime] can parse. *)
Lemma to_datetime_ok_iff df cols :
  is_ok (to_datetime df cols) = true ↔
  ∀ c v, c ∈ cols → lookup_col c (data df) = Some v → Forall (λ x, cell_parses x = true) v.
Proof.
  revert df. induction cols as [|c0 cs IH]; simpl; intros df.
  - split; [set_solver | done].
  - destruct (convert_column df c0) as [d1|e] eqn:Hc; simpl.
    + rewrite IH. split; intros Hp c v Hin Hv.
      * destruct (decide (c = c0)) as [->|Hne].
        -- apply pd_to_datetime_ok. destruct (is_ok (pd_to_datetime v)) eqn:Hpd; [done|].
           pose proof (convert_column_fails _ _ _ Hv Hpd) as Hf. by rewrite Hc in Hf.
        -- rewrite <- (convert_column_other _ _ _ _ Hne Hc) in Hv. apply (Hp c); set_solver.
      * destruct (decide (c = c0)) as [->|Hne].
        -- assert (Hin0 : c0 ∈ columns df).
           { rewrite <- (proj2 (convert_column_cols _ _ _ Hc)). exact (lookup_col_elem _ _ _ Hv). }
           destruct (lookup_col_is_Some c0 (data df) Hin0) as [v0 Hv0].
           destruct (convert_column_self _ _ _ _ Hc Hv0) as (v1 & Hpd & Hv1).
           rewrite Hv in Hv1. injection Hv1 as ->.
           eapply Forall_impl; [by eapply pd_to_datetime_datetime | apply is_datetime_parses].
        -- rewrite (convert_column_other _ _ _ _ Hne Hc) in Hv. apply (Hp c); set_solver.
    + split; [done|]. intros Hp.
      assert (Hok : is_ok (convert_column df c0) = true).
      { apply convert_column_ok. intros v Hv. apply (Hp c0); set_solver. }
      by rewrite Hc in Hok.
Qed.

Lemma to_datetime_id df cols :
  (∀ c v, c ∈ cols → lookup_col c (data df) = Some v → Forall (λ x, is_datetime x = true) v) →
  to_datetime df cols = Ok df.
Proof.
  induction cols as [|c cs IH]; simpl; intros Hdt; [done|].
  rewrite convert_column_id by (intros v; apply Hdt; set_solver). simpl.
  apply IH. intros c' v ?. apply Hdt. set_solver.
Qed.

(** Normalising an already normalised frame changes nothing. *)
Theorem to_datetime_idempotent df cols df' :
  to_datetime df cols = Ok df' → to_datetime df' cols = Ok df'.
Proof.
  intros Hr. apply to_datetime_id. intros c v' Hin Hv'.
  assert (Hc : c ∈ columns df).
  { rewrite <- (proj2 (to_datetime_cols _ _ _ Hr)). exact (lookup_col_elem _ _ _ Hv'). }
  destruct (lookup_col_is_Some c (data df) Hc) as [v Hv].
  destruct (to_datetime_columns _ _ _ _ _ Hr Hv) as (v'' & Hv'' & Hpd & _).
  rewrite Hv' in Hv''. injection Hv'' as <-.
  by eapply pd_to_datetime_datetime, Hpd.
Qed.

(** C6: after [to_datetime df DATETIME_COLS] succeeds, each timestamp
    column holds [pd.to_datetime] of its original values, all of them
    datetimes or missing; every other column is unmodified. *)
Theorem to_datetime_normalises df df' c v :
  to_datetime df DATETIME_COLS = Ok df' → lookup_col c (data df) = Some v →
  ∃ v', lookup_col c (data df') = Some v' ∧
        (c ∈ DATETIME_COLS → pd_to_datetime v = Ok v' ∧ Forall (λ x, is_datetime x = true) v') ∧
        (c ∉ DATETIME_COLS → v' = v).
Proof.
  intros Hr Hv. destruct (to_datetime_columns _ _ _ _ _ Hr Hv) as (v' & Hv' & Hin & Hout).
  exists v'. split_and!; [done | | done]. intros Hc.
  split; [by apply Hin | by eapply pd_to_datetime_datetime, Hin].
Qed.

(** C7: [to_datetime] raises exactly when some column of [cols] that
    the frame has holds a value [pd.to_datetime] cannot parse; names of
    [cols] the frame lacks are skipped. *)
Theorem to_datetime_raises_iff df cols :
  is_ok (to_datetime df cols) = false ↔
  ∃ c v x, c ∈ cols ∧ lookup_col c (data df) = Some v ∧ x ∈ v ∧ cell_parses x = false.
Proof.
  split.
  - intros Hf.
    destruct (forallb (λ c, match lookup_col c (data df) with
                            | Some v => forallb cell_parses v | None => true end) cols) eqn:Hall.
    + enough (is_ok (to_datetime df cols) = true) by congruence.
      apply to_datetime_ok_iff. intros c v Hc Hv. apply list_elem_of_In in Hc.
      rewrite forallb_forall in Hall. specialize (Hall c Hc). rewrite Hv, forallb_forall in Hall.
      apply Forall_forall. intros x Hx. apply Hall, list_elem_of_In, Hx.
    + apply forallb_false_ex in Hall as (c & Hc & Hm).
      destruct (lookup_col c (data df)) as [v|] eqn:Hv; [|done].
      apply forallb_false_ex in Hm as (x & Hx & Hpx). by exists c, v, x.
  - intros (c & v & x & Hc & Hv & Hx & Hpx). apply not_true_iff_false. rewrite to_datetime_ok_iff.
    intros Hall. specialize (Hall c v Hc Hv). rewrite Forall_forall in Hall.
    by rewrite (Hall x Hx) in Hpx.
Qed.
End ToDatetimeTheorems.

(** ** Concatenating chunks

    [pd.concat([df1, df2])] of two frames with the same columns: the
    indexes and every column are appended.  Chunked processing is
    compared with processing the concatenation. *)
Definition frame_concat (df1 df2 : DataFrame) : DataFrame :=
  {| index := index df1 ++ index df2;
     data := zip_with (λ c1 c2, (c1.1, c1.2 ++ c2.2)) (data df1) (data df2) |}.

Section Concat.
Context `{DatetimeParser}.

Lemma zip_concat_fst (d1 d2 : list Column) :
  map fst d1 = map fst d2 → map fst (zip_with (λ c1 c2, (c1.1, c1.2 ++ c2.2)) d1 d2) = map fst d1.
Proof.
  revert d2. induction d1 as [|[c v] d1 IH]; intros [|[c' v'] d2]; simpl; try done.
  intros [= <- Hd]. f_equal. by apply IH.
Qed.

Lemma lookup_col_concat (d1 d2 : list Column) c v1 v2 :
  map fst d1 = map fst d2 → lookup_col c d1 = Some v1 → lookup_col c d2 = Some v2 →
  lookup_col c (zip_with (λ c1 c2, (c1.1, c1.2 ++ c2.2)) d1 d2) = Some (v1 ++ v2).
Proof.
  revert d2. induction d1 as [|[c1 w1] d1 IH]; intros [|[c2 w2] d2]; simpl; try done.
  intros [= <- Hd]. case_decide; [congruence|]. by apply IH.
Qed.

Lemma set_col_concat (d1 d2 : list Column) c v1 v2 :
  map fst d1 = map fst d2 → c ∈ map fst d1 →
  set_col c (v1 ++ v2) (zip_with (λ c1 c2, (c1.1, c1.2 ++ c2.2)) d1 d2) =
  zip_with (λ c1 c2, (c1.1, c1.2 ++ c2.2)) (set_col c v1 d1) (set_col c v2 d2).
Proof.
  revert d2. induction d1 as [|[c1 w1] d1 IH]; intros [|[c2 w2] d2]; simpl; try set_solver.
  intros [= <- Hd] Hin. case_decide; simpl; [done|]. f_equal. apply IH; [done|].
  apply elem_of_cons in Hin as [?|?]; [congruence | done].
Qed.

Lemma convert_column_concat df1 df2 c :
  columns df1 = columns df2 →
  convert_column (frame_concat df1 df2) c =
    (d1 ← convert_column df1 c; d2 ← convert_column df2 c; Ok (frame_concat d1 d2)).
Proof.
  intros Hcols. unfold convert_column, columns in *. simpl. rewrite zip_concat_fst by done.
  rewrite <- Hcols. case_bool_decide as Hin; [|done].
  destruct (lookup_col_is_Some _ _ Hin) as [v1 Hv1].
  destruct (lookup_col_is_Some c (data df2)) as [v2 Hv2]; [by rewrite <- Hcols|].
  rewrite (lookup_col_concat _ _ _ _ _ Hcols Hv1 Hv2), Hv1, Hv2. simpl.
  unfold pd_to_datetime. rewrite mapM_res_app.
  destruct (mapM _ v1), (mapM _ v2); simpl; try done.
  unfold frame_concat, set_column. simpl. by rewrite set_col_concat.
Qed.

(** Normalising the concatenation of two chunks succeeds exactly when
    normalising each succeeds, and gives the concatenation of the
    results. *)
Lemma to_datetime_concat df1 df2 cols :
  columns df1 = columns df2 →
  to_datetime (frame_concat df1 df2) cols ≡
    (d1 ← to_datetime df1 cols; d2 ← to_datetime df2 cols; Ok (frame_concat d1 d2)).
Proof.
  revert df1 df2. induction cols as [|c cs IH]; intros df1 df2 Hcols; simpl; [done|].
  rewrite convert_column_concat by done.
  destruct (convert_column df1 c) as [d1|] eqn:Hc1; simpl; [|apply Err_equiv].
  destruct (convert_column df2 c) as [d2|] eqn:Hc2; simpl.
  - rewrite IH; [done|].
    by rewrite (proj2 (convert_column_cols _ _ _ Hc1)), (proj2 (convert_column_cols _ _ _ Hc2)).
  - destruct (to_datetime d1 cs); apply Err_equiv.
Qed.
End Concat.

(** ** Normalisation ignores the index *)

Section Reindex.
Context `{DatetimeParser}.

Lemma convert_column_reindex i df c :
  convert_column (mkFrame i (data df)) c = (λ d, mkFrame i (data d)) <$> convert_column df c.
Proof.
  unfold convert_column, columns. simpl. case_bool_decide; [|done].
  destruct (lookup_col c (data df)); simpl; [|done].
  by destruct (pd_to_datetime _).
Qed.

Lemma to_datetime_reindex i df cols :
  to_datetime (mkFrame i (data df)) cols = (λ d, mkFrame i (data d)) <$> to_datetime df cols.
Proof.
  revert df. induction cols as [|c cs IH]; intros df; simpl; [done|].
  rewrite convert_column_reindex. destruct (convert_column df c) as [d|]; simpl; [|done].
  apply IH.
Qed.
End Reindex.

(** ** A concrete parser

    An instance of [DatetimeParser] for the witnesses: the format
    ["YYYY-MM-DD HH:MM:SS"] of the taxi files, read as nanoseconds since
    1970-01-01 (proleptic Gregorian calendar).  [pd.to_datetime] accepts
    more formats; the theorems hold for every [DatetimeParser]. *)
Module IsoParser.
Local Open Scope Z_scope.

Definition digit_val (a : Ascii.ascii) : option Z :=
  let n := Ascii.nat_of_ascii a in
  if (48 <=? n)%nat && (n <=? 57)%nat then Some (Z.of_nat n - 48)%Z else None.

Fixpoint digits_val (s : string) (acc : Z) : option Z :=
  match s with
  | EmptyString => Some acc
  | String a s' => d ← digit_val a; digits_val s' (10 * acc + d)%Z
  end.

Definition number (s : string) : option Z :=
  match s with EmptyString => None | _ => digits_val s 0 end.

Definition is_leap (y : Z) : bool :=
  ((y mod 4 =? 0) && negb (y mod 100 =? 0)) || (y mod 400 =? 0).

Definition days_in_month (y m : Z) : Z :=
  if (m =? 2)%Z then (if is_leap y then 29 else 28)
  else if (m =? 4) || (m =? 6) || (m =? 9) || (m =? 11) then 30 else 31.

(** Days from 1970-01-01 to the date [y-m-d]. *)
Definition days_from_civil (y m d : Z) : Z :=
  let y' := if (m <=? 2)%Z then y - 1 else y in
  let era := y' / 400 in
  let yoe := y' - era * 400 in
  let mp := (m + 9) mod 12 in
  let doy := (153 * mp + 2) / 5 + d - 1 in
  let doe := yoe * 365 + yoe / 4 - yoe / 100 + doy in
  era * 146097 + doe - 719468.

Definition sep_at (n : nat) (c : Ascii.ascii) (s : string) : bool :=
  bool_decide (String.get n s = Some c).

Definition parse (s : string) : option Z :=
  if (String.length s =? 19)%nat && sep_at 4 "-"%char s && sep_at 7 "-"%char s
     && sep_at 10 " "%char s && sep_at 13 ":"%char s && sep_at 16 ":"%char s then
    y ← number (substring 0 4 s); mo ← number (substring 5 2 s); d ← number (substring 8 2 s);
    h ← number (substring 11 2 s); mi ← number (substring 14 2 s); se ← number (substring 17 2 s);
    if (1 <=? mo)%Z && (mo <=? 12)%Z && (1 <=? d)%Z && (d <=? days_in_month y mo)%Z
       && (h <=? 23)%Z && (mi <=? 59)%Z && (se <=? 59)%Z
    then Some ((((days_from_civil y mo d * 24 + h) * 60 + mi) * 60 + se) * 1000000000)%Z
    else None
  else None.

Definition iso_parser : DatetimeParser := parse.
End IsoParser.

(** ** Witnesses *)

Module FrameExamples.
#[local] Existing Instance IsoParser.iso_parser.

Definition chunk : DataFrame :=
  {| index := [0; 1]%Z;
     data := [("VendorID", [CStr "1"; CStr "2"]);
              ("tpep_pickup_datetime", [CStr "2021-01-01 00:30:10"; CNull]);
              ("fare_amount", [CStr "8"; CStr "3"])] |}.

(** The same chunk with a pickup time in another format. *)
Definition bad_chunk : DataFrame :=
  {| index := [0]%Z;
     data := [("VendorID", [CStr "1"]); ("tpep_pickup_datetime", [CStr "01/01/2021 00:30"])] |}.

Lemma to_datetime_normalises_witness :
  ∃ df' v', to_datetime chunk DATETIME_COLS = Ok df' ∧
            lookup_col "fare_amount" (data df') = Some v' ∧ v' = [CStr "8"; CStr "3"].
Proof.
  destruct (to_datetime chunk DATETIME_COLS) as [df'|e] eqn:H; [|vm_compute in H; discriminate].
  destruct (to_datetime_normalises _ _ "fare_amount" [CStr "8"; CStr "3"] H eq_refl) as (v' & Hv' & _ & Hout).
  exists df', v'. split_and!; [done | done |]. apply Hout. vm_compute. intros Hin.
  repeat (apply elem_of_cons in Hin as [Hin|Hin]; [discriminate|]). by apply elem_of_nil in Hin.
Defined.

Lemma to_datetime_raises_iff_witness : is_ok (to_datetime bad_chunk DATETIME_COLS) = false.
Proof.
  apply (proj2 (to_datetime_raises_iff _ _)).
  exists "tpep_pickup_datetime", [CStr "01/01/2021 00:30"], (CStr "01/01/2021 00:30").
  split_and!; [left | reflexivity | left | vm_compute; reflexivity].
Defined.

End FrameExamples.
