(* ===== verification/Reader.v ===== *)
(** * Reader: the chunked CSV reader [pd.read_csv(..., chunksize=n, iterator=True)]

    The loaders never hold the whole file: they pull [DataFrame] chunks
    from a [TextFileReader] with [next].  The reader is a library object,
    modelled here from the behaviour the loaders rely on: [read_csv]
    rejects a [chunksize] below 1 and a file without a header; the first
    [next] always yields a frame (empty when the file has a header only);
    every later [next] yields the following [chunksize] records, or raises
    [StopIteration] at the end; a record with more fields than the header
    raises [ParserError] in the chunk that holds it; missing fields,
    empty fields and pandas' default NA strings ([NA], [null], ...) are
    [NaN]; the index of a chunk continues the previous
    one.  The theorems: every chunk has at most [chunksize] rows (the
    memory bound the chunking exists for), the records of the chunks are
    the records of the file in order whatever the chunk size, and the
    reader's measure decreases at every [next] (termination of the loops
    that drain it). *)

From S2P Require Import Prelude Frame.

(** ** The file and the frames built from it *)

(** A CSV file after tokenising: its header and its records. *)
Record CsvFile : Type := mkCsv {
  header : list string;
  records : list (list string)
}.

(** The fields [read_csv] reads as [NaN] by default ([keep_default_na]):
    pandas' [STR_NA_VALUES]. *)
Definition STR_NA_VALUES : list string :=
  ["-1.#IND"; "1.#QNAN"; "1.#IND"; "-1.#QNAN"; "#N/A N/A"; "#N/A"; "N/A"; "n/a"; "NA";
   "<NA>"; "#NA"; "NULL"; "null"; "NaN"; "-NaN"; "nan"; "-nan"; "None"; ""].

(** A field as [read_csv] stores it: one of the NA strings is [NaN]. *)
Definition field_cell (s : string) : Cell :=
  if decide (s ∈ STR_NA_VALUES) then CNull else CStr s.

(** The frame of [recs], whose first row is row [start] of the file: column
    [j] holds field [j] of every record, [NaN] where the record is short. *)
Definition frame_of (hdr : list string) (start : nat) (recs : list (list string)) : DataFrame :=
  {| index := map Z.of_nat (seq start (length recs));
     data := imap (λ j c, (c, map (λ rec, field_cell (nth j rec "")) recs)) hdr |}.

(** A record the C parser accepts: no more fields than the header. *)
Definition record_fits (hdr : list string) (rec : list string) : bool :=
  (length rec <=? length hdr)%nat.

(** ** The reader *)

Record TextFileReader : Type := mkReader {
  names : list string;               (** the header *)
  pending : list (list string);      (** the records not yet returned *)
  currow : nat;                      (** rows returned so far *)
  first_chunk : bool;                (** no [next] has returned yet *)
  chunksize : nat
}.

(** [pd.read_csv(path, chunksize=n, iterator=True)] on the file [f]. *)
Definition read_csv (f : CsvFile) (n : Z) : res TextFileReader :=
  if bool_decide (n < 1)%Z then raise (ValueError "'chunksize' must be an integer >=1")
  else if bool_decide (header f = []) then raise EmptyDataError
  else Ok {| names := header f; pending := records f; currow := 0;
             first_chunk := true; chunksize := Z.to_nat n |}.

(** [next(reader)]. *)
Definition next_chunk (r : TextFileReader) : res (DataFrame * TextFileReader) :=
  match pending r with
  | [] =>
      if first_chunk r
      then Ok (frame_of (names r) (currow r) [],
               {| names := names r; pending := []; currow := currow r;
                  first_chunk := false; chunksize := chunksize r |})
      else raise StopIteration
  | _ =>
      let batch := take (chunksize r) (pending r) in
      if forallb (record_fits (names r)) batch
      then Ok (frame_of (names r) (currow r) batch,
               {| names := names r; pending := drop (chunksize r) (pending r);
                  currow := currow r + length batch;
                  first_chunk := false; chunksize := chunksize r |})
      else raise (ParserError "Error tokenizing data: too many fields")
  end.

(** The number of [next] calls the reader still answers with a frame. *)
Definition reader_measure (r : TextFileReader) : nat :=
  length (pending r) + (if first_chunk r then 1 else 0).

(** A reader [read_csv] can return, or one reached from it by [next]. *)
Definition reader_wf (r : TextFileReader) : Prop :=
  0 < chunksize r ∧ NoDup (names r).

(** Iterating the reader, as the header of [for i, chunk in
    enumerate(stream, start=2)] does (ingest_data.py, line 54): call
    [next] until it raises; [Some e] is the exception that ends the
    iteration, [None] that [fuel] ran out first. *)
Fixpoint drain (fuel : nat) (r : TextFileReader) : option Exc :=
  match fuel with
  | 0 => None
  | S fuel' => match next_chunk r with
               | Ok (_, r') => drain fuel' r'
               | Err e => Some e
               end
  end.

(** ** Frames built from records *)

Lemma imap_fst {A B} (f : nat → A → B) (l : list A) :
  map fst (imap (λ j c, (c, f j c)) l) = l.
Proof.
  revert f. induction l as [|x l IH]; intros f; simpl; [done|].
  f_equal. apply (IH (λ j c, f (S j) c)).
Qed.

Lemma imap_snd_lengths {A B} (f : nat → A → list B) (l : list A) n :
  (∀ j c, length (f j c) = n) → Forall (λ col, length col.2 = n) (imap (λ j c, (c, f j c)) l).
Proof.
  revert f. induction l as [|x l IH]; intros f Hf; simpl; constructor; [apply Hf|].
  apply (IH (λ j c, f (S j) c)). intros; apply Hf.
Qed.

Lemma frame_of_columns hdr start recs : columns (frame_of hdr start recs) = hdr.
Proof. apply imap_fst. Qed.

(** The columns of [frame_of]: the [j]-th header name holds the [j]-th
    field of every record. *)
Lemma frame_of_col hdr start recs c v :
  (c, v) ∈ data (frame_of hdr start recs) ↔
  ∃ j, hdr !! j = Some c ∧ v = map (λ rec, field_cell (nth j rec "")) recs.
Proof.
  unfold frame_of. simpl. rewrite list_elem_of_lookup. setoid_rewrite list_lookup_imap.
  split.
  - intros [j Hj]. destruct (hdr !! j) as [c'|] eqn:Hc; simpl in Hj; [|done].
    injection Hj as -> <-. by exists j.
  - intros (j & Hj & ->). exists j. by rewrite Hj.
Qed.

Lemma frame_of_len hdr start recs : len (frame_of hdr start recs) = length recs.
Proof. unfold len. simpl. by rewrite length_map, length_seq. Qed.

Lemma frame_of_wf hdr start recs : NoDup hdr → frame_wf (frame_of hdr start recs).
Proof.
  intros Hnd. split; [by rewrite frame_of_columns|].
  rewrite frame_of_len. apply imap_snd_lengths. intros. apply length_map.
Qed.

(** The frame of consecutive records is the concatenation of their
    frames. *)
Lemma frame_of_app hdr start recs1 recs2 :
  frame_of hdr start (recs1 ++ recs2) =
  frame_concat (frame_of hdr start recs1) (frame_of hdr (start + length recs1) recs2).
Proof.
  unfold frame_of, frame_concat. simpl. f_equal.
  - by rewrite length_app, seq_app, map_app.
  - rewrite imap_zip. apply imap_ext. intros. simpl. by rewrite map_app.
Qed.

(** ** [next] *)

Section Next.
Implicit Types r : TextFileReader.

(** Every successful [next] returns the frame of the next [chunksize]
    pending records and advances the reader past them. *)
Lemma next_chunk_Ok r df r' :
  next_chunk r = Ok (df, r') →
  df = frame_of (names r) (currow r) (take (chunksize r) (pending r)) ∧
  names r' = names r ∧ chunksize r' = chunksize r ∧ first_chunk r' = false ∧
  pending r' = drop (chunksize r) (pending r) ∧
  currow r' = currow r + length (take (chunksize r) (pending r)).
Proof.
  unfold next_chunk. destruct (pending r) as [|rec recs] eqn:Hp.
  - destruct (first_chunk r); intros H; inversion H; subst; simpl.
    by rewrite take_nil, drop_nil, Nat.add_0_r.
  - destruct (forallb _ _); intros H; inversion H; subst; done.
Qed.

Lemma next_chunk_wf r df r' : reader_wf r → next_chunk r = Ok (df, r') → reader_wf r'.
Proof.
  intros [Hn Hnd] (_ & Hnames & Hcs & _)%next_chunk_Ok. split; congruence.
Qed.

Lemma next_chunk_frame_wf r df r' : reader_wf r → next_chunk r = Ok (df, r') → frame_wf df.
Proof. intros [_ Hnd] (-> & _)%next_chunk_Ok. by apply frame_of_wf. Qed.

(** [next] raises [StopIteration] exactly at the end of a reader that
    has already returned a frame. *)
Lemma next_chunk_stop r :
  next_chunk r = raise StopIteration ↔ pending r = [] ∧ first_chunk r = false.
Proof.
  unfold next_chunk. destruct (pending r); [|destruct (forallb _ _)];
    destruct (first_chunk r); split; intros H; (discriminate || naive_solver).
Qed.

(** A [next] that raises anything but [StopIteration] raises
    [ParserError]: some record of the chunk has too many fields. *)
Lemma next_chunk_error r e :
  next_chunk r = raise e → e ≠ StopIteration →
  ∃ rec, rec ∈ take (chunksize r) (pending r) ∧ record_fits (names r) rec = false.
Proof.
  unfold next_chunk. destruct (pending r) as [|x xs] eqn:Hp.
  - destruct (first_chunk r); intros H; inversion H; congruence.
  - destruct (forallb _ _) eqn:Hf; intros H; inversion H; subst; intros _.
    by apply forallb_false_ex.
Qed.
End Next.

Section Drain.
Implicit Types r : TextFileReader.

(** Bounded memory: a chunk never holds more than [chunksize] rows. *)
Theorem next_chunk_bounded r df r' : next_chunk r = Ok (df, r') → len df ≤ chunksize r.
Proof. intros (-> & _)%next_chunk_Ok. rewrite frame_of_len, length_take. lia. Qed.

(** Every successful [next] strictly decreases [reader_measure]. *)
Lemma next_chunk_measure r df r' :
  0 < chunksize r → next_chunk r = Ok (df, r') → reader_measure r' < reader_measure r.
Proof.
  intros Hn Hnext. pose proof (next_chunk_Ok _ _ _ Hnext) as (_ & _ & _ & Hf & Hp & _).
  unfold reader_measure. rewrite Hf, Hp. unfold next_chunk in Hnext.
  destruct (pending r) as [|x xs]; simpl.
  - rewrite drop_nil. destruct (first_chunk r); [simpl; lia | discriminate].
  - rewrite length_drop. simpl. destruct (first_chunk r); lia.
Qed.

(** The reader is at row [currow r] of the file [f]. *)
Definition reader_at (f : CsvFile) r : Prop :=
  names r = header f ∧ pending r = drop (currow r) (records f) ∧ currow r ≤ length (records f).

Lemma read_csv_Ok f n r :
  read_csv f n = Ok r →
  reader_at f r ∧ currow r = 0 ∧ first_chunk r = true ∧ chunksize r = Z.to_nat n ∧
  (1 ≤ n)%Z ∧ header f ≠ [].
Proof.
  unfold read_csv. case_bool_decide; [discriminate|]. case_bool_decide; [discriminate|].
  intros [= <-]. repeat split; simpl; rewrite ?drop_0; try done; lia.
Qed.

Lemma read_csv_wf f n r : NoDup (header f) → read_csv f n = Ok r → reader_wf r.
Proof.
  intros Hnd ([Hat _] & _ & _ & Hcs & Hn & _)%read_csv_Ok. split; [lia|].
  by rewrite Hat.
Qed.

Lemma read_csv_Err f n e :
  read_csv f n = raise e →
  ((n < 1)%Z ∧ e = ValueError "'chunksize' must be an integer >=1") ∨
  ((1 ≤ n)%Z ∧ header f = [] ∧ e = EmptyDataError).
Proof.
  unfold read_csv. case_bool_decide; [intros [= <-]; by left|].
  case_bool_decide; [intros [= <-]; right; split_and!; [lia|done|done] | discriminate].
Qed.

(** [read_csv] raises [ValueError] for a chunk size below 1, else
    [EmptyDataError] for a file without a header, and nothing else. *)
Theorem read_csv_errors f n e :
  read_csv f n = raise e ↔
  ((n < 1)%Z ∧ e = ValueError "'chunksize' must be an integer >=1") ∨
  ((1 ≤ n)%Z ∧ header f = [] ∧ e = EmptyDataError).
Proof.
  split; [apply read_csv_Err|]. unfold read_csv.
  intros [[? ->]|(? & ? & ->)]; [by rewrite bool_decide_true|].
  rewrite bool_decide_false by lia. by rewrite bool_decide_true.
Qed.

Lemma next_chunk_at f r df r' :
  reader_at f r → next_chunk r = Ok (df, r') →
  reader_at f r' ∧ df = frame_of (header f) (currow r) (take (chunksize r) (drop (currow r) (records f))) ∧
  take (currow r') (records f) = take (currow r) (records f) ++ take (chunksize r) (drop (currow r) (records f)).
Proof.
  intros (Hn & Hp & Hle) Hnext. destruct (next_chunk_Ok _ _ _ Hnext) as (-> & Hn' & _ & _ & Hp' & Hc').
  rewrite Hp in Hp', Hc' |- *. rewrite Hn.
  split; [split_and!|split]; [congruence | by rewrite Hp', Hc', drop_advance | | done |].
  - rewrite Hc', length_take, length_drop. lia.
  - rewrite Hc'. apply take_advance.
Qed.

(** At [StopIteration] the reader has returned every record of the file. *)
Lemma next_chunk_stop_at f r :
  reader_at f r → next_chunk r = raise StopIteration → take (currow r) (records f) = records f.
Proof.
  intros (_ & Hp & _) [Hnil _]%next_chunk_stop. rewrite Hp in Hnil.
  apply drop_nil_inv in Hnil. by apply take_ge.
Qed.

Lemma drain_within n r : reader_wf r → reader_measure r < n → ∃ e, drain n r = Some e.
Proof.
  revert r. induction n as [|n IH]; intros r Hwf Hm; [lia|]. simpl.
  destruct (next_chunk r) as [[df r']|e] eqn:Hnext; [|by eexists].
  apply IH; [by eapply next_chunk_wf | pose proof (next_chunk_measure _ _ _ (proj1 Hwf) Hnext); lia].
Qed.

(** Termination: iterating [next] on a reader [read_csv] returns,
    or one [next] reached, ends (by [StopIteration] or an error) within
    [reader_measure r + 1] calls; the loaders' loops, which call [next]
    once per iteration, terminate. *)
Theorem drain_terminates r : reader_wf r → ∃ e, drain (S (reader_measure r)) r = Some e.
Proof. intros Hwf. apply drain_within; [done | lia]. Qed.

Section Normalised.
Context `{DatetimeParser}.

(** C8: a chunk the reader yields, once normalised, is a well-formed
    frame (unique columns, one cell per row in every column) whose
    columns are the file's header and whose rows are the chunk's. *)
Theorem next_chunk_normalised f r df r' df' :
  reader_at f r → NoDup (header f) → next_chunk r = Ok (df, r') →
  to_datetime df DATETIME_COLS = Ok df' →
  frame_wf df' ∧ columns df' = header f ∧ len df' = len df.
Proof.
  intros Hat Hnd Hnext Htd. destruct (next_chunk_at _ _ _ _ Hat Hnext) as (_ & Hdf & _).
  assert (Hwf : frame_wf df) by (rewrite Hdf; by apply frame_of_wf).
  destruct (to_datetime_shape _ _ _ Hwf Htd) as (Hwf' & Hi & Hc).
  split_and!; [done | by rewrite Hc, Hdf, frame_of_columns | unfold len; by rewrite Hi].
Qed.
End Normalised.
End Drain.

Lemma next_chunk_fits r df r' :
  next_chunk r = Ok (df, r') → forallb (record_fits (names r)) (take (chunksize r) (pending r)) = true.
Proof.
  unfold next_chunk. destruct (pending r) as [|x xs] eqn:Hp.
  - by rewrite take_nil.
  - destruct (forallb _ _) eqn:Hf; [done | discriminate].
Qed.

(** At the end of the file the reader has read every record. *)
Lemma reader_at_end f r : reader_at f r → pending r = [] → currow r = length (records f).
Proof. intros (_ & Hp & Hle) Hnil. rewrite Hp in Hnil. apply drop_nil_inv in Hnil. lia. Qed.

(** ** Witnesses *)

Module ReaderExamples.
Definition sample : CsvFile :=
  mkCsv ["VendorID"; "fare_amount"] [["1"; "8"]; ["2"; "3"]; ["2"]; ["1"; "4"]; ["2"; "5"]].

Lemma next_chunk_normalised_witness :
  ∃ r df r' df', read_csv sample 2 = Ok r ∧ next_chunk r = Ok (df, r') ∧
    @to_datetime IsoParser.iso_parser df DATETIME_COLS = Ok df' ∧ columns df' = header sample.
Proof.
  destruct (read_csv sample 2) as [r|e] eqn:Hr; [|vm_compute in Hr; discriminate].
  destruct (next_chunk r) as [[df r']|e] eqn:Hn; [|vm_compute in Hr; injection Hr as <-; vm_compute in Hn; discriminate].
  destruct (@to_datetime IsoParser.iso_parser df DATETIME_COLS) as [df'|e] eqn:Htd;
    [|vm_compute in Hr; injection Hr as <-; vm_compute in Hn; injection Hn as <- _; vm_compute in Htd; discriminate].
  exists r, df, r', df'. split_and!; [done | done | done |].
  refine (proj1 (proj2 (next_chunk_normalised sample r df r' df' _ _ Hn Htd))).
  - exact (proj1 (read_csv_Ok _ _ _ Hr)).
  - apply (bool_decide_unpack _). vm_compute. exact I.
Defined.

End ReaderExamples.
