(* ===== verification/Sink.v ===== *)
(** * Sink: the PostgreSQL database and [DataFrame.to_sql]

    The loaders write every chunk with pandas' [to_sql(name, con,
    if_exists=..., index=...)].  The database is a finite map from table
    names to tables ([DB], a stdpp [gmap]); a table is its column names and
    its rows in insertion order.  [to_sql] is modelled from the behaviour
    the loaders rely on: with [if_exists="replace"] an existing table is
    dropped and re-created from the frame's columns; with ["append"] the
    table is created when missing, else the rows are inserted into it,
    where an [INSERT] naming a column the table lacks fails and a table
    column the frame lacks is filled with [NULL]; ["fail"] refuses an
    existing table; with [index=True] the frame's index is written first,
    as a column named ["index"].  One call is atomic: it either returns the
    new database or raises and leaves the database as it was (pandas runs
    it in a transaction of its own, or inside the caller's).  Column types
    are not modelled: a cell is stored as it is. *)

From S2P Require Import Prelude Frame.

Record Table : Type := mkTable {
  tcols : list string;
  trows : list (list Cell)
}.

#[export] Instance Table_eq_dec : EqDecision Table.
Proof. solve_decision. Defined.

(** The database: table name to table. *)
Abbreviation DB := (gmap string Table).

(** The [if_exists] argument of [to_sql]. *)
Inductive IfExists : Type := IfFail | IfReplace | IfAppend.

(** ** The rows [to_sql] sends *)

(** The column names of the [INSERT]: ["index"] first when [index=True]. *)
Definition sql_columns (with_index : bool) (df : DataFrame) : list string :=
  (if with_index then ["index"] else []) ++ columns df.

(** Row [i] of the frame, in the frame's column order. *)
Definition frame_row (df : DataFrame) (i : nat) : list Cell :=
  map (λ col, nth i col.2 CNull) (data df).

Definition sql_rows (with_index : bool) (df : DataFrame) : list (list Cell) :=
  map (λ i, (if with_index then [CInt (nth i (index df) 0%Z)] else []) ++ frame_row df i)
      (seq 0 (len df)).

(** The position of column [c] among [cols]. *)
Fixpoint index_of (c : string) (cols : list string) : option nat :=
  match cols with
  | [] => None
  | c' :: cs => if decide (c = c') then Some 0 else S <$> index_of c cs
  end.

(** An [INSERT INTO t (cols) VALUES (row)] stores, for each column of the
    table, the value given for it or [NULL]. *)
Definition align_row (cols tcols : list string) (row : list Cell) : list Cell :=
  map (λ tc, match index_of tc cols with Some j => nth j row CNull | None => CNull end) tcols.

(** [INSERT INTO t (cols) VALUES ...]: every column named must exist. *)
Definition insert_rows (t : Table) (cols : list string) (rows : list (list Cell)) : res Table :=
  if forallb (λ c, bool_decide (c ∈ tcols t)) cols
  then Ok {| tcols := tcols t; trows := trows t ++ map (align_row cols (tcols t)) rows |}
  else raise (ProgrammingError "column of relation does not exist").

(** [CREATE TABLE name (cols)] *)
Definition create_table (cols : list string) : Table := {| tcols := cols; trows := [] |}.

(** [df.to_sql(name, con, if_exists=mode, index=with_index)]. *)
Definition to_sql (df : DataFrame) (name : string) (mode : IfExists) (with_index : bool)
    (db : DB) : res DB :=
  let cols := sql_columns with_index df in
  table ← match db !! name, mode with
          | Some _, IfFail => raise (ValueError ("Table '" +:+ name +:+ "' already exists."))
          | Some _, IfReplace | None, _ => Ok (create_table cols)
          | Some t, IfAppend => Ok t
          end;
  table' ← insert_rows table cols (sql_rows with_index df);
  Ok (<[name := table']> db).

(** ** Well-typed tables *)

(** Every row of the table has one value per column. *)
Definition table_wf (t : Table) : Prop := Forall (λ r, length r = length (tcols t)) (trows t).

Definition db_wf (db : DB) : Prop := map_Forall (λ _ t, table_wf t) db.

#[export] Instance table_wf_dec t : Decision (table_wf t).
Proof. unfold table_wf. apply _. Defined.

#[export] Instance db_wf_dec db : Decision (db_wf db).
Proof. unfold db_wf. apply _. Defined.

(** ** Lemmas on the [INSERT] *)

Lemma index_of_lookup (l : list string) i c : NoDup l → l !! i = Some c → index_of c l = Some i.
Proof.
  revert i. induction l as [|c' l IH]; intros i Hnd Hi; [done|].
  apply NoDup_cons in Hnd as [Hc' Hnd]. destruct i as [|i]; simpl in *.
  - injection Hi as ->. by rewrite decide_True.
  - rewrite decide_False by (intros ->; apply Hc'; by eapply list_elem_of_lookup_2).
    by rewrite (IH i).
Qed.

Lemma align_row_id cols row :
  NoDup cols → length row = length cols → align_row cols cols row = row.
Proof.
  intros Hnd Hlen. apply list_eq. intros i. unfold align_row. rewrite list_lookup_fmap.
  destruct (cols !! i) as [c|] eqn:Hc; simpl.
  - rewrite (index_of_lookup _ _ _ Hnd Hc), nth_lookup. apply lookup_lt_Some in Hc.
    destruct (lookup_lt_is_Some_2 row i) as [x ->]; [lia | done].
  - symmetry. apply lookup_ge_None. apply lookup_ge_None in Hc. lia.
Qed.

Lemma sql_rows_length b df : Forall (λ r, length r = length (sql_columns b df)) (sql_rows b df).
Proof.
  apply Forall_forall. intros r Hr. apply list_elem_of_In, in_map_iff in Hr as (i & <- & _).
  unfold sql_columns, frame_row, columns. destruct b; simpl; by rewrite !length_map.
Qed.

Lemma insert_rows_aligned t cols rows :
  tcols t = cols → NoDup cols → Forall (λ r, length r = length cols) rows →
  insert_rows t cols rows = Ok {| tcols := cols; trows := trows t ++ rows |}.
Proof.
  intros Ht Hnd Hrows. unfold insert_rows.
  rewrite (proj2 (forallb_forall _ _)); [|intros c Hc; apply bool_decide_eq_true; rewrite Ht; by apply list_elem_of_In].
  rewrite Ht. do 3 f_equal. rewrite <- (list_fmap_id rows) at 2. apply list_fmap_ext.
  intros i r Hr%list_elem_of_lookup_2. apply align_row_id; [done|].
  rewrite Forall_forall in Hrows. by apply Hrows.
Qed.

Lemma sql_rows_head0 b df : sql_rows b (head0 df) = [].
Proof. done. Qed.

Lemma sql_columns_head0 b df : sql_columns b (head0 df) = sql_columns b df.
Proof. unfold sql_columns, columns, head0. simpl. by rewrite map_map. Qed.

#[export] Hint Resolve sql_rows_length : core.

Lemma align_row_length cols tcols row : length (align_row cols tcols row) = length tcols.
Proof. apply length_map. Qed.

(** The rows an [INSERT] adds are aligned on the table's columns. *)
Lemma insert_rows_wf t cols rows t' : table_wf t → insert_rows t cols rows = Ok t' → table_wf t'.
Proof.
  unfold insert_rows, table_wf. case_match; [|discriminate]. intros Ht [= <-]. simpl.
  apply Forall_app. split; [done|]. apply Forall_fmap, Forall_true. intros r. apply align_row_length.
Qed.

(** An [INSERT] naming exactly the table's columns succeeds. *)
Lemma insert_rows_ok t rows : ∃ t', insert_rows t (tcols t) rows = Ok t' ∧ tcols t' = tcols t.
Proof.
  unfold insert_rows. rewrite (proj2 (forallb_forall _ _)); [by eexists|].
  intros c Hc. apply bool_decide_eq_true. by apply list_elem_of_In.
Qed.

(** ** [to_sql] *)

(** [replace] never raises, and [append] to a table with the frame's
    columns does not either, whatever the columns. *)
Lemma to_sql_replace_ok df name b db :
  ∃ t, to_sql df name IfReplace b db = Ok (<[name := t]> db) ∧ tcols t = sql_columns b df.
Proof.
  destruct (insert_rows_ok (create_table (sql_columns b df)) (sql_rows b df)) as (t & Ht & Hc).
  exists t. split; [|done]. unfold to_sql. by destruct (db !! name); simpl; setoid_rewrite Ht.
Qed.

Lemma to_sql_append_ok df name b db t :
  db !! name = Some t → tcols t = sql_columns b df →
  ∃ t', to_sql df name IfAppend b db = Ok (<[name := t']> db) ∧ tcols t' = tcols t.
Proof.
  intros Hn Hc. destruct (insert_rows_ok t (sql_rows b df)) as (t' & Ht & Hc').
  exists t'. split; [|done]. unfold to_sql. rewrite Hn. simpl. rewrite <- Hc. by rewrite Ht.
Qed.

Section ToSql.
Context (df : DataFrame) (name : string) (b : bool) (db : DB).
Hypothesis Hnd : NoDup (sql_columns b df).

(** [if_exists="replace"] re-creates the table from the frame. *)
Lemma to_sql_replace :
  to_sql df name IfReplace b db =
    Ok (<[name := mkTable (sql_columns b df) (sql_rows b df)]> db).
Proof.
  unfold to_sql. destruct (db !! name); simpl;
    by rewrite insert_rows_aligned.
Qed.

Lemma to_sql_append_new :
  db !! name = None →
  to_sql df name IfAppend b db = Ok (<[name := mkTable (sql_columns b df) (sql_rows b df)]> db).
Proof. intros Hn. unfold to_sql. rewrite Hn. simpl. by rewrite insert_rows_aligned. Qed.

(** ["append"] to a table with the frame's columns. *)
Lemma to_sql_append t :
  db !! name = Some t → tcols t = sql_columns b df →
  to_sql df name IfAppend b db = Ok (<[name := mkTable (tcols t) (trows t ++ sql_rows b df)]> db).
Proof. intros Hn Ht. unfold to_sql. rewrite Hn. simpl. rewrite insert_rows_aligned; by rewrite ?Ht. Qed.

(** [if_exists="replace"] succeeds whatever the table held before
    and leaves the table [name] with exactly the frame's columns (the
    ["index"] column first when [index=True]) and the frame's rows. *)
Theorem to_sql_replace_table :
  ∃ db', to_sql df name IfReplace b db = Ok db' ∧
         db' !! name = Some (mkTable (sql_columns b df) (sql_rows b df)).
Proof. eexists. split; [apply to_sql_replace | apply lookup_insert_eq]. Qed.

(** [if_exists="append"] to a table with the frame's columns keeps
    the table's rows and adds the frame's rows after them, in order. *)
Theorem to_sql_append_table t :
  db !! name = Some t → tcols t = sql_columns b df →
  ∃ db', to_sql df name IfAppend b db = Ok db' ∧
         db' !! name = Some (mkTable (tcols t) (trows t ++ sql_rows b df)).
Proof. intros Hn Ht. eexists. split; [by apply to_sql_append | apply lookup_insert_eq]. Qed.
End ToSql.

(** [to_sql] touches no table but [name]. *)
Lemma to_sql_other df name mode b db db' name' :
  to_sql df name mode b db = Ok db' → name' ≠ name → db' !! name' = db !! name'.
Proof.
  unfold to_sql. intros H Hne. res_inv. subst. by rewrite lookup_insert_ne.
Qed.

(** ["append"] naming a column the table lacks raises [ProgrammingError]
    and writes nothing. *)
Lemma to_sql_append_missing df name b db t c :
  db !! name = Some t → c ∈ sql_columns b df → c ∉ tcols t →
  to_sql df name IfAppend b db = raise (ProgrammingError "column of relation does not exist").
Proof.
  intros Hn Hc Hnot. unfold to_sql. rewrite Hn. simpl. unfold insert_rows.
  destruct (forallb _ _) eqn:Hf; [|done].
  rewrite forallb_forall in Hf. apply list_elem_of_In, Hf, bool_decide_eq_true in Hc. done.
Qed.

(** ** The rows of a concatenation *)

Lemma row_concat_l (d1 d2 : list Column) n i :
  length d1 = length d2 → Forall (λ col, length col.2 = n) d1 → i < n →
  map (λ col, nth i col.2 CNull) (zip_with (λ c1 c2, (c1.1, c1.2 ++ c2.2)) d1 d2) =
  map (λ col, nth i col.2 CNull) d1.
Proof.
  revert d2. induction d1 as [|c1 d1 IH]; intros [|c2 d2] Hl Hn Hi; simpl in *; try done.
  inversion Hn; subst. rewrite app_nth1 by lia. f_equal. apply IH; auto.
Qed.

Lemma row_concat_r (d1 d2 : list Column) n k :
  length d1 = length d2 → Forall (λ col, length col.2 = n) d1 →
  map (λ col, nth (n + k) col.2 CNull) (zip_with (λ c1 c2, (c1.1, c1.2 ++ c2.2)) d1 d2) =
  map (λ col, nth k col.2 CNull) d2.
Proof.
  revert d2. induction d1 as [|c1 d1 IH]; intros [|c2 d2] Hl Hn; simpl in *; try done.
  inversion Hn; subst. rewrite app_nth2_plus. f_equal. apply IH; auto.
Qed.

(** The rows [to_sql] sends for a concatenation are the rows of the first
    frame followed by those of the second. *)
Lemma sql_rows_concat b df1 df2 :
  frame_wf df1 → frame_wf df2 → columns df1 = columns df2 →
  sql_rows b (frame_concat df1 df2) = sql_rows b df1 ++ sql_rows b df2.
Proof.
  intros [_ Hw1] [_ Hw2] Hcols.
  assert (Hl : length (data df1) = length (data df2)).
  { unfold columns in Hcols. apply (f_equal length) in Hcols. by rewrite !length_map in Hcols. }
  unfold sql_rows, len, frame_row. simpl. rewrite length_app, seq_app, map_app. f_equal.
  - apply map_ext_in. intros i Hi%in_seq.
    unfold len in *. rewrite app_nth1 by lia. f_equal. apply (row_concat_l _ _ (length (index df1))); auto. lia.
  - rewrite map_seq_shift0. apply map_ext. intros k. rewrite Nat.add_0_l, app_nth2_plus. f_equal. apply (row_concat_r _ _ (len df1)); auto.
Qed.

Lemma sql_rows_reindex i df :
  length i = len df → sql_rows false (mkFrame i (data df)) = sql_rows false df.
Proof. intros Hi. unfold sql_rows, frame_row, len in *. simpl. by rewrite Hi. Qed.

(** [to_sql] keeps the database well typed, whatever frame it is
    given and whatever the mode: every row of every table has exactly one
    value per column of its table (an [INSERT] naming a subset of the
    columns stores [NULL] in the others). *)
Theorem to_sql_well_typed df name mode b db db' :
  db_wf db → to_sql df name mode b db = Ok db' → db_wf db'.
Proof.
  intros Hdb Hsql. unfold to_sql in Hsql. res_inv. rewrite <- Hsql.
  apply map_Forall_insert_2; [|done]. eapply insert_rows_wf; [|exact Hm0].
  destruct (db !! name) as [t|] eqn:Ht, mode; simplify_eq; try apply Forall_nil_2.
  exact (map_Forall_lookup_1 _ _ _ _ Hdb Ht).
Qed.
