(* ===== verification/Runtime.v ===== *)
(** * Runtime: the process, its world and the calls with effects

    The loaders are scripts: they read files, download with [curl], talk
    to a PostgreSQL server and print.  [World] is everything they can
    observe or change: the files [pd.read_csv] can open, what the web
    serves, the committed contents of every PostgreSQL server (by
    connection URL), the open transactions, and the lines printed so far.
    A script is a [Proc A]: a function from the world to the new world
    and a result; a raised exception keeps the world as it was at the
    [raise] (Python does not undo effects when unwinding).

    Connections follow SQLAlchemy: an [Engine] runs each [to_sql] in a
    transaction of its own, committed when the call returns
    ("autocommit" per statement); a [Connection] opened by
    [engine.begin()] works inside one transaction that the [with] block
    commits on normal exit and rolls back when an exception leaves it
    ([with_begin]). *)

From S2P Require Import Prelude Frame Reader Sink.

(** A printed line.  The elapsed times the scripts print are not
    modelled. *)
Inductive Line : Type :=
| Say (s : string)                    (** a fixed message *)
| ChunkLine (i n total : nat)         (** [chunk {i} ({n} rows) inserted ... total {total}] *)
| FinishedLine (total : nat).         (** [[finished]: {total} rows in ...] *)

#[export] Instance Line_eq_dec : EqDecision Line.
Proof. solve_decision. Defined.

Record World : Type := mkWorld {
  files : gmap string CsvFile;          (** paths and URLs [read_csv] can open *)
  web : gmap string (nat * CsvFile);    (** URL to HTTP status and body *)
  servers : gmap string DB;             (** committed state, by connection URL *)
  txns : gmap string DB;                (** open transactions, by connection URL *)
  stdout : list Line
}.

Definition set_files (w : World) fs : World := mkWorld fs (web w) (servers w) (txns w) (stdout w).
Definition set_servers (w : World) s : World := mkWorld (files w) (web w) s (txns w) (stdout w).
Definition set_txns (w : World) t : World := mkWorld (files w) (web w) (servers w) t (stdout w).
Definition set_stdout (w : World) o : World := mkWorld (files w) (web w) (servers w) (txns w) o.

(** ** The process monad *)

Definition Proc (A : Type) : Type := World → World * res A.

#[export] Instance proc_ret : MRet Proc := λ A a w, (w, Ok a).
#[export] Instance proc_bind : MBind Proc := λ A B f m w,
  match m w with
  | (w', Ok a) => f a w'
  | (w', Err e) => (w', Err e)
  end.

(** A pure call, which may raise. *)
Definition lift {A} (r : res A) : Proc A := λ w, (w, r).

(** [print(line)] *)
Definition print (l : Line) : Proc unit := λ w, (set_stdout w (stdout w ++ [l]), Ok tt).

(** [pd.read_csv(path, chunksize=n, iterator=True)] *)
Definition open_csv (path : string) (n : Z) : Proc TextFileReader := λ w,
  match files w !! path with
  | Some f => (w, read_csv f n)
  | None => (w, raise (FileNotFoundError path))
  end.

(** ** Connections *)

Inductive Conn : Type :=
| Engine (url : string)        (** [create_engine(url)]: a statement per transaction *)
| Connection (url : string).   (** [engine.begin()]: inside the open transaction *)

(** Run a statement [f] on the database behind [con]; the statement
    either returns the new database or raises without changing it. *)
Definition exec (con : Conn) (f : DB → res DB) : Proc unit := λ w,
  match con with
  | Engine url =>
      match servers w !! url with
      | None => (w, raise (OperationalError url))
      | Some db => match f db with
                   | Ok db' => (set_servers w (<[url := db']> (servers w)), Ok tt)
                   | Err e => (w, Err e)
                   end
      end
  | Connection url =>
      match txns w !! url with
      | None => (w, raise (OperationalError url))
      | Some db => match f db with
                   | Ok db' => (set_txns w (<[url := db']> (txns w)), Ok tt)
                   | Err e => (w, Err e)
                   end
      end
  end.

(** [engine.connect()]: fails when no server answers at [url]. *)
Definition connect (url : string) : Proc unit := λ w,
  match servers w !! url with
  | None => (w, raise (OperationalError url))
  | Some _ => (w, Ok tt)
  end.

(** [engine.begin().__enter__()] *)
Definition begin (url : string) : Proc Conn := λ w,
  match servers w !! url with
  | None => (w, raise (OperationalError url))
  | Some db => (set_txns w (<[url := db]> (txns w)), Ok (Connection url))
  end.

Definition commit (url : string) : World → World := λ w,
  match txns w !! url with
  | Some db => set_txns (set_servers w (<[url := db]> (servers w))) (delete url (txns w))
  | None => w
  end.

Definition rollback (url : string) : World → World := λ w, set_txns w (delete url (txns w)).

(** The exit of the [with] block: commit on normal exit, roll back and
    re-raise when the body raises. *)
Definition end_txn {A} (url : string) (m : Proc A) : Proc A := λ w,
  match m w with
  | (w', Ok a) => (commit url w', Ok a)
  | (w', Err e) => (rollback url w', Err e)
  end.

(** [with engine.begin() as conn: body(conn)] *)
Definition with_begin {A} (url : string) (body : Conn → Proc A) : Proc A :=
  conn ← begin url; end_txn url (body conn).

(** ** The database behind a connection *)

Definition conn_db (w : World) (con : Conn) : option DB :=
  match con with
  | Engine url => servers w !! url
  | Connection url => txns w !! url
  end.

Definition set_conn_db (w : World) (con : Conn) (db : DB) : World :=
  match con with
  | Engine url => set_servers w (<[url := db]> (servers w))
  | Connection url => set_txns w (<[url := db]> (txns w))
  end.

Lemma conn_db_set w con db : conn_db (set_conn_db w con db) con = Some db.
Proof. destruct con; simpl; apply lookup_insert_eq. Qed.

Lemma stdout_set_conn_db w con db : stdout (set_conn_db w con db) = stdout w.
Proof. by destruct con. Qed.

Lemma files_set_conn_db w con db : files (set_conn_db w con db) = files w.
Proof. by destruct con. Qed.

Lemma exec_Ok con f w db db' :
  conn_db w con = Some db → f db = Ok db' → exec con f w = (set_conn_db w con db', Ok tt).
Proof. destruct con; simpl; intros -> ->; done. Qed.

Lemma exec_Err con f w db e :
  conn_db w con = Some db → f db = Err e → exec con f w = (w, Err e).
Proof. destruct con; simpl; intros -> ->; done. Qed.

Lemma conn_db_print w l con : conn_db (set_stdout w l) con = conn_db w con.
Proof. by destruct con. Qed.

Lemma set_conn_db_twice w con db1 db2 : set_conn_db (set_conn_db w con db1) con db2 = set_conn_db w con db2.
Proof. destruct con; simpl; unfold set_servers, set_txns; simpl; by rewrite insert_insert_eq. Qed.

Lemma set_conn_db_stdout w con db l : set_conn_db (set_stdout w l) con db = set_stdout (set_conn_db w con db) l.
Proof. by destruct con. Qed.

Create Rewrite HintDb world.
#[export] Hint Rewrite conn_db_set stdout_set_conn_db files_set_conn_db conn_db_print : world.

(** ** Running a sequence of calls *)

Lemma proc_bind_Ok {A B} (m : Proc A) (k : A → Proc B) w w' a :
  m w = (w', Ok a) → (m ≫= k) w = k a w'.
Proof. intros Hm. unfold mbind, proc_bind. by rewrite Hm. Qed.

Lemma proc_bind_Err {A B} (m : Proc A) (k : A → Proc B) w w' e :
  m w = (w', Err e) → (m ≫= k) w = (w', Err e).
Proof. intros Hm. unfold mbind, proc_bind. by rewrite Hm. Qed.

Lemma proc_bind_assoc {A B C} (m : Proc A) (f : A → Proc B) (g : B → Proc C) w :
  ((m ≫= f) ≫= g) w = (m ≫= λ a, f a ≫= g) w.
Proof. unfold mbind, proc_bind. by destruct (m w) as [w' [a|e]]. Qed.

Lemma proc_bind_ext_l {A B} (m m' : Proc A) (k : A → Proc B) w :
  m w = m' w → (m ≫= k) w = (m' ≫= k) w.
Proof. intros Hm. unfold mbind, proc_bind. by rewrite Hm. Qed.

(** Unfold the process monad, leaving [match]es on the results of the
    calls for [case_match]. *)
Ltac proc_unfold := unfold mbind, proc_bind, mret, proc_ret, lift in *.

Lemma lift_run {A} (r : res A) w : lift r w = (w, r).
Proof. done. Qed.

Lemma ret_run {A} (a : A) w : (mret a : Proc A) w = (w, Ok a).
Proof. done. Qed.

Lemma print_run l w : print l w = (set_stdout w (stdout w ++ [l]), Ok tt).
Proof. done. Qed.

Lemma open_csv_run path n w f : files w !! path = Some f → open_csv path n w = (w, read_csv f n).
Proof. unfold open_csv. by intros ->. Qed.

Lemma files_set_stdout w l : files (set_stdout w l) = files w.
Proof. done. Qed.

#[export] Hint Rewrite files_set_stdout : world.

(** ** Calls that leave the committed databases alone *)

(** [m] changes no committed database (it may change open transactions). *)
Definition keeps_servers {A} (m : Proc A) : Prop := ∀ w, servers (m w).1 = servers w.

Create HintDb keeps discriminated.

Lemma keeps_bind {A B} (m : Proc A) (k : A → Proc B) :
  keeps_servers m → (∀ a, keeps_servers (k a)) → keeps_servers (m ≫= k).
Proof.
  intros Hm Hk w. unfold mbind, proc_bind. specialize (Hm w).
  destruct (m w) as [w' [a|e]]; simpl in *; [by rewrite Hk | done].
Qed.

Lemma keeps_ret {A} (a : A) : keeps_servers (mret a).
Proof. done. Qed.

Lemma keeps_lift {A} (r : res A) : keeps_servers (lift r).
Proof. done. Qed.

Lemma keeps_print l : keeps_servers (print l).
Proof. done. Qed.

Lemma keeps_open_csv p n : keeps_servers (open_csv p n).
Proof. intros w. unfold open_csv. by destruct (files w !! p). Qed.

Lemma keeps_exec_conn url f : keeps_servers (exec (Connection url) f).
Proof.
  intros w. simpl. destruct (txns w !! url) as [db|]; [|done]. by destruct (f db).
Qed.

#[export] Hint Resolve keeps_bind keeps_ret keeps_lift keeps_print keeps_open_csv keeps_exec_conn : keeps.

(** Leaving a transaction by rollback restores nothing and commits nothing. *)
Lemma end_txn_Err {A} url (m : Proc A) w w' e :
  end_txn url m w = (w', Err e) → ∃ w1, m w = (w1, Err e) ∧ w' = rollback url w1.
Proof. unfold end_txn. destruct (m w) as [w1 [a|e']]; intros [= <- <-]; eauto. Qed.

Lemma end_txn_Ok {A} url (m : Proc A) w w' a :
  end_txn url m w = (w', Ok a) → ∃ w1, m w = (w1, Ok a) ∧ w' = commit url w1.
Proof. unfold end_txn. destruct (m w) as [w1 [a'|e']]; intros [= <- <-]; eauto. Qed.

(** [solve_keeps] proves [keeps_servers] of a sequence of calls. *)
Ltac solve_keeps :=
  repeat match goal with
  | |- keeps_servers (_ ≫= _) => apply keeps_bind; [|intros ?; cbv beta]
  | |- keeps_servers (match ?x with _ => _ end) => destruct x
  | |- _ => solve [eauto with keeps]
  end.
