(* ===== verification/ArgParse.v ===== *)
(** * ArgParse: Python's [int()], [repr()] and [argparse] for parsers of options

    Both loaders read their command line with [argparse]
    (src/M01_Homework/ingest_data.py lines 67-77, ingest_data_old.py lines
    96-111), with parsers that have only options ([--flag value]), of
    type [str] or [int].  This file is the library side, modelled from
    CPython 3.11's [argparse.py] for exactly that class of parsers:

    - [py_int]: [int(s)] on a string: surrounding whitespace, a sign,
      decimal digits with single underscores between them, and the 4300
      digit limit of CPython's string-to-int conversion;
    - [py_repr_str], [ns_repr]: [repr] of a [str] and of a [Namespace]
      (the old loader prints both);
    - [parse_args]: the classification of each argument ([parse_optional],
      with [--flag=value], unique-prefix abbreviations, ambiguity, negative
      numbers and [--]), the consumption of options and their value,
      [-h]/[--help], the type conversion, the required options and the
      unrecognized arguments.  An error is [SystemExit 2 msg] with the
      message argparse prints after [prog: error:]; [--help] is
      [SystemExit 0] (the help text itself is not modelled).

    Characters are Unicode code points below 256. *)

From S2P Require Import Prelude EngineUrl.
From Stdlib Require Import DecimalString DecimalPos DecimalZ.

(** ** Python values of the namespace *)

Inductive PyVal : Type := PyNone | PyStr (s : string) | PyInt (z : Z)
  | PyNil.  (** the empty list [[]] *)

#[export] Instance PyVal_eq_dec : EqDecision PyVal.
Proof. solve_decision. Defined.

(** ** [int(s)] *)

(** The characters [int()] strips: [\t\n\v\f\r], space, NEL, NBSP. *)
Definition py_space (c : ascii) : bool :=
  let n := nat_of_ascii c in ((9 <=? n) && (n <=? 13)) || (n =? 32) || (n =? 133) || (n =? 160).

Fixpoint lstrip (s : string) : string :=
  match s with
  | EmptyString => EmptyString
  | String c s' => if py_space c then lstrip s' else s
  end.

Fixpoint rstrip (s : string) : string :=
  match s with
  | EmptyString => EmptyString
  | String c s' =>
      let r := rstrip s' in
      if py_space c && String.eqb r "" then "" else String c r
  end.

Definition int_digit (c : ascii) : option Z :=
  let n := nat_of_ascii c in
  if (48 <=? n) && (n <=? 57) then Some (Z.of_nat (n - 48)) else None.

(** The digits after the first: each may follow one underscore.  The
    result is the value, read from [acc], and the number of digits. *)
Fixpoint digits_go (s : string) (acc : Z) (n : nat) : option (Z * nat) :=
  match s with
  | EmptyString => Some (acc, n)
  | String c s' =>
      match int_digit c with
      | Some d => digits_go s' (acc * 10 + d) (S n)
      | None =>
          if Ascii.eqb c "_" then
            match s' with
            | String c2 s'' =>
                match int_digit c2 with
                | Some d => digits_go s'' (acc * 10 + d) (S n)
                | None => None
                end
            | EmptyString => None
            end
          else None
      end
  end.

(** CPython refuses to convert more digits than this
    ([sys.int_info.default_max_str_digits]). *)
Definition max_str_digits : nat := 4300.

(** [int(s)]; [None] is the [ValueError]. *)
Definition py_int (s : string) : option Z :=
  let t := rstrip (lstrip s) in
  let '(neg, body) :=
    match t with
    | String c r => if Ascii.eqb c "-" then (true, r) else if Ascii.eqb c "+" then (false, r) else (false, t)
    | EmptyString => (false, EmptyString)
    end in
  match body with
  | String c r =>
      d ← int_digit c;
      '(v, n) ← digits_go r d 1;
      if max_str_digits <? n then None else Some (if neg then (- v)%Z else v)
  | EmptyString => None
  end.

(** ** [repr] *)

Definition dquote : ascii := ascii_of_nat 34.
Definition squote : ascii := "'".
Definition backslash : ascii := ascii_of_nat 92.

Definition hex_digit (n : nat) : ascii :=
  if n <? 10 then ascii_of_nat (48 + n) else ascii_of_nat (87 + n).

(** The characters [str.isprintable()] rejects among the first 256
    code points: the controls, DEL, the C1 controls, NBSP and the soft
    hyphen. *)
Definition py_unprintable (n : nat) : bool :=
  (n <? 32) || (n =? 127) || ((128 <=? n) && (n <=? 160)) || (n =? 173).

(** One character inside the quotes [q] of a [repr]. *)
Definition repr_char (q c : ascii) : string :=
  let n := nat_of_ascii c in
  if Ascii.eqb c backslash then String backslash (String backslash "")
  else if Ascii.eqb c q then String backslash (String q "")
  else if n =? 9 then String backslash "t"
  else if n =? 10 then String backslash "n"
  else if n =? 13 then String backslash "r"
  else if py_unprintable n then
    String backslash (String "x" (String (hex_digit (n / 16)) (String (hex_digit (n mod 16)) "")))
  else String c "".

Fixpoint repr_body (q : ascii) (s : string) : string :=
  match s with
  | EmptyString => ""
  | String c s' => repr_char q c +:+ repr_body q s'
  end.

(** [repr(s)]: single quotes, unless [s] holds a single quote and no
    double quote. *)
Definition py_repr_str (s : string) : string :=
  let q := if is_in squote s && negb (is_in dquote s) then dquote else squote in
  String q (repr_body q s +:+ String q "").

Definition py_repr (v : PyVal) : string :=
  match v with
  | PyNone => "None"
  | PyStr s => py_repr_str s
  | PyInt z => py_str_int z
  | PyNil => "[]"
  end.

(** [', '.join(ss)] and the like. *)
Fixpoint str_join (sep : string) (ss : list string) : string :=
  match ss with
  | [] => ""
  | [s] => s
  | s :: ss' => s +:+ sep +:+ str_join sep ss'
  end.

(** An [argparse.Namespace]: its attributes in the order they were set. *)
Abbreviation Namespace := (list (string * PyVal)).

(** [repr(ns)]: [Namespace(name=repr(value), ...)]. *)
Definition ns_repr (ns : Namespace) : string :=
  "Namespace(" +:+ str_join ", " (map (λ '(k, v), k +:+ "=" +:+ py_repr v) ns) +:+ ")".

(** ** Parsers of options *)

(** [type=str] (argparse's default) or [type=int]. *)
Inductive ArgType : Type := TStr | TInt.

(** An option of [parser.add_argument(...)]. *)
Record Action : Type := mkAction {
  option_strings : list string;
  dest : string;
  atype : ArgType;
  required : bool;
  default : PyVal
}.

#[export] Instance ArgType_eq_dec : EqDecision ArgType.
Proof. solve_decision. Defined.
#[export] Instance Action_eq_dec : EqDecision Action.
Proof. solve_decision. Defined.

Fixpoint dash_to_underscore (s : string) : string :=
  match s with
  | EmptyString => EmptyString
  | String c s' => String (if Ascii.eqb c "-" then "_" else c) (dash_to_underscore s')
  end.

Fixpoint lstrip_dashes (s : string) : string :=
  match s with
  | String c s' => if Ascii.eqb c "-" then lstrip_dashes s' else s
  | EmptyString => EmptyString
  end.

(** [add_argument(flag, type=ty, required=req, default=d)]: the
    destination is the flag without its dashes, [-] becoming [_]. *)
Definition add_argument (flag : string) (ty : ArgType) (req : bool) (d : PyVal) : Action :=
  mkAction [flag] (dash_to_underscore (lstrip_dashes flag)) ty req d.

(** What an option string stands for: the [-h]/[--help] option every
    parser has, or one of the parser's actions. *)
Inductive Target : Type := THelp | TAct (a : Action).

(** [parser._option_string_actions], in insertion order. *)
Definition option_table (p : list Action) : list (string * Target) :=
  [("-h", THelp); ("--help", THelp)] ++
  flat_map (λ a, map (λ o, (o, TAct a)) (option_strings a)) p.

Fixpoint assoc_str {A} (k : string) (l : list (string * A)) : option A :=
  match l with
  | [] => None
  | (k', a) :: l' => if String.eqb k k' then Some a else assoc_str k l'
  end.

Definition action_name (t : Target) : string :=
  match t with THelp => "-h/--help" | TAct a => str_join "/" (option_strings a) end.

(** [ArgumentError(action, msg)], reported by [parser.error]. *)
Definition arg_error (t : Target) (msg : string) : Exc :=
  SystemExit 2 ("argument " +:+ action_name t +:+ ": " +:+ msg).

(** [s.split('=', 1)], when [s] holds a ['=']. *)
Fixpoint split_at (sep : ascii) (s : string) : option (string * string) :=
  match s with
  | EmptyString => None
  | String c s' =>
      if Ascii.eqb c sep then Some ("", s')
      else (λ '(a, b), (String c a, b)) <$> split_at sep s'
  end.

Definition all_digits (s : string) : bool := str_forall (λ c, bool_decide (is_Some (int_digit c))) s.

(** [_negative_number_matcher]: [^-\d+$|^-\d*\.\d+$]. *)
Definition is_negnum (s : string) : bool :=
  match s with
  | String c r =>
      Ascii.eqb c "-" &&
      ((all_digits r && negb (String.eqb r "")) ||
       match split_at "." r with
       | Some (a, b) => all_digits a && all_digits b && negb (String.eqb b "")
       | None => false
       end)
  | EmptyString => false
  end.

(** The classification of one argument by [_parse_optional]: a value
    ([CPos]), or an option with its action ([None] when no option of
    the parser has that string) and the [=value] it carries. *)
Inductive Cls : Type :=
  | CPos
  | COpt (t : option Target) (os : string) (explicit : option string).

(** [_get_option_tuples]: the options [s] abbreviates ([allow_abbrev]). *)
Definition option_tuples (tbl : list (string * Target)) (s : string)
    : list (Target * string * option string) :=
  match s with
  | String _ (String c2 _) =>
      if Ascii.eqb c2 "-" then
        let '(pre, ex) := match split_at "=" s with Some (o, e) => (o, Some e) | None => (s, None) end in
        map (λ '(o, t), (t, o, ex)) (List.filter (λ '(o, _), String.prefix pre o) tbl)
      else
        let short := substring 0 2 s in
        let sex := substring 2 (String.length s - 2) s in
        flat_map (λ '(o, t), if String.eqb o short then [(t, o, Some sex)]
                             else if String.prefix s o then [(t, o, None)] else []) tbl
  | _ => []
  end.

(** [_parse_optional(s)]; an ambiguous abbreviation is [parser.error]. *)
Definition parse_optional (p : list Action) (s : string) : res Cls :=
  let tbl := option_table p in
  match s with
  | EmptyString => Ok CPos
  | String c r =>
      if negb (Ascii.eqb c "-") then Ok CPos else
      match assoc_str s tbl with
      | Some t => Ok (COpt (Some t) s None)
      | None =>
          if String.eqb r "" then Ok CPos else
          match match split_at "=" s with
                | Some (o, e) => (λ t, (t, o, e)) <$> assoc_str o tbl
                | None => None
                end with
          | Some (t, o, e) => Ok (COpt (Some t) o (Some e))
          | None =>
              match option_tuples tbl s with
              | [(t, o, e)] => Ok (COpt (Some t) o e)
              | [] =>
                  if is_negnum s && negb (existsb (λ '(o, _), is_negnum o) tbl) then Ok CPos
                  else if is_in " " s then Ok CPos
                  else Ok (COpt None s None)
              | l => Err (SystemExit 2 ("ambiguous option: " +:+ s +:+ " could match " +:+
                                        str_join ", " (map (λ '(_, o, _), o) l)))
              end
          end
      end
  end.

(** The pattern letters of [arg_strings_pattern]: [A], [-] for [--],
    and [O] with the option's classification. *)
Inductive Pat : Type := PA | PDash | PO (t : option Target) (os : string) (explicit : option string).

Fixpoint classify (p : list Action) (args : list string) : res (list Pat) :=
  match args with
  | [] => Ok []
  | a :: rest =>
      if String.eqb a "--" then Ok (PDash :: map (λ _, PA) rest)
      else c ← parse_optional p a;
           ps ← classify p rest;
           Ok (match c with CPos => PA | COpt t os e => PO t os e end :: ps)
  end.

(** The parser's state while it consumes the arguments: the namespace,
    the destinations of the actions taken ([seen_actions]) and the
    arguments no action took ([extras]). *)
Record PState : Type := mkPState { ns : Namespace; seen : list string; extras : list string }.

(** [setattr(namespace, k, v)]: in place when [k] is already set. *)
Fixpoint ns_set (k : string) (v : PyVal) (n : Namespace) : Namespace :=
  match n with
  | [] => [(k, v)]
  | (k', v') :: n' => if String.eqb k k' then (k, v) :: n' else (k', v') :: ns_set k v n'
  end.

(** [_get_value]: the [type] conversion. *)
Definition convert (a : Action) (s : string) : res PyVal :=
  match atype a with
  | TStr => Ok (PyStr s)
  | TInt =>
      match py_int s with
      | Some z => Ok (PyInt z)
      | None => Err (arg_error (TAct a) ("invalid int value: " +:+ py_repr_str s))
      end
  end.

(** [_get_values] for [nargs=None]: it first removes a ['--'] argument
    ([arg_strings.remove('--')], for options too in 3.11), and the empty
    argument list then falls through to the branch that builds a list:
    the value is [[]], unconverted.  Any other argument is converted. *)
Definition get_values (a : Action) (s : string) : res PyVal :=
  if String.eqb s "--" then Ok PyNil else convert a s.

(** [take_action]: [--help] prints the help and exits 0; a store action
    takes the value of its one argument and sets its destination. *)
Definition take_action (t : Target) (args : list string) (st : PState) : res PState :=
  match t, args with
  | THelp, _ => Err (SystemExit 0 "")
  | TAct a, [s] =>
      v ← get_values a s;
      Ok (mkPState (ns_set (dest a) v (ns st)) (dest a :: seen st) (extras st))
  | TAct a, _ => Err (arg_error t "expected one argument")
  end.

Fixpoint take_all (ts : list (Target * list string)) (st : PState) : res PState :=
  match ts with
  | [] => Ok st
  | (t, args) :: ts' => st' ← take_action t args st; take_all ts' st'
  end.

(** The number of arguments an option takes: 0 for [--help], 1 for the
    store actions ([nargs=None]). *)
Definition nargs (t : Target) : nat := match t with THelp => 0 | TAct _ => 1 end.

Definition is_long (os : string) : bool :=
  match os with String _ (String c _) => Ascii.eqb c "-" | _ => false end.

(** [consume_optional] with no [=value]: the option takes the next
    argument when that one is an [A] ([(A)] is its [nargs] pattern, from
    which argparse removes [-] for options). *)
Definition take_next (t : Target) (rest : list (string * Pat)) (acc : list (Target * list string))
    : res (list (Target * list string) * bool) :=
  if nargs t =? 0 then Ok (acc ++ [(t, [])], false)
  else match rest with
       | (s, PA) :: _ => Ok (acc ++ [(t, [s])], true)
       | _ => Err (arg_error t "expected one argument")
       end.

(** [consume_optional] with an explicit argument [e]: a single-dash
    option that takes none reads the next character of [e] as another
    single-dash option ([-xyz]); otherwise [e] is its one argument. *)
Fixpoint take_explicit (tbl : list (string * Target)) (t : Target) (os e : string)
    (rest : list (string * Pat)) (acc : list (Target * list string))
    : res (list (Target * list string) * bool) :=
  if (nargs t =? 0) && negb (is_long os) && negb (String.eqb e "") then
    match e with
    | String c e' =>
        let os' := String "-" (String c "") in
        match assoc_str os' tbl with
        | Some t' =>
            if String.eqb e' "" then take_next t' rest (acc ++ [(t, [])])
            else take_explicit tbl t' os' e' rest (acc ++ [(t, [])])
        | None => Err (arg_error t ("ignored explicit argument " +:+ py_repr_str e))
        end
    | EmptyString => Err (arg_error t ("ignored explicit argument " +:+ py_repr_str e))
    end
  else if nargs t =? 1 then Ok (acc ++ [(t, [e])], false)
  else Err (arg_error t ("ignored explicit argument " +:+ py_repr_str e)).

Definition add_extra (a : string) (st : PState) : PState :=
  mkPState (ns st) (seen st) (extras st ++ [a]).

(** The loop of [_parse_known_args] for a parser without positionals:
    an option consumes itself and its argument; any other argument (a
    value no option took, [--], an unknown option) is an extra. *)
Fixpoint consume (tbl : list (string * Target)) (items : list (string * Pat)) (st : PState)
    : res PState :=
  match items with
  | [] => Ok st
  | (a, PO (Some t) os ex) :: rest =>
      match match ex with
            | Some e => take_explicit tbl t os e rest []
            | None => take_next t rest []
            end with
      | Err e => Err e
      | Ok (ts, took) =>
          match take_all ts st with
          | Err e => Err e
          | Ok st' =>
              if took then match rest with _ :: rest' => consume tbl rest' st' | [] => Ok st' end
              else consume tbl rest st'
          end
      end
  | (a, _) :: rest => consume tbl rest (add_extra a st)
  end.

(** After the loop: the required options not seen, and the [str]
    defaults of the others, converted by their [type]. *)
Fixpoint finish_args (acts : list Action) (st : PState) (missing : list string)
    : res (PState * list string) :=
  match acts with
  | [] => Ok (st, missing)
  | a :: acts' =>
      if bool_decide (dest a ∈ seen st) then finish_args acts' st missing
      else if required a then finish_args acts' st (missing ++ [action_name (TAct a)])
      else match default a with
           | PyStr s => v ← convert a s; finish_args acts' (mkPState (ns_set (dest a) v (ns st)) (seen st) (extras st)) missing
           | _ => finish_args acts' st missing
           end
  end.

Definition init_state (p : list Action) : PState :=
  mkPState (map (λ a, (dest a, default a)) p) [] [].

(** [parser.parse_args(argv)]. *)
Definition parse_args (p : list Action) (argv : list string) : res Namespace :=
  pats ← classify p argv;
  st ← consume (option_table p) (zip argv pats) (init_state p);
  '(st', missing) ← finish_args p st [];
  if bool_decide (missing ≠ []) then
    Err (SystemExit 2 ("the following arguments are required: " +:+ str_join ", " missing))
  else if bool_decide (extras st' ≠ []) then
    Err (SystemExit 2 ("unrecognized arguments: " +:+ str_join " " (extras st')))
  else Ok (ns st').

(** ** Lemmas on [--flag=value] arguments *)

Lemma is_in_app c a b : is_in c (a +:+ b) = is_in c a || is_in c b.
Proof. induction a as [|d a IH]; simpl; [done|]. by rewrite IH, orb_assoc. Qed.

Lemma eqb_is_in c s1 s2 : is_in c s1 = true → is_in c s2 = false → String.eqb s1 s2 = false.
Proof. intros H1 H2. destruct (String.eqb_spec s1 s2) as [->|]; [congruence|done]. Qed.

Lemma split_at_app c a b : is_in c a = false → split_at c (a +:+ String c b) = Some (a, b).
Proof.
  induction a as [|d a IH]; simpl; [by rewrite Ascii.eqb_refl|].
  intros [Hd Ha]%orb_false_iff. rewrite Ascii.eqb_sym, Hd, IH by done. done.
Qed.

Lemma assoc_str_None {A} k (l : list (string * A)) :
  Forall (λ '(k', _), String.eqb k k' = false) l → assoc_str k l = None.
Proof. induction 1 as [|[k' a] l Hk _ IH]; simpl; [done|]. by rewrite Hk. Qed.

(** The flags an [=value] argument can name: they start with a dash,
    have a second character, and hold no ['=']. *)
Definition flag_ok (f : string) : bool :=
  match f with String c (String _ _) => Ascii.eqb c "-" && negb (is_in "=" f) | _ => false end.

Definition eq_arg (f v : string) : string := f +:+ "=" +:+ v.

Lemma is_in_eq_arg f v : is_in "=" (eq_arg f v) = true.
Proof. unfold eq_arg. rewrite is_in_app, str_app_cons. simpl. by rewrite orb_true_r. Qed.

(** [--flag=value] names the option [--flag] with the argument [value],
    whatever [value] holds. *)
Lemma parse_optional_eq p t f v :
  flag_ok f = true → Forall (λ '(o, _), is_in "=" o = false) (option_table p) →
  assoc_str f (option_table p) = Some t →
  parse_optional p (eq_arg f v) = Ok (COpt (Some t) f (Some v)).
Proof.
  intros Hf Htbl Ht.
  assert (Hnone : assoc_str (eq_arg f v) (option_table p) = None).
  { apply assoc_str_None. eapply Forall_impl; [exact Htbl|]. intros [o x] Ho.
    apply (eqb_is_in "="); [apply is_in_eq_arg|done]. }
  unfold flag_ok in Hf. destruct f as [|c [|c2 r]]; try discriminate.
  apply andb_true_iff in Hf as [Hc Hnoeq%negb_true_iff]. apply Ascii.eqb_eq in Hc as ->.
  unfold parse_optional. unfold eq_arg in Hnone |- *. rewrite str_app_cons in Hnone |- *.
  cbn [Ascii.eqb negb]. rewrite Hnone. rewrite str_app_cons. cbn [String.eqb].
  rewrite <- !str_app_cons. change ("=" +:+ v) with (String "=" v). rewrite (split_at_app "=" _ v Hnoeq). cbv beta iota. rewrite Ht. reflexivity.
Qed.

(** A list of [--flag=value] arguments is classified as those options. *)
Lemma classify_eq p (l : list (Action * string * string)) :
  Forall (λ '(o, _), is_in "=" o = false) (option_table p) →
  Forall (λ '(a, f, _), flag_ok f = true ∧ assoc_str f (option_table p) = Some (TAct a)) l →
  classify p (map (λ '(a, f, v), eq_arg f v) l)
  = Ok (map (λ '(a, f, v), PO (Some (TAct a)) f (Some v)) l).
Proof.
  intros Htbl. induction 1 as [|[[a f] v] l [Hf Ht] _ IH]; [done|]. simpl.
  assert (Hne : String.eqb (eq_arg f v) "--" = false) by (apply (eqb_is_in "="); [apply is_in_eq_arg|done]).
  by rewrite Hne, (parse_optional_eq p (TAct a) f v Hf Htbl Ht), IH.
Qed.

Lemma zip_map_same {A B C} (g : A → B) (h : A → C) (l : list A) :
  zip (map g l) (map h l) = map (λ x, (g x, h x)) l.
Proof. induction l as [|x l IH]; simpl; [done|]. by rewrite IH. Qed.

(** One store action given by [--flag=value]. *)
Lemma consume_store tbl a f v rest st :
  consume tbl ((eq_arg f v, PO (Some (TAct a)) f (Some v)) :: rest) st
  = (st' ← take_action (TAct a) [v] st; consume tbl rest st').
Proof.
  assert (Hx : take_explicit tbl (TAct a) f v rest [] = Ok ([(TAct a, [v])], false))
    by (destruct v; reflexivity).
  cbn -[take_action take_explicit]. rewrite Hx. cbn -[take_action].
  by destruct (take_action (TAct a) [v] st).
Qed.

(** Store actions given by [--flag=value] are taken in order. *)
Lemma consume_eq tbl (l : list (Action * string * string)) st :
  consume tbl (map (λ '(a, f, v), (eq_arg f v, PO (Some (TAct a)) f (Some v))) l) st
  = take_all (map (λ '(a, f, v), (TAct a, [v])) l) st.
Proof.
  revert st. induction l as [|[[a f] v] l IH]; intros st; [done|].
  cbn [map]. rewrite consume_store. cbn -[take_action].
  destruct (take_action (TAct a) [v] st); [apply IH|done].
Qed.

(** A command line of [--flag=value] arguments is the sequence of the
    actions it names, whatever the values hold. *)
Lemma parse_args_eq p (l : list (Action * string * string)) :
  Forall (λ '(o, _), is_in "=" o = false) (option_table p) →
  Forall (λ '(a, f, _), flag_ok f = true ∧ assoc_str f (option_table p) = Some (TAct a)) l →
  parse_args p (map (λ '(a, f, v), eq_arg f v) l)
  = (st ← take_all (map (λ '(a, f, v), (TAct a, [v])) l) (init_state p);
     '(st', missing) ← finish_args p st [];
     if bool_decide (missing ≠ []) then
       Err (SystemExit 2 ("the following arguments are required: " +:+ str_join ", " missing))
     else if bool_decide (extras st' ≠ []) then
       Err (SystemExit 2 ("unrecognized arguments: " +:+ str_join " " (extras st')))
     else Ok (ns st')).
Proof.
  intros Htbl Hl. unfold parse_args. rewrite (classify_eq p l Htbl Hl). simpl.
  rewrite (zip_map_same (λ '(a, f, v), eq_arg f v) (λ '(a, f, v), PO (Some (TAct a)) f (Some v))).
  rewrite <- (consume_eq (option_table p)). do 2 f_equal. apply map_ext. by intros [[a f] v].
Qed.

(** ** Namespaces hold values of their options' types *)

(** [v] has the [type] of [a]. *)
Definition typed (a : Action) (v : PyVal) : bool :=
  match atype a, v with TStr, PyStr _ | TInt, PyInt _ => true | _, _ => false end.

Lemma convert_typed a s v : convert a s = Ok v → typed a v = true.
Proof. unfold convert. destruct (atype a) eqn:Ht; [|destruct (py_int s)]; intros [= <-]; unfold typed; by rewrite Ht. Qed.

(** A value a store action leaves in the namespace: one of its type, or
    the [[]] of a ['--'] argument. *)
Definition stored (a : Action) (v : PyVal) : bool := typed a v || bool_decide (v = PyNil).

Lemma get_values_convert a s : s ≠ "--" → get_values a s = convert a s.
Proof. intros Hs. unfold get_values. by rewrite (proj2 (String.eqb_neq _ _) Hs). Qed.

(** The value a [str] option stores for the argument [s]. *)
Definition str_value (s : string) : PyVal := if String.eqb s "--" then PyNil else PyStr s.

Lemma get_values_str a s : atype a = TStr → get_values a s = Ok (str_value s).
Proof. intros Ht. unfold get_values, str_value, convert. rewrite Ht. by destruct (String.eqb s "--"). Qed.

Lemma typed_stored a v : typed a v = true → stored a v = true.
Proof. unfold stored. by intros ->. Qed.

Lemma get_values_stored a s v : get_values a s = Ok v → stored a v = true.
Proof.
  unfold get_values. destruct (String.eqb s "--").
  - intros [= <-]. unfold stored. by rewrite orb_true_r.
  - intros Hc. apply typed_stored. by eapply convert_typed.
Qed.

Lemma assoc_ns_set_eq k v n : assoc_str k (ns_set k v n) = Some v.
Proof.
  induction n as [|[k' v'] n IH]; simpl; [by rewrite String.eqb_refl|].
  destruct (String.eqb_spec k k') as [->|]; simpl; rewrite ?String.eqb_refl; [done|].
  rewrite (proj2 (String.eqb_neq _ _)) by done. exact IH.
Qed.

Lemma assoc_ns_set_ne k k' v n : k ≠ k' → assoc_str k' (ns_set k v n) = assoc_str k' n.
Proof.
  intros Hne. induction n as [|[k'' v'] n IH]; simpl.
  - by rewrite (proj2 (String.eqb_neq _ _)) by congruence.
  - destruct (String.eqb_spec k k'') as [->|]; simpl.
    + by rewrite (proj2 (String.eqb_neq k' k'')) by congruence.
    + destruct (String.eqb k' k''); [done|exact IH].
Qed.

Lemma assoc_str_in {A} k (l : list (string * A)) x : assoc_str k l = Some x → x ∈ map snd l.
Proof.
  induction l as [|[k' y] l IH]; simpl; [done|].
  destruct (String.eqb k k'); [intros [= ->]; left|right; auto].
Qed.

Lemma option_tuples_in tbl s t o e : (t, o, e) ∈ option_tuples tbl s → t ∈ map snd tbl.
Proof.
  rewrite !list_elem_of_In. unfold option_tuples. destruct s as [|c [|c2 r]]; [intros []..|].
  destruct (Ascii.eqb c2 "-").
  - destruct (split_at "=" _) as [[??]|]; intros ([o' t'] & Heq & Hin)%in_map_iff;
      apply filter_In in Hin as [Hin _]; simplify_eq; apply in_map_iff; by exists (o, t).
  - intros ([o' t'] & Hin & Hx)%in_flat_map. apply in_map_iff. exists (o', t'). split; [|done].
    destruct (String.eqb o' _); [|destruct (String.prefix _ _)]; simpl in Hx; try contradiction;
      destruct Hx as [Hx|[]]; by simplify_eq.
Qed.

(** The targets the table of [p] names: [--help] and the actions of [p]. *)
Definition target_ok (p : list Action) (t : Target) : Prop :=
  match t with THelp => True | TAct a => a ∈ p end.

Lemma option_table_targets p t : t ∈ map snd (option_table p) → target_ok p t.
Proof.
  rewrite list_elem_of_In. unfold option_table. rewrite map_app, in_app_iff. intros [Hh|Hin].
  - simpl in Hh. by destruct Hh as [<-|[<-|[]]].
  - apply in_map_iff in Hin as ([o t'] & <- & Hin).
    apply in_flat_map in Hin as (a & Ha & Hin).
    apply in_map_iff in Hin as (o' & Heq & _). simplify_eq. simpl. by apply list_elem_of_In.
Qed.

Lemma NoDup_map_eq {A B} (f : A → B) l x y :
  NoDup (map f l) → x ∈ l → y ∈ l → f x = f y → x = y.
Proof.
  induction l as [|z l IH]; intros Hnd Hx Hy Hf; [by apply elem_of_nil in Hx|].
  simpl in Hnd. apply NoDup_cons in Hnd as [Hz Hnd].
  apply elem_of_cons in Hx as [->|Hx], Hy as [->|Hy]; [done| | |by apply IH].
  - exfalso. apply Hz. rewrite Hf. apply list_elem_of_In, in_map, list_elem_of_In, Hy.
  - exfalso. apply Hz. rewrite <- Hf. apply list_elem_of_In, in_map, list_elem_of_In, Hx.
Qed.

Lemma NoDup_map_1 {A B} (f : A → B) l : NoDup (map f l) → NoDup l.
Proof.
  induction l as [|x l IH]; simpl; [constructor|]. rewrite !NoDup_cons. intros [Hx Hl].
  split; [|by apply IH]. intros Hin. apply Hx, list_elem_of_In, in_map, list_elem_of_In, Hin.
Qed.

Section Typed.
Context (p : list Action).
Hypothesis Hnd : NoDup (map dest p).

(** While the arguments are consumed, every action's destination holds
    a value of its type, or its default if the action was not taken. *)
Definition st_inv (st : PState) : Prop :=
  ∀ a, a ∈ p → ∃ v, assoc_str (dest a) (ns st) = Some v ∧
                    (stored a v = true ∨ (v = default a ∧ dest a ∉ seen st)).

Lemma assoc_init q a :
  NoDup (map dest q) → a ∈ q → assoc_str (dest a) (map (λ a, (dest a, default a)) q) = Some (default a).
Proof.
  intros Hq Ha. induction q as [|b q IH]; [by apply elem_of_nil in Ha|]. simpl in *.
  apply NoDup_cons in Hq as [Hb Hq]. destruct (String.eqb_spec (dest a) (dest b)) as [He|Hne].
  - apply elem_of_cons in Ha as [->|Ha]; [done|].
    exfalso. apply Hb. rewrite <- He. apply list_elem_of_In, in_map, list_elem_of_In, Ha.
  - apply IH; [done|]. apply elem_of_cons in Ha as [->|Ha]; [done|exact Ha].
Qed.

Lemma init_inv : st_inv (init_state p).
Proof. intros a Ha. exists (default a). split; [by apply assoc_init|]. right. split; [done|apply not_elem_of_nil]. Qed.

Lemma take_action_inv t args st st' :
  target_ok p t → st_inv st → take_action t args st = Ok st' → st_inv st'.
Proof.
  intros Ht Hinv. destruct t as [|a]; [done|]. destruct args as [|s [|? ?]]; try discriminate. simpl.
  destruct (get_values a s) as [v|e] eqn:Hc; [|discriminate]. intros [= <-] a' Ha'. simpl.
  destruct (decide (dest a = dest a')) as [He|Hne].
  - assert (a = a') as <- by exact (NoDup_map_eq dest p a a' Hnd Ht Ha' He).
    exists v. rewrite assoc_ns_set_eq. split; [done|]. left. by eapply get_values_stored.
  - destruct (Hinv a' Ha') as (v' & Hv' & Hty). exists v'. rewrite assoc_ns_set_ne by done.
    split; [done|]. destruct Hty as [?|[? Hs]]; [by left|right]. split; [done|].
    rewrite elem_of_cons. intros [?|?]; [congruence|done].
Qed.

Lemma take_all_inv ts st st' :
  Forall (λ x, target_ok p x.1) ts → st_inv st → take_all ts st = Ok st' → st_inv st'.
Proof.
  revert st. induction ts as [|[t args] ts IH]; intros st Hts Hinv; simpl; [by intros [= <-]|].
  apply Forall_cons in Hts as [Ht Hts].
  destruct (take_action t args st) as [st1|e] eqn:Ha; simpl; [|discriminate].
  apply IH; [done|]. by eapply take_action_inv.
Qed.

(** The options the arguments name are the parser's. *)
Definition pat_ok (pt : Pat) : Prop :=
  match pt with PO (Some t) _ _ => target_ok p t | _ => True end.

Lemma parse_optional_target s t o e :
  parse_optional p s = Ok (COpt (Some t) o e) → target_ok p t.
Proof.
  intros H. apply option_table_targets. unfold parse_optional in H. cbv zeta in H.
  destruct s as [|c r]; [done|].
  destruct (negb (Ascii.eqb c "-")); [done|].
  destruct (assoc_str (String c r) (option_table p)) eqn:Ha; [injection H as <- _ _; by eapply assoc_str_in|].
  destruct (String.eqb r ""); [done|].
  destruct (split_at "=" (String c r)) as [[o1 e1]|].
  - destruct (assoc_str o1 (option_table p)) as [t1|] eqn:Ha1; cbv [fmap option_fmap option_map] in H.
    + injection H as <- _ _. by eapply assoc_str_in.
    + destruct (option_tuples _ _) as [|[[t2 o2] e2] [|? ?]] eqn:Ho; try discriminate.
      * destruct (_ && _); [done|]. by destruct (is_in _ _).
      * injection H as <- _ _. apply (option_tuples_in _ (String c r) _ o2 e2). rewrite Ho. left.
  - destruct (option_tuples _ _) as [|[[t2 o2] e2] [|? ?]] eqn:Ho; try discriminate.
    + destruct (_ && _); [done|]. by destruct (is_in _ _).
    + injection H as <- _ _. apply (option_tuples_in _ (String c r) _ o2 e2). rewrite Ho. left.
Qed.

Lemma classify_targets args pats : classify p args = Ok pats → Forall pat_ok pats.
Proof.
  revert pats. induction args as [|a args IH]; intros pats; simpl; [by intros [= <-]|].
  destruct (String.eqb a "--").
  - intros [= <-]. constructor; [done|]. apply Forall_fmap, Forall_true. done.
  - destruct (parse_optional p a) as [c|e] eqn:Hc; simpl; [|discriminate].
    destruct (classify p args) as [ps|e]; simpl; [|discriminate]. intros [= <-].
    constructor; [|by apply IH]. destruct c as [|[t|] o e]; simpl; try done.
    by eapply parse_optional_target.
Qed.

Lemma take_next_targets t rest acc ts b :
  Forall (λ x, target_ok p x.1) acc → target_ok p t →
  take_next t rest acc = Ok (ts, b) → Forall (λ x, target_ok p x.1) ts.
Proof.
  intros Hacc Ht. unfold take_next.
  repeat case_match; intros; simplify_eq; apply Forall_app; (split; [done|by apply Forall_singleton]).
Qed.

Lemma take_explicit_targets t os e rest acc ts b :
  Forall (λ x, target_ok p x.1) acc → target_ok p t →
  take_explicit (option_table p) t os e rest acc = Ok (ts, b) → Forall (λ x, target_ok p x.1) ts.
Proof.
  revert t os acc. induction e as [|c e IH]; intros t os acc Hacc Ht H; cbn -[option_table assoc_str nargs] in H.
  - destruct (_ && _ && _); [discriminate H|]. destruct (nargs t =? 1); [|discriminate H].
    injection H as <- _. apply Forall_app. split; [done|by apply Forall_singleton].
  - destruct (_ && _ && _).
    + cbv zeta in H. destruct (assoc_str (String "-" (String c "")) (option_table p)) as [t'|] eqn:Ha; [|discriminate H].
      assert (Ht' : target_ok p t') by (apply option_table_targets; by eapply assoc_str_in).
      assert (Hacc' : Forall (λ x, target_ok p x.1) (acc ++ [(t, [])]))
        by (apply Forall_app; split; [done|by apply Forall_singleton]).
      destruct (String.eqb e ""); [by eapply take_next_targets|by eapply IH].
    + destruct (nargs t =? 1); [|discriminate H].
      injection H as <- _. apply Forall_app. split; [done|by apply Forall_singleton].
Qed.

Lemma consume_inv n items st st' :
  length items ≤ n → Forall (λ x, pat_ok x.2) items → st_inv st →
  consume (option_table p) items st = Ok st' → st_inv st'.
Proof.
  revert items st. induction n as [|n IH]; intros items st Hlen Hok Hinv.
  { destruct items; [by intros [= <-]|simpl in Hlen; lia]. }
  destruct items as [|[a pt] rest]; [by intros [= <-]|]. simpl in Hlen.
  apply Forall_cons in Hok as [Hpt Hok]. simpl.
  destruct pt as [| |[t|] os ex]; try (apply IH; [lia|done|done]).
  destruct (match ex with Some e => _ | None => _ end) as [[ts took]|e] eqn:Hx; [|discriminate].
  assert (Hts : Forall (λ x, target_ok p x.1) ts).
  { destruct ex; [eapply take_explicit_targets|eapply take_next_targets]; try exact Hx; done. }
  destruct (take_all ts st) as [st1|e] eqn:Ha; [|discriminate].
  pose proof (take_all_inv _ _ _ Hts Hinv Ha) as Hinv1.
  destruct took; [destruct rest as [|x rest']; [by intros [= <-]|]|].
  - apply Forall_cons in Hok as [_ Hok]. apply IH; [simpl in Hlen; lia|done|done].
  - apply IH; [lia|done|done].
Qed.

(** After the loop, every action that was not taken holds its default,
    and a required one is reported in [missing]. *)
Definition fin_inv (acts : list Action) (st : PState) (missing : list string) : Prop :=
  ∀ a, a ∈ p → ∃ v, assoc_str (dest a) (ns st) = Some v ∧
    (stored a v = true ∨
     (v = default a ∧ dest a ∉ seen st ∧
      (a ∉ acts → required a = true → action_name (TAct a) ∈ missing))).

Lemma st_fin_inv st missing : st_inv st → fin_inv p st missing.
Proof.
  intros Hinv a Ha. destruct (Hinv a Ha) as (v & Hv & Hty). exists v. split; [done|].
  destruct Hty as [?|[? ?]]; [by left|right]. repeat split; [done|done|]. intros []. done.
Qed.

(** Setting [a] to a value of its type keeps the invariant. *)
Lemma fin_inv_set a v acts st missing :
  a ∈ p → stored a v = true → fin_inv acts st missing →
  fin_inv acts (mkPState (ns_set (dest a) v (ns st)) (seen st) (extras st)) missing.
Proof.
  intros Ha Hv Hinv b Hb. simpl. destruct (decide (dest a = dest b)) as [He|Hne].
  - assert (a = b) as <- by exact (NoDup_map_eq dest p a b Hnd Ha Hb He).
    exists v. rewrite assoc_ns_set_eq. by split; [|left].
  - rewrite assoc_ns_set_ne by done. apply Hinv, Hb.
Qed.

(** Passing [a]: it was taken, or it is optional, or it is reported. *)
Lemma fin_inv_step a acts st missing missing' :
  a ∉ acts → (∀ x, x ∈ missing → x ∈ missing') →
  (dest a ∈ seen st ∨ required a = false ∨ action_name (TAct a) ∈ missing') →
  fin_inv (a :: acts) st missing → fin_inv acts st missing'.
Proof.
  intros Hna Hsub Ha Hinv b Hb. destruct (Hinv b Hb) as (v & Hv & Hty). exists v.
  split; [done|]. destruct Hty as [?|(? & Hns & Hm)]; [by left|right]. repeat split; [done..|].
  intros Hb' Hr. destruct (decide (b = a)) as [->|Hne].
  - destruct Ha as [?|[Hr'|?]]; [done|congruence|done].
  - apply Hsub, Hm; [|done]. by intros [?|?]%elem_of_cons.
Qed.

Lemma finish_inv acts st missing st' missing' :
  Forall (λ a, a ∈ p) acts → NoDup acts → fin_inv acts st missing →
  finish_args acts st missing = Ok (st', missing') →
  fin_inv [] st' missing' ∧ seen st' = seen st.
Proof.
  revert st missing. induction acts as [|a acts IH]; intros st missing Hp Hnda Hinv; simpl.
  { by intros [= <- <-]. }
  apply Forall_cons in Hp as [Ha Hp]. apply NoDup_cons in Hnda as [Hna Hnda].
  case_bool_decide as Hs; [|destruct (required a) eqn:Hr; [|destruct (default a) as [|s|z|]]].
  - apply IH; [done..|]. eapply fin_inv_step; eauto.
  - apply IH; [done..|]. eapply fin_inv_step; [done| |by right; right; set_solver|done]. set_solver.
  - apply IH; [done..|]. eapply fin_inv_step; eauto.
  - destruct (convert a s) as [v|e] eqn:Hc; simpl; [|discriminate]. intros Hf.
    refine (IH _ _ Hp Hnda _ Hf).
    eapply fin_inv_set; [done|by eapply typed_stored, convert_typed|].
    eapply fin_inv_step; [done|done|by right; left|done].
  - apply IH; [done..|]. eapply fin_inv_step; eauto.
  - apply IH; [done..|]. eapply fin_inv_step; eauto.
Qed.

Lemma Forall_zip_snd {A B} (P : B → Prop) (l1 : list A) l2 :
  Forall P l2 → Forall (λ x, P x.2) (zip l1 l2).
Proof.
  revert l2. induction l1 as [|x l1 IH]; intros [|y l2] Hl; simpl; try constructor.
  - by apply Forall_cons in Hl as [? _].
  - apply IH. by apply Forall_cons in Hl as [_ ?].
Qed.

(** [parse_args] returns a namespace in which every action's
    destination holds a value of its [type] or the [[]] of a ['--']
    argument, or the default of an optional action that was not given. *)
Lemma parse_args_typed_ns argv n :
  parse_args p argv = Ok n →
  ∀ a, a ∈ p → ∃ v, assoc_str (dest a) n = Some v ∧
                    (stored a v = true ∨ (required a = false ∧ v = default a)).
Proof.
  unfold parse_args. destruct (classify p argv) as [pats|] eqn:Hc; simpl; [|discriminate].
  destruct (consume _ _ _) as [st|] eqn:Hs; simpl; [|discriminate].
  destruct (finish_args p st []) as [[st' missing]|] eqn:Hf; simpl; [|discriminate].
  case_bool_decide as Hm; [discriminate|]. case_bool_decide; [discriminate|]. intros [= <-] a Ha.
  destruct missing as [|x ?]; [|by exfalso].
  pose proof (consume_inv _ _ _ _ (reflexivity _) (Forall_zip_snd _ argv _ (classify_targets _ _ Hc))
                init_inv Hs) as Hinv.
  destruct (finish_inv p st [] st' [] (proj2 (Forall_forall _ _) (λ a Ha, Ha))
              (NoDup_map_1 _ _ Hnd) (st_fin_inv _ _ Hinv) Hf) as [Hfin _].
  destruct (Hfin a Ha) as (v & Hv & [Ht|(Hd & _ & Hreq)]); exists v; [by split; [|left]|].
  split; [done|right]. split; [|done].
  destruct (required a); [|done]. exfalso. exact (not_elem_of_nil _ (Hreq (not_elem_of_nil _) eq_refl)).
Qed.

End Typed.


(** *** [int(str(z)) = z] *)

(** The value of decimal digits, most significant first, from [acc]. *)
Fixpoint uint_horner (u : Decimal.uint) (acc : Z) : Z :=
  match u with
  | Decimal.Nil => acc
  | Decimal.D0 u => uint_horner u (acc * 10 + 0) | Decimal.D1 u => uint_horner u (acc * 10 + 1)
  | Decimal.D2 u => uint_horner u (acc * 10 + 2) | Decimal.D3 u => uint_horner u (acc * 10 + 3)
  | Decimal.D4 u => uint_horner u (acc * 10 + 4) | Decimal.D5 u => uint_horner u (acc * 10 + 5)
  | Decimal.D6 u => uint_horner u (acc * 10 + 6) | Decimal.D7 u => uint_horner u (acc * 10 + 7)
  | Decimal.D8 u => uint_horner u (acc * 10 + 8) | Decimal.D9 u => uint_horner u (acc * 10 + 9)
  end.

Lemma digits_go_uint u acc n :
  digits_go (NilEmpty.string_of_uint u) acc n
  = Some (uint_horner u acc, n + String.length (NilEmpty.string_of_uint u)).
Proof.
  revert acc n. induction u; intros acc n; simpl; rewrite ?IHu; (by rewrite Nat.add_0_r) || (do 2 f_equal; lia).
Qed.

Lemma uint_horner_pos u acc : uint_horner u (Zpos acc) = Zpos (Pos.of_uint_acc u acc).
Proof. revert acc. induction u; intros acc; simpl; rewrite <- ?IHu; done || (f_equal; lia). Qed.

Lemma of_uint_horner u : Z.of_uint u = uint_horner u 0.
Proof.
  unfold Z.of_uint. induction u; simpl; [done|exact IHu|..]; by rewrite <- uint_horner_pos.
Qed.

Lemma rstrip_uint u : rstrip (NilEmpty.string_of_uint u) = NilEmpty.string_of_uint u.
Proof. induction u; simpl; rewrite ?IHu; done. Qed.

(** [int()] reads back the digits [str()] prints, with or without a
    minus sign, up to the digit limit, and raises beyond it. *)
Lemma py_int_uint (neg : bool) u :
  u ≠ Decimal.Nil →
  py_int (if neg then String "-" (NilEmpty.string_of_uint u) else NilEmpty.string_of_uint u)
  = if String.length (NilEmpty.string_of_uint u) <=? max_str_digits
    then Some (if neg then (- Z.of_uint u)%Z else Z.of_uint u) else None.
Proof.
  intros Hu. rewrite of_uint_horner. unfold py_int.
  destruct u; [done| ..]; destruct neg; simpl; rewrite rstrip_uint, ?digits_go_uint; simpl;
    rewrite ?rstrip_uint, ?digits_go_uint; simpl;
    match goal with
    | |- (if ?a <? ?b then _ else _) = (if ?c <=? ?d then _ else _) =>
        destruct (Nat.ltb_spec a b), (Nat.leb_spec c d)
    end; cbn [String.length] in *; unfold max_str_digits in *; done || lia.
Qed.

Lemma to_int_nonnil z : Z.to_int z ≠ Decimal.Pos Decimal.Nil ∧ Z.to_int z ≠ Decimal.Neg Decimal.Nil.
Proof.
  destruct z as [|p|p]; simpl; split; try done;
    intros [= H]; by apply (Unsigned.to_uint_nonnil p).
Qed.

(** [str()] of an [int] is never ['--']. *)
Lemma py_str_int_not_dd z : py_str_int z ≠ "--".
Proof.
  unfold py_str_int, NilEmpty.string_of_int. destruct (Z.to_int z) as [u|u]; destruct u; simpl; discriminate.
Qed.

(** The digits [str()] prints for [|z|]. *)
Definition py_digits (z : Z) : nat := String.length (py_str_int (Z.abs z)).

(** [int(str(z))] is [z] up to the digit limit, and raises beyond it. *)
Lemma py_int_py_str_int z :
  py_int (py_str_int z) = if py_digits z <=? max_str_digits then Some z else None.
Proof.
  destruct z as [|p|p]; [reflexivity| |];
    pose proof (Unsigned.to_uint_nonnil p) as Hu;
    assert (Hp : Z.of_uint (Pos.to_uint p) = Zpos p) by (unfold Z.of_uint; by rewrite Unsigned.of_to).
  - pose proof (py_int_uint false _ Hu) as H. rewrite Hp in H. exact H.
  - pose proof (py_int_uint true _ Hu) as H. rewrite Hp in H. exact H.
Qed.

(** [int(str(z)) == z] holds exactly for the ints of at most 4300
    digits: the digits Python prints read back as the same int, and
    beyond CPython's conversion limit [int()] raises [ValueError]. *)
Theorem py_int_str z : py_int (py_str_int z) = Some z ↔ py_digits z ≤ max_str_digits.
Proof.
  rewrite py_int_py_str_int. destruct (Nat.leb_spec (py_digits z) max_str_digits); split;
    done || lia.
Qed.

(** ** Errors and values that start with a dash *)

(** Every error of the classification is [parser.error]'s exit 2. *)
Lemma parse_optional_err p s e : parse_optional p s = Err e → ∃ m, e = SystemExit 2 m.
Proof. unfold parse_optional. repeat case_match; intros; simplify_eq; eauto. Qed.

Lemma classify_err p args e : classify p args = Err e → ∃ m, e = SystemExit 2 m.
Proof.
  induction args as [|a args IH]; simpl; [done|]. destruct (String.eqb a "--"); [done|].
  destruct (parse_optional p a) eqn:Hc; simpl; [|intros [= <-]; by eapply parse_optional_err].
  destruct (classify p args); simpl; [done|]. intros [= <-]. by apply IH.
Qed.

(** An argument that does not start with a dash is a value. *)
Lemma parse_optional_pos p s : (∀ r, s ≠ String "-" r) → parse_optional p s = Ok CPos.
Proof.
  intros Hs. destruct s as [|c r]; [done|]. unfold parse_optional.
  destruct (Ascii.eqb_spec c "-") as [->|]; [by destruct (Hs r)|done].
Qed.

(** An argument that starts with a dash, is longer than one character,
    is no negative number and holds no space is an option (known or
    not), or an ambiguous one. *)
Lemma parse_optional_dash p r :
  r ≠ "" → is_negnum (String "-" r) = false → is_in " " (String "-" r) = false →
  parse_optional p (String "-" r) ≠ Ok CPos.
Proof.
  intros Hr Hn Hsp. unfold parse_optional. cbn [negb Ascii.eqb Bool.eqb].
  rewrite (proj2 (String.eqb_neq r "") Hr), Hn, Hsp. repeat case_match; done.
Qed.

Lemma classify_cons p a rest :
  String.eqb a "--" = false →
  classify p (a :: rest) =
    c ← parse_optional p a; ps ← classify p rest;
    Ok (match c with CPos => PA | COpt t os e => PO t os e end :: ps).
Proof. simpl. by intros ->. Qed.
