(* ===== verification/Ingest.v ===== *)
(** * Ingest: the chunked CSV-to-PostgreSQL loader (src/M01_Homework/ingest_data.py)

    [ingest] (lines 36-63) opens the file as a chunked reader, normalises
    the first chunk, re-creates the destination table from its columns
    ([head(0).to_sql(if_exists="replace")]), appends it, then appends
    every further chunk in order, printing a progress line per chunk and a
    summary.  [main] (lines 80-86) runs it inside [engine.begin()], one
    transaction for the whole run.

    The abstract specification is [load_all]: read the whole file as one
    frame, normalise it and write it in one statement.  The refinement
    theorem [ingest_refines] shows that the chunked loop computes exactly
    that table, for every chunk size: rows are conserved and in order, the
    columns are the header's, the timestamp columns are converted, and the
    loop fails on exactly the files the one-shot load fails on.  [main]
    is atomic: on failure nothing of the run is committed. *)

From S2P Require Import Prelude Frame Reader Sink Runtime EngineUrl.

(** ** The abstract specification: one-shot loading *)

Section Spec.
Context `{DatetimeParser}.

(** The columns of the table [to_sql] creates from a frame with columns
    [hdr], with or without the index column. *)
Definition table_cols (with_index : bool) (hdr : list string) : list string :=
  (if with_index then ["index"] else []) ++ hdr.

(** The rows the records [recs], numbered from row [start] of the file,
    become: every record fits the header, the frame of all of them is
    normalised, and its rows are written, with the index or without. *)
Definition load_rows_at (with_index : bool) (hdr : list string) (start : nat)
    (recs : list (list string)) : res (list (list Cell)) :=
  if forallb (record_fits hdr) recs then
    df ← to_datetime (frame_of hdr start recs) DATETIME_COLS;
    Ok (sql_rows with_index df)
  else raise (ParserError "Error tokenizing data: too many fields").

(** Without the index, as the current loader writes. *)
Definition load_rows (hdr : list string) (recs : list (list string)) : res (list (list Cell)) :=
  load_rows_at false hdr 0 recs.

(** The table the whole file should become. *)
Definition load_all_at (with_index : bool) (f : CsvFile) : res Table :=
  if bool_decide (header f = []) then raise EmptyDataError
  else rows ← load_rows_at with_index (header f) 0 (records f);
       Ok (mkTable (table_cols with_index (header f)) rows).

Definition load_all (f : CsvFile) : res Table := load_all_at false f.

(** A record the one-shot load accepts: it fits the header, and each of
    its fields under a timestamp column is missing or parses. *)
Definition record_loads (hdr : list string) (rec : list string) : bool :=
  record_fits hdr rec &&
  forallb (λ j, negb (bool_decide (nth j hdr "" ∈ DATETIME_COLS)) ||
                cell_parses (field_cell (nth j rec "")))
          (seq 0 (length hdr)).

Lemma table_cols_NoDup b hdr : NoDup (table_cols b hdr) → NoDup hdr.
Proof. destruct b; simpl; [by inversion 1|done]. Qed.
End Spec.

(** ** The command line

    The namespace [parse_args()] returns (lines 67-77); [chunksize]
    defaults to 100000.  Parsing itself is argparse's. *)
Module Cli.
Record Args : Type := mkArgs {
  user : string; password : string; host : string; port : Z;
  database : string; table : string; csv_url : string; chunksize : Z
}.
End Cli.

(** ** The loader *)

Section Loader.
Context `{DatetimeParser}.

(** [for i, chunk in enumerate(stream, start=2): ...] (lines 54-61).
    The loop ends when [next] raises [StopIteration]; [fuel] bounds the
    number of iterations and [ingest] gives it [reader_measure stream],
    which [ingest_loop_total] shows is enough. *)
Fixpoint ingest_loop (fuel : nat) (table : string) (eng : Conn) (i : nat)
    (stream : TextFileReader) (rows : nat) : Proc nat :=
  match fuel with
  | 0 => mret rows
  | S fuel' => λ w,
      match next_chunk stream with
      | Err StopIteration => (w, Ok rows)
      | Err e => (w, Err e)
      | Ok (chunk, stream') =>
          (chunk' ← lift (to_datetime chunk DATETIME_COLS);
           exec eng (to_sql chunk' table IfAppend false);;
           let rows' := rows + len chunk' in
           print (ChunkLine i (len chunk') rows');;
           ingest_loop fuel' table eng (S i) stream' rows') w
      end
  end.

(** [ingest(csv_url, table, engine, chunksize)] (lines 36-63). *)
Definition ingest (csv_url table : string) (eng : Conn) (chunksize : Z) : Proc unit :=
  print (Say ("reading " +:+ csv_url +:+ " ..."));;
  stream ← open_csv csv_url chunksize;
  '(c0, stream') ← lift (next_chunk stream);
  first_chunk ← lift (to_datetime c0 DATETIME_COLS);
  exec eng (to_sql (head0 first_chunk) table IfReplace false);;
  exec eng (to_sql first_chunk table IfAppend false);;
  rows ← ingest_loop (reader_measure stream') table eng 2 stream' (len first_chunk);
  print (FinishedLine rows).

(** The URL of [make_engine(args.user, ..., args.database)] (lines 83-84). *)
Definition engine_url (args : Cli.Args) : string :=
  make_engine_url (Cli.user args) (Cli.password args) (Cli.host args) (Cli.port args)
                  (Cli.database args).

(** [main()] (lines 80-86). *)
Definition main (args : Cli.Args) : Proc unit :=
  print (Say "--- connecting to Postgres ...");;
  with_begin (engine_url args)
    (λ eng, ingest (Cli.csv_url args) (Cli.table args) eng (Cli.chunksize args)).
End Loader.

(** ** One-shot loading of consecutive records *)

Section LoadRows.
Context `{DatetimeParser} (hdr : list string).
Hypothesis Hnd : NoDup hdr.

Lemma load_rows_at_app b s A B :
  load_rows_at b hdr s (A ++ B) ≡
  (ra ← load_rows_at b hdr s A; rb ← load_rows_at b hdr (s + length A) B; Ok (ra ++ rb)).
Proof.
  unfold load_rows_at. rewrite forallb_app.
  destruct (forallb _ A) eqn:HA; cbn [andb]; [|apply Err_equiv].
  destruct (forallb _ B) eqn:HB; cbn [andb];
    [|destruct (to_datetime (frame_of hdr s A) _); apply Err_equiv].
  rewrite frame_of_app, to_datetime_concat by (by rewrite !frame_of_columns).
  destruct (to_datetime (frame_of hdr s A) DATETIME_COLS) as [d1|] eqn:H1;
    rewrite ?bind_Ok, ?bind_Err; [|apply Err_equiv].
  destruct (to_datetime (frame_of hdr (s + length A) B) DATETIME_COLS) as [d2|] eqn:H2;
    rewrite ?bind_Ok, ?bind_Err; [|apply Err_equiv].
  rewrite sql_rows_concat; [done | | |].
  - by eapply to_datetime_shape; [apply frame_of_wf|].
  - by eapply to_datetime_shape; [apply frame_of_wf|].
  - by rewrite (proj2 (to_datetime_cols _ _ _ H1)), (proj2 (to_datetime_cols _ _ _ H2)), !frame_of_columns.
Qed.

(** Without the index, the rows of a chunk do not depend on the row
    number it starts at. *)
Lemma chunk_rows_start s recs : load_rows_at false hdr s recs = load_rows hdr recs.
Proof.
  unfold load_rows, load_rows_at. destruct (forallb _ _); [|done].
  change (frame_of hdr s recs) with
    (mkFrame (map Z.of_nat (seq s (length recs))) (data (frame_of hdr 0 recs))).
  rewrite to_datetime_reindex.
  destruct (to_datetime (frame_of hdr 0 recs) _) as [d|] eqn:Hd; simpl; [|done].
  rewrite sql_rows_reindex; [done|]. unfold len.
  rewrite (proj1 (to_datetime_cols _ _ _ Hd)). simpl. by rewrite !length_map, !length_seq.
Qed.

(** Whether a block of records loads depends on neither the index nor
    its starting row. *)
Lemma load_rows_at_is_ok b s recs : is_ok (load_rows_at b hdr s recs) = is_ok (load_rows hdr recs).
Proof.
  unfold load_rows, load_rows_at. destruct (forallb _ _); [|done].
  change (frame_of hdr s recs) with
    (mkFrame (map Z.of_nat (seq s (length recs))) (data (frame_of hdr 0 recs))).
  rewrite to_datetime_reindex. by destruct (to_datetime (frame_of hdr 0 recs) _).
Qed.

Lemma load_rows_app A B :
  load_rows hdr (A ++ B) ≡ (ra ← load_rows hdr A; rb ← load_rows hdr B; Ok (ra ++ rb)).
Proof.
  unfold load_rows at 1. rewrite load_rows_at_app.
  by setoid_rewrite (chunk_rows_start (0 + length A) B).
Qed.
End LoadRows.

(** ** Which records load *)

Section Loads.
Context `{DatetimeParser}.

Lemma record_loads_spec hdr rec :
  record_loads hdr rec = true ↔
  record_fits hdr rec = true ∧
  ∀ j c, hdr !! j = Some c → c ∈ DATETIME_COLS → cell_parses (field_cell (nth j rec "")) = true.
Proof.
  unfold record_loads. rewrite andb_true_iff, forallb_forall. apply and_iff_compat_l. split.
  - intros Hall j c Hj Hc. pose proof (lookup_lt_Some _ _ _ Hj) as Hlt.
    specialize (Hall j (proj2 (in_seq _ _ _) (conj (Nat.le_0_l _) Hlt))).
    rewrite (nth_lookup_Some _ _ _ _ Hj), bool_decide_true in Hall by done. done.
  - intros Hall j [_ Hlt]%in_seq. simpl in Hlt.
    destruct (lookup_lt_is_Some_2 hdr j Hlt) as [c Hj]. rewrite (nth_lookup_Some _ _ _ _ Hj).
    case_bool_decide as Hc; [by rewrite (Hall j c Hj Hc), orb_true_r | done].
Qed.

(** A block of records loads exactly when each of its records does. *)
Lemma load_rows_at_ok_iff b hdr s recs :
  NoDup hdr →
  is_ok (load_rows_at b hdr s recs) = true ↔ Forall (λ rec, record_loads hdr rec = true) recs.
Proof.
  intros Hnd. unfold load_rows_at.
  transitivity (forallb (record_fits hdr) recs = true ∧
                is_ok (to_datetime (frame_of hdr s recs) DATETIME_COLS) = true).
  { destruct (forallb _ _); [|naive_solver]. destruct (to_datetime _ _); simpl; naive_solver. }
  rewrite to_datetime_ok_iff, forallb_forall, Forall_forall. setoid_rewrite record_loads_spec.
  assert (Hnd' : NoDup (map fst (data (frame_of hdr s recs)))).
  { change (NoDup (columns (frame_of hdr s recs))). by rewrite frame_of_columns. }
  split.
  - intros [Hfit Hcols] rec Hrec. split; [by apply Hfit, list_elem_of_In|].
    intros j c Hj Hc.
    assert (Hv : lookup_col c (data (frame_of hdr s recs)) =
                 Some (map (λ rec, field_cell (nth j rec "")) recs))
      by (apply lookup_col_NoDup; [done | apply frame_of_col; eauto]).
    pose proof (Hcols c _ Hc Hv) as Hall. rewrite Forall_forall in Hall. apply Hall.
    apply list_elem_of_In, in_map_iff. exists rec. split; [done | by apply list_elem_of_In].
  - intros Hall. split; [intros rec Hrec%list_elem_of_In; apply Hall, Hrec|].
    intros c v Hc Hv. apply lookup_col_In, frame_of_col in Hv as (j & Hj & ->).
    apply Forall_forall. intros x Hx. apply list_elem_of_In, in_map_iff in Hx as (rec & <- & Hrec).
    apply list_elem_of_In in Hrec. exact (proj2 (Hall rec Hrec) j c Hj Hc).
Qed.
End Loads.

(** ** A chunk of the reader against the one-shot load *)

Section Chunks.
Context `{DatetimeParser} (f : CsvFile).
Hypothesis Hnd : NoDup (header f).

(** The rows a chunk becomes are the one-shot rows of its records. *)
Lemma next_chunk_rows b r chunk r' :
  reader_at f r → next_chunk r = Ok (chunk, r') →
  (c' ← to_datetime chunk DATETIME_COLS; Ok (sql_rows b c')) =
  load_rows_at b (header f) (currow r) (take (chunksize r) (drop (currow r) (records f))).
Proof.
  intros Hat Hnext. pose proof (next_chunk_fits _ _ _ Hnext) as Hfits.
  destruct (next_chunk_at _ _ _ _ Hat Hnext) as (_ & -> & _).
  destruct Hat as (Hn & Hp & _). rewrite Hn, Hp in Hfits.
  unfold load_rows_at. by rewrite Hfits.
Qed.

(** A [next] that raises anything but [StopIteration] reads records the
    one-shot load rejects too. *)
Lemma next_chunk_fails r e :
  reader_at f r → next_chunk r = raise e → e ≠ StopIteration →
  is_ok (load_rows (header f) (take (chunksize r) (drop (currow r) (records f)))) = false.
Proof.
  intros (Hn & Hp & _) Hnext He. destruct (next_chunk_error _ _ Hnext He) as (rec & Hin & Hfit).
  rewrite Hn, Hp in *. unfold load_rows, load_rows_at. destruct (forallb _ _) eqn:Hf; [|done].
  rewrite forallb_forall in Hf. apply list_elem_of_In, Hf in Hin. congruence.
Qed.

Lemma load_rows_fails_mid A B C :
  is_ok (load_rows (header f) B) = false → is_ok (load_rows (header f) (A ++ B ++ C)) = false.
Proof.
  intros HB. rewrite (load_rows_app _ Hnd A (B ++ C)). setoid_rewrite (load_rows_app _ Hnd B C).
  destruct (load_rows _ A); rewrite ?bind_Ok, ?bind_Err; [|done].
  destruct (load_rows _ B); [discriminate|]. by rewrite !bind_Err.
Qed.
End Chunks.

(** ** One iteration of a chunk loop

    Both loaders run the same loop body: [next], normalise, append.  The
    invariant [table_inv] at the head of the loop: the reader is at row
    [currow r] of the file and the table holds the one-shot rows of the
    records read so far, written with the index or without ([b]). *)

Section Loop.
Context `{DatetimeParser} (f : CsvFile) (db : DB) (tbl : string) (eng : Conn) (b : bool).
Hypothesis Hnd : NoDup (table_cols b (header f)).

Lemma header_NoDup : NoDup (header f).
Proof. exact (table_cols_NoDup _ _ Hnd). Qed.

Lemma load_rows_nil : load_rows_at b (header f) 0 [] = Ok [].
Proof.
  unfold load_rows_at. cbn [forallb].
  destruct (to_datetime (frame_of (header f) 0 []) DATETIME_COLS) as [d|e] eqn:Hd.
  - rewrite bind_Ok. unfold sql_rows, len. rewrite (proj1 (to_datetime_cols _ _ _ Hd)). done.
  - assert (Hok : is_ok (to_datetime (frame_of (header f) 0 []) DATETIME_COLS) = true).
    { apply to_datetime_ok_iff. intros c v _ Hv.
      apply lookup_col_In in Hv. unfold frame_of in Hv. simpl in Hv.
      apply list_elem_of_lookup in Hv as [j Hj]. rewrite list_lookup_imap in Hj.
      destruct (header f !! j); simpl in Hj; [|done]. injection Hj as _ <-. constructor. }
    by rewrite Hd in Hok.
Qed.

(** The table behind [eng] holds the one-shot rows of the first [m]
    records. *)
Definition holds_prefix (w : World) (m : nat) : Prop :=
  ∃ T, load_rows_at b (header f) 0 (take m (records f)) = Ok T ∧
       conn_db w eng = Some (<[tbl := mkTable (table_cols b (header f)) T]> db).

Definition table_inv (w : World) (r : TextFileReader) : Prop :=
  reader_at f r ∧ reader_wf r ∧ holds_prefix w (currow r).

(** After the loop: on normal exit the table holds the one-shot rows of
    the whole file; on an exception the one-shot load fails too and the
    table holds the rows of a prefix of the file, at least [lo] records
    long. *)
Definition table_post (lo : nat) (w' : World) (ok : bool) : Prop :=
  if ok then holds_prefix w' (length (records f))
  else is_ok (load_rows (header f) (records f)) = false ∧
       ∃ m, lo ≤ m ≤ length (records f) ∧ holds_prefix w' m.

Lemma holds_prefix_print w l m : holds_prefix (set_stdout w l) m ↔ holds_prefix w m.
Proof. unfold holds_prefix. by rewrite conn_db_print. Qed.

Lemma table_inv_print w l r : table_inv (set_stdout w l) r ↔ table_inv w r.
Proof. unfold table_inv. by rewrite holds_prefix_print. Qed.

Lemma table_post_print lo w l ok : table_post lo (set_stdout w l) ok ↔ table_post lo w ok.
Proof. unfold table_post. destruct ok; [apply holds_prefix_print|]. by setoid_rewrite holds_prefix_print. Qed.

Lemma table_post_mono lo lo' w ok : lo' ≤ lo → table_post lo w ok → table_post lo' w ok.
Proof. destruct ok; [done|]. intros ? [? (m & ? & ?)]. split; [done|]. exists m. split; [lia|done]. Qed.

Lemma table_inv_end lo w r :
  table_inv w r → pending r = [] → table_post lo w true ∧ currow r = length (records f).
Proof. intros (Hat & _ & Hp) Hnil. pose proof (reader_at_end _ _ Hat Hnil) as Hc.
  split; [simpl; by rewrite <- Hc | done].
Qed.

Lemma records_split r :
  records f = take (currow r) (records f) ++ take (chunksize r) (drop (currow r) (records f)) ++
              drop (chunksize r) (drop (currow r) (records f)).
Proof. by rewrite !take_drop. Qed.

Lemma loop_fails w r :
  table_inv w r →
  is_ok (load_rows (header f) (take (chunksize r) (drop (currow r) (records f)))) = false →
  table_post (currow r) w false.
Proof.
  intros (Hat & _ & Hp) Hb. split; [rewrite (records_split r); by apply (load_rows_fails_mid f header_NoDup)|].
  exists (currow r). split; [by destruct Hat as (_ & _ & ?); lia|done].
Qed.

(** The body of both loops on a chunk that normalises: the append
    succeeds and the invariant moves to the next reader. *)
Lemma loop_step w r chunk r' c' :
  table_inv w r → next_chunk r = Ok (chunk, r') → to_datetime chunk DATETIME_COLS = Ok c' →
  ∃ w1, exec eng (to_sql c' tbl IfAppend b) w = (w1, Ok tt) ∧
        stdout w1 = stdout w ∧ table_inv w1 r' ∧ currow r' = currow r + len c'.
Proof.
  intros (Hat & Hwf & T & HT & Hdb) Hnext Htd.
  destruct (next_chunk_at _ _ _ _ Hat Hnext) as (Hat' & Hchunk & Htake).
  pose proof (next_chunk_rows f b _ _ _ Hat Hnext) as Hrows. rewrite Htd in Hrows.
  pose proof (next_chunk_Ok _ _ _ Hnext) as (_ & _ & _ & Hfirst' & _ & Hcur').
  assert (Hcols : sql_columns b c' = table_cols b (header f)).
  { unfold sql_columns, table_cols. rewrite (proj2 (to_datetime_cols _ _ _ Htd)), Hchunk.
    by rewrite frame_of_columns. }
  assert (HT' : load_rows_at b (header f) 0 (take (currow r') (records f)) = Ok (T ++ sql_rows b c')).
  { rewrite Htake. apply (res_equiv_Ok _ _ _ (symmetry (load_rows_at_app _ header_NoDup _ _ _ _))).
    rewrite HT, bind_Ok. rewrite length_take_le by (by destruct Hat as (_ & _ & ?)).
    by rewrite Nat.add_0_l, <- Hrows. }
  eexists. split_and!.
  - eapply exec_Ok; [done|]. rewrite to_sql_append with (t := mkTable (table_cols b (header f)) T).
    + by rewrite insert_insert_eq.
    + by rewrite Hcols.
    + apply lookup_insert_eq.
    + by rewrite Hcols.
  - apply stdout_set_conn_db.
  - split_and!; [done | by eapply next_chunk_wf | ].
    exists (T ++ sql_rows b c'). split; [done|]. apply conn_db_set.
  - rewrite Hcur'. unfold len. rewrite (proj1 (to_datetime_cols _ _ _ Htd)), Hchunk.
    simpl. rewrite length_map, length_seq. by destruct Hat as (_ & -> & _).
Qed.

(** What one [next] and normalisation lead to, from the invariant: the
    end of the stream, a failure the one-shot load shares, or an append
    to a reader of smaller measure. *)
Lemma loop_cases w r :
  table_inv w r →
  match next_chunk r with
  | Err StopIteration => table_post (currow r) w true ∧ currow r = length (records f)
  | Err _ => table_post (currow r) w false
  | Ok (chunk, r') =>
      reader_measure r' < reader_measure r ∧
      match to_datetime chunk DATETIME_COLS with
      | Err _ => table_post (currow r) w false
      | Ok c' => ∃ w1, exec eng (to_sql c' tbl IfAppend b) w = (w1, Ok tt) ∧
                       stdout w1 = stdout w ∧ table_inv w1 r' ∧ currow r' = currow r + len c'
      end
  end.
Proof.
  intros Hinv. destruct (next_chunk r) as [[chunk r']|e] eqn:Hnext.
  - split; [exact (next_chunk_measure r chunk r' (proj1 (proj1 (proj2 Hinv))) Hnext)|].
    destruct (to_datetime chunk DATETIME_COLS) as [c'|e] eqn:Htd; [by eapply loop_step|].
    apply (loop_fails _ _ Hinv).
    pose proof (next_chunk_rows f false _ _ _ (proj1 Hinv) Hnext) as Hrows.
    rewrite Htd in Hrows. rewrite <- chunk_rows_start with (s := currow r), <- Hrows. done.
  - destruct (decide (e = StopIteration)) as [->|Hne].
    + apply (table_inv_end _ _ _ Hinv). by apply next_chunk_stop.
    + destruct e; try congruence; apply (loop_fails _ _ Hinv);
        by apply (next_chunk_fails f r _ (proj1 Hinv) Hnext).
Qed.
End Loop.

(** ** The loop of [ingest] computes the one-shot load *)

Section IngestLoop.
Context `{DatetimeParser} (f : CsvFile) (db : DB) (tbl : string) (eng : Conn).
Hypothesis Hnd : NoDup (header f).

(** The loop, given at least [reader_measure] iterations, ends normally
    exactly when the one-shot load succeeds, with the table it computes
    and the count of all records. *)
Lemma ingest_loop_spec fuel i r rows w :
  table_inv f db tbl eng false w r → rows = currow r → reader_measure r ≤ fuel →
  let '(w', o) := ingest_loop fuel tbl eng i r rows w in
  table_post f db tbl eng false (currow r) w' (is_ok o) ∧ ∀ k, o = Ok k → k = length (records f).
Proof.
  revert i r rows w. induction fuel as [|fuel IH]; intros i r rows w Hinv -> Hm; cbn [ingest_loop].
  - destruct (table_inv_end f db tbl eng false (currow r) w r Hinv) as [Hp Hc];
      [unfold reader_measure in Hm; apply nil_length_inv; lia|].
    split; [done|]. by intros k [= <-].
  - pose proof (loop_cases f db tbl eng false Hnd w r Hinv) as Hc.
    destruct (next_chunk r) as [[chunk r']|[]]; try (split; [apply Hc | done]).
    + destruct Hc as [Hlt Hc]. destruct (to_datetime chunk DATETIME_COLS) as [c'|e].
      * destruct Hc as (w1 & Hexec & _ & Hinv1 & Hcur).
        rewrite (proc_bind_Ok _ _ _ _ _ (lift_run _ _)), (proc_bind_Ok _ _ _ _ _ Hexec),
          (proc_bind_Ok _ _ _ _ _ (print_run _ _)).
        rewrite <- Hcur. set (w2 := set_stdout w1 _).
        pose proof (IH (S i) r' (currow r') w2 (proj2 (table_inv_print _ _ _ _ _ _ _ _) Hinv1)
                      eq_refl ltac:(lia)) as IH'.
        destruct (ingest_loop _ _ _ _ _ _ _) as [w' o]. destruct IH' as [Hp Hk].
        split; [|done]. eapply table_post_mono; [|exact Hp]. lia.
      * rewrite (proc_bind_Err _ _ _ _ _ (lift_run _ _)). by split.
    + destruct Hc as [Hp ->]. split; [done|]. by intros k [= <-].
Qed.
End IngestLoop.

(** ** The loader implements the one-shot load *)

Section Refinement.
Context `{DatetimeParser}.

Lemma load_all_is_ok b f :
  header f ≠ [] → is_ok (load_all_at b f) = is_ok (load_rows (header f) (records f)).
Proof.
  intros Hh. unfold load_all_at. rewrite bool_decide_false by done.
  rewrite <- (load_rows_at_is_ok _ b 0). by destruct (load_rows_at _ _ _ _).
Qed.

Lemma load_all_holds b f db tbl eng w :
  header f ≠ [] → holds_prefix f db tbl eng b w (length (records f)) →
  ∃ t, load_all_at b f = Ok t ∧ conn_db w eng = Some (<[tbl := t]> db).
Proof.
  intros Hh (T & HT & Hdb). rewrite take_ge in HT by done. exists (mkTable (table_cols b (header f)) T).
  unfold load_all_at. rewrite bool_decide_false by done. by rewrite HT.
Qed.

(** The first chunk's [replace] leaves the empty table with the header's
    columns, where the loop invariant holds at row 0. *)
Lemma ingest_replace b f db tbl eng w n r0 c0 r1 c0' :
  NoDup (table_cols b (header f)) → conn_db w eng = Some db → read_csv f n = Ok r0 →
  next_chunk r0 = Ok (c0, r1) → to_datetime c0 DATETIME_COLS = Ok c0' →
  exec eng (to_sql (head0 c0') tbl IfReplace b) w =
    (set_conn_db w eng (<[tbl := mkTable (table_cols b (header f)) []]> db), Ok tt) ∧
  table_inv f db tbl eng b (set_conn_db w eng (<[tbl := mkTable (table_cols b (header f)) []]> db)) r0.
Proof.
  intros Hnd Hdb Hr Hnext Htd. destruct (read_csv_Ok _ _ _ Hr) as (Hat & Hc0 & _).
  assert (Hcols : sql_columns b (head0 c0') = table_cols b (header f)).
  { rewrite sql_columns_head0. unfold sql_columns, table_cols.
    rewrite (proj2 (to_datetime_cols _ _ _ Htd)).
    destruct (next_chunk_at _ _ _ _ Hat Hnext) as (_ & -> & _). by rewrite frame_of_columns. }
  split.
  - eapply exec_Ok; [done|]. rewrite to_sql_replace by (by rewrite Hcols).
    by rewrite Hcols, sql_rows_head0.
  - unfold table_inv. split_and!; [done | by eapply read_csv_wf; [apply (table_cols_NoDup b)|] |].
    exists []. rewrite Hc0, take_0. split; [by apply load_rows_nil | apply conn_db_set].
Qed.

(** A failure on the first chunk is a failure of the one-shot load of
    the first [n] records, and so of the whole file. *)
Lemma first_chunk_load_fails f n r0 :
  read_csv f n = Ok r0 →
  is_ok (c0r1 ← next_chunk r0; to_datetime c0r1.1 DATETIME_COLS) = false →
  is_ok (load_rows (header f) (take (Z.to_nat n) (records f))) = false.
Proof.
  intros Hr Hfail. destruct (read_csv_Ok _ _ _ Hr) as (Hat & Hc0 & Hfirst & Hcs & _).
  assert (Htk : take (Z.to_nat n) (records f) = take (chunksize r0) (drop (currow r0) (records f)))
    by (by rewrite Hc0, Hcs, drop_0).
  rewrite Htk. destruct (next_chunk r0) as [[c0 r1]|e] eqn:Hnext.
  - rewrite <- (chunk_rows_start _ (currow r0)), <- (next_chunk_rows f false _ _ _ Hat Hnext).
    revert Hfail. rewrite bind_Ok. cbn [fst]. by destruct (to_datetime c0 DATETIME_COLS).
  - apply (next_chunk_fails f r0 e Hat Hnext). intros ->.
    apply next_chunk_stop in Hnext as [_ ?]. congruence.
Qed.

Lemma first_chunk_fails b f n r0 :
  NoDup (header f) → read_csv f n = Ok r0 →
  is_ok (c0r1 ← next_chunk r0; to_datetime c0r1.1 DATETIME_COLS) = false →
  is_ok (load_all_at b f) = false.
Proof.
  intros Hnd Hr Hfail. destruct (read_csv_Ok _ _ _ Hr) as (_ & _ & _ & _ & _ & Hh).
  rewrite load_all_is_ok by done. rewrite <- (take_drop (Z.to_nat n) (records f)).
  apply (load_rows_fails_mid f Hnd []). by eapply first_chunk_load_fails.
Qed.

Lemma refines_fail {A} (o : res A) (r : res Table) (P : Table → Prop) :
  is_ok o = false → is_ok r = false → is_ok o = is_ok r ∧ ∀ t, r = Ok t → P t.
Proof. intros Ho Hr. split; [congruence|]. intros t ->. discriminate. Qed.

Lemma ingest_refines_run csv_url tbl eng n w f db :
  files w !! csv_url = Some f → conn_db w eng = Some db → NoDup (header f) → (1 ≤ n)%Z →
  let '(w', o) := ingest csv_url tbl eng n w in
  is_ok o = is_ok (load_all f) ∧
  ∀ t, load_all f = Ok t →
       conn_db w' eng = Some (<[tbl := t]> db) ∧
       last (stdout w') = Some (FinishedLine (length (records f))).
Proof.
  intros Hf Hdb Hnd Hn. unfold ingest.
  rewrite (proc_bind_Ok _ _ _ _ _ (print_run _ _)).
  set (w1 := set_stdout w _).
  assert (Hdb1 : conn_db w1 eng = Some db) by (subst w1; by rewrite conn_db_print).
  assert (Hopen := open_csv_run csv_url n w1 f Hf).
  destruct (read_csv f n) as [r0|e] eqn:Hr.
  2:{ rewrite (proc_bind_Err _ _ _ _ _ Hopen).
      apply read_csv_Err in Hr as [[? _]|(_ & Hh & _)]; [lia|].
      unfold load_all, load_all_at. rewrite bool_decide_true by done. split; [done | discriminate]. }
  rewrite (proc_bind_Ok _ _ _ _ _ Hopen).
  destruct (next_chunk r0) as [[c0 r1]|e] eqn:Hnext.
  2:{ rewrite (proc_bind_Err _ _ _ _ _ (lift_run _ _)). apply refines_fail; [done|].
      eapply first_chunk_fails; [done..|]. by rewrite Hnext. }
  rewrite (proc_bind_Ok _ _ _ _ _ (lift_run _ _)). cbn beta iota.
  destruct (to_datetime c0 DATETIME_COLS) as [c0'|e] eqn:Htd.
  2:{ rewrite (proc_bind_Err _ _ _ _ _ (lift_run _ _)). apply refines_fail; [done|].
      eapply first_chunk_fails; [done..|]. rewrite Hnext, bind_Ok. cbn [fst]. by rewrite Htd. }
  rewrite (proc_bind_Ok _ _ _ _ _ (lift_run _ _)).
  destruct (ingest_replace false f db tbl eng w1 n r0 c0 r1 c0' Hnd Hdb1 Hr Hnext Htd) as [Hrep Hinv0].
  rewrite (proc_bind_Ok _ _ _ _ _ Hrep).
  destruct (loop_step f db tbl eng false Hnd _ _ _ _ _ Hinv0 Hnext Htd) as (w3 & Happ & _ & Hinv1 & Hcur).
  rewrite (proc_bind_Ok _ _ _ _ _ Happ).
  assert (Hh : header f ≠ []) by (by destruct (read_csv_Ok _ _ _ Hr) as (_ & _ & _ & _ & _ & ?)).
  pose proof (ingest_loop_spec f db tbl eng Hnd (reader_measure r1) 2 r1 (len c0') w3 Hinv1
                ltac:(rewrite Hcur; destruct (read_csv_Ok _ _ _ Hr) as (_ & -> & _); lia) (le_n _)) as Hloop.
  destruct (ingest_loop _ _ _ _ _ _ w3) as [w4 [k|e]] eqn:Hl.
  - rewrite (proc_bind_Ok _ _ _ _ _ Hl), print_run.
    destruct Hloop as [Hpost Hk]. rewrite (Hk k eq_refl).
    destruct (load_all_holds _ _ _ _ _ _ Hh Hpost) as (t & Ht & Hdb4).
    unfold load_all. rewrite Ht. split; [done|]. intros t' [= <-]. simpl.
    rewrite conn_db_print, last_snoc. by split.
  - rewrite (proc_bind_Err _ _ _ _ _ Hl). apply refines_fail; [done|].
    unfold load_all. rewrite load_all_is_ok by done. apply Hloop.
Qed.

(** C1: refinement.  With a readable file and a live connection, [ingest]
    ends normally exactly when the one-shot load [load_all] succeeds;
    then the destination table is the one-shot table (every other table
    untouched) and the last line printed reports every record. *)
Theorem ingest_refines csv_url tbl eng n w f db w' o :
  files w !! csv_url = Some f → conn_db w eng = Some db → NoDup (header f) → (1 ≤ n)%Z →
  ingest csv_url tbl eng n w = (w', o) →
  is_ok o = is_ok (load_all f) ∧
  ∀ t, load_all f = Ok t →
       conn_db w' eng = Some (<[tbl := t]> db) ∧
       last (stdout w') = Some (FinishedLine (length (records f))).
Proof.
  intros Hf Hdb Hnd Hn Hrun.
  pose proof (ingest_refines_run csv_url tbl eng n w f db Hf Hdb Hnd Hn) as H'.
  by rewrite Hrun in H'.
Qed.
End Refinement.

(** ** [main]: one transaction for the whole run *)

Section Main.
Context `{DatetimeParser}.

Lemma ingest_loop_keeps fuel tbl url i r rows :
  keeps_servers (ingest_loop fuel tbl (Connection url) i r rows).
Proof.
  revert i r rows. induction fuel as [|fuel IH]; intros i r rows; [apply keeps_ret|].
  intros w. cbn [ingest_loop]. destruct (next_chunk r) as [[chunk r']|[]]; try done.
  lazymatch goal with |- servers (?m ?w).1 = _ => enough (keeps_servers m) as Hk by apply Hk end.
  solve_keeps.
Qed.

#[local] Hint Resolve ingest_loop_keeps : keeps.

Lemma ingest_keeps csv tbl url n : keeps_servers (ingest csv tbl (Connection url) n).
Proof. unfold ingest. solve_keeps. Qed.

(** C2: atomicity.  When [main] raises, for whatever reason, no database
    of any server has changed: the transaction of [engine.begin()] is
    rolled back, the replace of the destination table included. *)
Theorem main_atomic args w w' e :
  main args w = (w', Err e) → servers w' = servers w.
Proof.
  intros Hrun. revert Hrun. unfold main. rewrite (proc_bind_Ok _ _ _ _ _ (print_run _ _)). unfold with_begin.
  set (w1 := set_stdout w _). set (url := engine_url args).
  unfold mbind at 1, proc_bind at 1, begin at 1.
  destruct (servers w1 !! url) as [db|] eqn:Hs; [|by intros [= <-]].
  intros He. apply end_txn_Err in He as (w3 & Hi & ->).
  pose proof (ingest_keeps (Cli.csv_url args) (Cli.table args) url (Cli.chunksize args)
                (set_txns w1 (<[url:=db]> (txns w1)))) as Hk.
  rewrite Hi in Hk. simpl in Hk. unfold rollback. simpl. by rewrite Hk.
Qed.

(** C3: [main] commits the one-shot table.  With a readable file and a
    server at the URL, [main] ends normally exactly when [load_all]
    succeeds, and then the server's database is the old one with the
    destination table replaced by the one-shot table. *)
Theorem main_commits args w f db w' o :
  files w !! Cli.csv_url args = Some f → servers w !! engine_url args = Some db →
  NoDup (header f) → (1 ≤ Cli.chunksize args)%Z →
  main args w = (w', o) →
  is_ok o = is_ok (load_all f) ∧
  ∀ t, load_all f = Ok t → servers w' = <[engine_url args := <[Cli.table args := t]> db]> (servers w).
Proof.
  intros Hf Hs Hnd Hn. unfold main. rewrite (proc_bind_Ok _ _ _ _ _ (print_run _ _)).
  unfold with_begin. set (w1 := set_stdout w _). set (url := engine_url args).
  set (w2 := set_txns w1 (<[url := db]> (txns w1))).
  assert (Hbegin : begin url w1 = (w2, Ok (Connection url))) by (unfold begin, url; simpl; by rewrite Hs).
  rewrite (proc_bind_Ok _ _ _ _ _ Hbegin).
  destruct (ingest (Cli.csv_url args) (Cli.table args) (Connection url) (Cli.chunksize args) w2)
    as [w3 o3] eqn:Hi.
  assert (Hdb2 : conn_db w2 (Connection url) = Some db) by apply lookup_insert_eq.
  pose proof (ingest_refines_run (Cli.csv_url args) (Cli.table args) (Connection url) (Cli.chunksize args) w2 f db Hf Hdb2 Hnd Hn) as Hr.
  rewrite Hi in Hr.
  destruct Hr as [Hok Ht].
  pose proof (ingest_keeps (Cli.csv_url args) (Cli.table args) url (Cli.chunksize args) w2) as Hk.
  rewrite Hi in Hk. simpl in Hk.
  unfold end_txn. rewrite Hi. destruct o3 as [[]|e]; intros [= <- <-]; split; try done.
  - intros t Ht'. destruct (Ht t Ht') as [Hdb3 _]. unfold commit. simpl in Hdb3. rewrite Hdb3.
    simpl. by rewrite Hk.
  - intros t Ht'. by rewrite Ht' in Hok.
Qed.
End Main.

(** ** Consequences: what the destination table holds *)

Section Consequences.
Context `{DatetimeParser}.

Lemma load_rows_Ok b hdr s recs rows :
  load_rows_at b hdr s recs = Ok rows →
  ∃ df, to_datetime (frame_of hdr s recs) DATETIME_COLS = Ok df ∧ rows = sql_rows b df.
Proof.
  unfold load_rows_at. destruct (forallb _ _); [|discriminate].
  destruct (to_datetime _ _) as [df|]; [|discriminate]. intros [= <-]. eauto.
Qed.

(** The shape of the one-shot table, written with the index or without. *)
Lemma load_all_at_shape b f t :
  load_all_at b f = Ok t →
  tcols t = table_cols b (header f) ∧ length (trows t) = length (records f) ∧
  Forall (λ row, length row = length (tcols t)) (trows t).
Proof.
  unfold load_all_at. case_bool_decide; [discriminate|].
  destruct (load_rows_at _ _ _ _) as [rows|] eqn:Hr; [|discriminate]. intros [= <-]. simpl.
  destruct (load_rows_Ok _ _ _ _ _ Hr) as (df & Htd & ->).
  destruct (to_datetime_cols _ _ _ Htd) as [Hi Hc].
  split_and!; [done| |].
  - unfold sql_rows, len. rewrite length_map, length_seq, Hi. simpl. by rewrite length_map, length_seq.
  - eapply Forall_impl; [apply sql_rows_length|]. intros row ->.
    unfold sql_columns, table_cols. by rewrite Hc, frame_of_columns.
Qed.

(** C4: the one-shot table has the file's header as its columns, one row
    per record (row count conservation), and one value per column in
    every row. *)
Theorem load_all_shape f t :
  load_all f = Ok t →
  tcols t = header f ∧ length (trows t) = length (records f) ∧
  Forall (λ row, length row = length (header f)) (trows t).
Proof. intros (Hc & Hl & Hrows)%load_all_at_shape. by rewrite Hc in Hrows. Qed.

(** The chunk size does not matter: two runs of [ingest] on the same
    world with chunk sizes [n1] and [n2] both succeed or both fail, and
    on success leave the same database behind the connection. *)
Theorem ingest_chunksize_independent csv_url tbl eng n1 n2 w f db w1 o1 w2 o2 :
  files w !! csv_url = Some f → conn_db w eng = Some db → NoDup (header f) →
  (1 ≤ n1)%Z → (1 ≤ n2)%Z →
  ingest csv_url tbl eng n1 w = (w1, o1) → ingest csv_url tbl eng n2 w = (w2, o2) →
  is_ok o1 = is_ok o2 ∧ (is_ok o1 = true → conn_db w1 eng = conn_db w2 eng).
Proof.
  intros Hf Hdb Hnd Hn1 Hn2 Hr1 Hr2.
  pose proof (ingest_refines_run csv_url tbl eng n1 w f db Hf Hdb Hnd Hn1) as H1. rewrite Hr1 in H1.
  pose proof (ingest_refines_run csv_url tbl eng n2 w f db Hf Hdb Hnd Hn2) as H2. rewrite Hr2 in H2.
  destruct H1 as [Hok1 Ht1], H2 as [Hok2 Ht2].
  split; [congruence|]. intros Hok.
  destruct (load_all f) as [t|e]; [|by rewrite Hok1 in Hok].
  by rewrite (proj1 (Ht1 t eq_refl)), (proj1 (Ht2 t eq_refl)).
Qed.

Lemma load_all_header_only f : header f ≠ [] → records f = [] → load_all f = Ok (mkTable (header f) []).
Proof.
  intros Hh Hr. unfold load_all, load_all_at. rewrite bool_decide_false by done. rewrite Hr.
  by rewrite (load_rows_nil f false).
Qed.

(** C5: a file with a header and no records: [ingest] succeeds, the
    destination table has the header's columns and no rows, and the
    summary reports 0 rows. *)
Theorem ingest_header_only csv_url tbl eng n w f db w' o :
  files w !! csv_url = Some f → conn_db w eng = Some db → NoDup (header f) → (1 ≤ n)%Z →
  header f ≠ [] → records f = [] →
  ingest csv_url tbl eng n w = (w', o) →
  o = Ok tt ∧ conn_db w' eng = Some (<[tbl := mkTable (header f) []]> db) ∧
  last (stdout w') = Some (FinishedLine 0).
Proof.
  intros Hf Hdb Hnd Hn Hh Hr Hrun.
  pose proof (ingest_refines_run csv_url tbl eng n w f db Hf Hdb Hnd Hn) as Hr'. rewrite Hrun in Hr'.
  destruct Hr' as [Hok Ht].
  rewrite load_all_header_only in Hok, Ht by done.
  destruct (Ht _ eq_refl) as [Hdb' Hlast]. rewrite Hr in Hlast.
  split_and!; [by destruct o as [[]|] | done | done].
Qed.
(** C12: the one-shot load, with or without the index, and so each
    loader, succeeds exactly when the file has a header and every record
    has no more fields than the header and a missing or parseable value
    under each timestamp column. *)
Theorem load_all_ok_iff b f :
  NoDup (header f) →
  is_ok (load_all_at b f) = true ↔
  header f ≠ [] ∧ Forall (λ rec, record_loads (header f) rec = true) (records f).
Proof.
  intros Hnd. unfold load_all_at. case_bool_decide as Hh; [naive_solver|].
  rewrite <- (load_rows_at_ok_iff b _ 0) by done.
  destruct (load_rows_at _ _ _ _); simpl; naive_solver.
Qed.
End Consequences.

(** ** Witnesses on a concrete taxi file *)

Module Examples.
#[local] Existing Instance IsoParser.iso_parser.

Definition taxi : CsvFile :=
  mkCsv ["VendorID"; "tpep_pickup_datetime"; "tpep_dropoff_datetime"; "fare_amount"]
    [["1"; "2021-01-01 00:30:10"; "2021-01-01 00:36:12"; "8"];
     ["1"; "2021-01-01 00:51:20"; "2021-01-01 00:52:19"; "3"];
     ["2"; "2021-01-01 00:43:30"; ""; "42"]].

(** The same file with a fourth record whose pickup time is unparseable. *)
Definition taxi_bad : CsvFile :=
  mkCsv (header taxi) (records taxi ++ [["2"; "01/01/2021 00:43"; "2021-01-01 01:00:00"; "9"]]).

Definition taxi_empty : CsvFile := mkCsv (header taxi) [].

Definition args (n : Z) : Cli.Args :=
  Cli.mkArgs "root" "root" "localhost" 5432 "ny_taxi" "yellow_taxi_data"
             "yellow_tripdata_2021-01.csv" n.

Definition url : string := engine_url (args 2).

Definition world (f : CsvFile) : World :=
  mkWorld {["yellow_tripdata_2021-01.csv" := f]} ∅ {[url := ∅]} {[url := ∅]} [].

Definition run (f : CsvFile) (n : Z) : World * res unit :=
  ingest "yellow_tripdata_2021-01.csv" "yellow_taxi_data" (Connection url) n (world f).

Lemma ingest_refines_witness :
  ∃ w' o, run taxi 2 = (w', o) ∧ is_ok o = is_ok (load_all taxi).
Proof.
  destruct (run taxi 2) as [w' o] eqn:Hrun. exists w', o. split; [done|].
  refine (proj1 (ingest_refines _ _ _ _ _ _ ∅ _ _ _ _ _ _ Hrun)); [reflexivity | reflexivity | | lia].
  apply (bool_decide_unpack _). vm_compute. exact I.
Defined.

Lemma main_atomic_witness :
  ∃ w' e, main (args 2) (world taxi_bad) = (w', Err e) ∧ servers w' = servers (world taxi_bad).
Proof.
  destruct (main (args 2) (world taxi_bad)) as [w' [u|e]] eqn:Hrun; [vm_compute in Hrun; discriminate|].
  exists w', e. split; [done|]. exact (main_atomic _ _ _ _ Hrun).
Defined.

Lemma main_commits_witness :
  ∃ w' o, main (args 2) (world taxi) = (w', o) ∧ is_ok o = is_ok (load_all taxi).
Proof.
  destruct (main (args 2) (world taxi)) as [w' o] eqn:Hrun. exists w', o. split; [done|].
  refine (proj1 (main_commits _ _ _ ∅ _ _ _ _ _ _ Hrun)); [reflexivity | reflexivity | | vm_compute; discriminate].
  apply (bool_decide_unpack _). vm_compute. exact I.
Defined.

Lemma load_all_shape_witness : ∃ t, load_all taxi = Ok t ∧ length (trows t) = 3.
Proof.
  destruct (load_all taxi) as [t|e] eqn:Hl; [|vm_compute in Hl; discriminate].
  exists t. split; [done|]. exact (proj1 (proj2 (load_all_shape _ _ Hl))).
Defined.


Lemma ingest_header_only_witness :
  ∃ w', run taxi_empty 2 = (w', Ok tt) ∧ last (stdout w') = Some (FinishedLine 0).
Proof.
  destruct (run taxi_empty 2) as [w' o] eqn:Hrun.
  destruct (ingest_header_only "yellow_tripdata_2021-01.csv" "yellow_taxi_data" (Connection url) 2
              (world taxi_empty) taxi_empty ∅ w' o ltac:(reflexivity) ltac:(reflexivity)
              ltac:(apply (bool_decide_unpack _); vm_compute; exact I) ltac:(lia)
              ltac:(discriminate) ltac:(reflexivity) Hrun) as (-> & _ & Hlast).
  exists w'. split; [done | exact Hlast].
Defined.
Lemma load_all_ok_iff_witness : is_ok (load_all taxi_bad) = false.
Proof.
  apply not_true_iff_false. intros Hok.
  apply (load_all_ok_iff false taxi_bad) in Hok as [_ Hall];
    [|apply (bool_decide_unpack _); vm_compute; exact I].
  cbn [records taxi_bad] in Hall. apply Forall_app in Hall as [_ Hb].
  apply Forall_inv in Hb. vm_compute in Hb. discriminate.
Defined.
End Examples.
