(* ===== verification/IngestOld.v ===== *)
(** * IngestOld: the first loader (src/M01_Homework/ingest_data_old.py)

    The earlier version of the loader.  It differs from [Ingest] in four
    ways the theorems of this file pin down:
    - it reads only URLs: [csv_url] is downloaded with [curl] to
      ["data.csv.gz"] or ["data.csv"] unless that file already exists,
      and a local path leaves [csv_file] unbound ([old_main_local_path]);
    - [curl] runs without [--fail], so an HTTP error page is saved and,
      under the name [data.csv], loaded as the data
      ([old_main_downloads]), and a file left by an
      earlier run is loaded whatever the URL now serves
      ([old_main_refines] does not mention the web);
    - [to_sql] is called with the default [index=True], so the table has
      an ["index"] column numbering the rows of the file;
    - it writes through the engine, one transaction per statement, so a
      failure after the first chunk leaves the chunks written so far in
      the table ([old_main_partial]).
    The loop itself is the loop of [Ingest] and its invariant
    [table_inv] is reused with [b = true]. *)

From S2P Require Import Prelude Frame Reader Sink Runtime EngineUrl ArgParse Ingest.

(** ** Command line and strings *)

(** The namespace [parser.parse_args()] returns (lines 96-113): seven
    options, all strings ([--port] has no [type=int]).  An option left
    out is [None] in Python; [Entry.old_script] handles that case, and
    [old_main] here is [main] on a namespace where every option was
    given. *)
Module OldCli.
Record Args : Type := mkArgs {
  user : string; password : string; host : string; port : string;
  database_name : string; table_name : string; csv_url : string
}.
End OldCli.

(** The parser of lines 96-111: seven options, none required, no
    [type], default [None]. *)
Definition old_parser : list Action :=
  map (λ flag, add_argument flag TStr false PyNone)
      ["--user"; "--password"; "--host"; "--port"; "--database_name"; "--table_name"; "--csv_url"].

(** The namespace [parse_args] returns when every option is given. *)
Definition old_ns (args : OldCli.Args) : Namespace :=
  [("user", PyStr (OldCli.user args)); ("password", PyStr (OldCli.password args));
   ("host", PyStr (OldCli.host args)); ("port", PyStr (OldCli.port args));
   ("database_name", PyStr (OldCli.database_name args));
   ("table_name", PyStr (OldCli.table_name args)); ("csv_url", PyStr (OldCli.csv_url args))].

(** [s.startswith(pre)] *)
Definition str_startswith (s pre : string) : bool := String.prefix pre s.

(** [s.endswith(suf)] *)
Definition str_endswith (s suf : string) : bool :=
  (String.length suf <=? String.length s)%nat &&
  String.eqb (substring (String.length s - String.length suf) (String.length suf) s) suf.

(** The value [csv_file] is bound to by lines 39-40, [None] when the
    [if] is not taken and the name stays unbound. *)
Definition csv_file_of (csv_url : string) : option string :=
  if str_startswith csv_url "http"
  then Some (if str_endswith csv_url ".gz" then "data.csv.gz" else "data.csv")
  else None.

(** The timestamp columns the old loader passes (lines 62-63 and 79-80). *)
Definition datetime_columns : list string :=
  ["tpep_pickup_datetime"; "tpep_dropoff_datetime"; "lpep_pickup_datetime"; "lpep_dropoff_datetime"].

(** ** The loader *)

Section OldLoader.
Context `{DatetimeParser}.

(** [convert_to_datetime(df, columns)] (lines 9-23). *)
Fixpoint convert_to_datetime (df : DataFrame) (cols : list string) : res DataFrame :=
  match cols with
  | [] => Ok df
  | column :: rest =>
      df' ← (if bool_decide (column ∈ columns df) then
               col ← of_option (ValueError column) (lookup_col column (data df));
               col' ← pd_to_datetime col;
               Ok (set_column df column col')
             else Ok df);
      convert_to_datetime df' rest
  end.

(** [subprocess.run(["curl", "-L", "--retry", "5", "-o", out, url],
    check=True)] (lines 43-46).  Without [--fail] curl saves the body the
    server sends whatever the HTTP status and exits 0; it exits non-zero
    only when no server answers, which [check=True] raises. *)
Definition curl (url out : string) : Proc unit := λ w,
  match web w !! url with
  | Some (_status, body) => (set_files w (<[out := body]> (files w)), Ok tt)
  | None => (w, raise (CalledProcessError "curl"))
  end.

(** Lines 38-46: download a URL unless its local file exists. *)
Definition download (csv_url : string) : Proc unit :=
  match csv_file_of csv_url with
  | Some csv_file => λ w,
      if bool_decide (is_Some (files w !! csv_file)) then (w, Ok tt)
      else (print (Say "Downloading with curl …");; curl csv_url csv_file) w
  | None => mret tt
  end.

(** [while True: try: df = next(df_iter) ... except StopIteration: ...
    break] (lines 71-91).  [fuel] bounds the iterations; [old_ingest]
    gives one more than [reader_measure], enough to reach the
    [StopIteration]. *)
Fixpoint old_loop (fuel : nat) (table_name : string) (engine : Conn)
    (df_iter : TextFileReader) : Proc unit :=
  match fuel with
  | 0 => mret tt
  | S fuel' => λ w,
      match next_chunk df_iter with
      | Err StopIteration => print (Say "Finished ingesting data into the postgres database") w
      | Err e => (w, Err e)
      | Ok (df, df_iter') =>
          (df' ← lift (convert_to_datetime df datetime_columns);
           exec engine (to_sql df' table_name IfAppend true);;
           print (Say "inserted another chunk");;
           old_loop fuel' table_name engine df_iter') w
      end
  end.

(** Lines 54-92: read [csv_file] in chunks of 100000 and write it. *)
Definition old_ingest (csv_file table_name : string) (engine : Conn) : Proc unit :=
  df_iter ← open_csv csv_file 100000;
  print (Say ("CSV file " +:+ csv_file +:+ " loaded successfully."));;
  '(df, df_iter') ← lift (next_chunk df_iter);
  print (Say "Processing the first chunk of data...");;
  df' ← lift (convert_to_datetime df datetime_columns);
  exec engine (to_sql (head0 df') table_name IfReplace true);;
  exec engine (to_sql df' table_name IfAppend true);;
  old_loop (S (reader_measure df_iter')) table_name engine df_iter';;
  print (Say "All batches processed successfully.").

(** The URL of line 50. *)
Definition old_url (args : OldCli.Args) : string :=
  old_engine_url (OldCli.user args) (OldCli.password args) (OldCli.host args)
                 (OldCli.port args) (OldCli.database_name args).

(** Lines 39-92 of [main(args)]: after the two opening prints. *)
Definition old_main_body (args : OldCli.Args) : Proc unit :=
  download (OldCli.csv_url args);;
  print (Say "Connecting to the database...");;
  connect (old_url args);;
  print (Say "Connection established.");;
  csv_file ← lift (of_option (UnboundLocalError "csv_file") (csv_file_of (OldCli.csv_url args)));
  old_ingest csv_file (OldCli.table_name args) (Engine (old_url args)).

(** [main(args)] (lines 26-92): line 29 prints the [repr] of the
    namespace. *)
Definition old_main (args : OldCli.Args) : Proc unit :=
  print (Say "Starting the ingestion process...");;
  print (Say ("Arguments received: " +:+ ns_repr (old_ns args)));;
  old_main_body args.
End OldLoader.

(** ** The old loop is the loop of [Ingest], with the index *)

Section OldLoop.
Context `{DatetimeParser}.

(** The two normalisers are the same code. *)
Lemma convert_to_datetime_eq df cols : convert_to_datetime df cols = to_datetime df cols.
Proof.
  revert df. induction cols as [|c cs IH]; intros df; [done|]. cbn [convert_to_datetime to_datetime].
  unfold convert_column. destruct (if bool_decide _ then _ else _); [apply IH|done].
Qed.

Lemma datetime_columns_eq : datetime_columns = DATETIME_COLS.
Proof. done. Qed.

Context (f : CsvFile) (db : DB) (tbl : string) (eng : Conn).
Hypothesis Hnd : NoDup (table_cols true (header f)).

(** With more iterations than [reader_measure], the loop ends normally
    exactly when the one-shot load succeeds; on an exception the table
    keeps the rows of every chunk appended before it. *)
Lemma old_loop_spec fuel r w :
  table_inv f db tbl eng true w r → reader_measure r < fuel →
  let '(w', o) := old_loop fuel tbl eng r w in table_post f db tbl eng true (currow r) w' (is_ok o).
Proof.
  revert r w. induction fuel as [|fuel IH]; intros r w Hinv Hm; [lia|]. cbn [old_loop].
  pose proof (loop_cases f db tbl eng true Hnd w r Hinv) as Hc.
  destruct (next_chunk r) as [[chunk r']|[]]; try apply Hc.
  - destruct Hc as [Hlt Hc]. rewrite convert_to_datetime_eq, datetime_columns_eq.
    destruct (to_datetime chunk DATETIME_COLS) as [c'|e].
    + destruct Hc as (w1 & Hexec & _ & Hinv1 & Hcur).
      rewrite (proc_bind_Ok _ _ _ _ _ (lift_run _ _)), (proc_bind_Ok _ _ _ _ _ Hexec),
        (proc_bind_Ok _ _ _ _ _ (print_run _ _)). set (w2 := set_stdout w1 _).
      pose proof (IH r' w2 (proj2 (table_inv_print _ _ _ _ _ _ _ _) Hinv1) ltac:(lia)) as IH'.
      destruct (old_loop _ _ _ _ _) as [w' o]. eapply table_post_mono; [|exact IH']. lia.
    + by rewrite (proc_bind_Err _ _ _ _ _ (lift_run _ _)).
Qed.
End OldLoop.

(** ** Reading and writing the file *)

Section OldIngest.
Context `{DatetimeParser}.

Lemma fails_before_write {A} (o : res A) (r : res Table) (P : Table → Prop) (Q : Prop) :
  is_ok o = false → is_ok r = false → Q →
  is_ok o = is_ok r ∧ (∀ t, r = Ok t → P t) ∧ (is_ok o = false → Q).
Proof. intros Ho Hr HQ. split_and!; [congruence | intros t ->; discriminate | done]. Qed.

(** [old_ingest] on a file [f]: it ends normally exactly when the
    one-shot load with the index succeeds, and then the table is the
    one-shot table; when it raises, either nothing was written or the
    table holds the one-shot rows of a prefix of the file at least one
    chunk long. *)
Lemma old_ingest_run csv tbl eng w f db :
  files w !! csv = Some f → conn_db w eng = Some db → NoDup (table_cols true (header f)) →
  let '(w', o) := old_ingest csv tbl eng w in
  is_ok o = is_ok (load_all_at true f) ∧
  (∀ t, load_all_at true f = Ok t → conn_db w' eng = Some (<[tbl := t]> db)) ∧
  (is_ok o = false →
   (conn_db w' eng = Some db ∧
    (header f = [] ∨ is_ok (load_rows (header f) (take (Z.to_nat 100000) (records f))) = false)) ∨
   table_post f db tbl eng true (length (take (Z.to_nat 100000) (records f))) w' false).
Proof.
  intros Hf Hdb Hnd. pose proof (table_cols_NoDup _ _ Hnd) as Hnd'. unfold old_ingest.
  assert (Hopen := open_csv_run csv 100000 w f Hf).
  destruct (read_csv f 100000) as [r0|e] eqn:Hr.
  2:{ rewrite (proc_bind_Err _ _ _ _ _ Hopen).
      apply read_csv_Err in Hr as [[? _]|(_ & Hh & _)]; [lia|].
      unfold load_all_at. rewrite bool_decide_true by done.
      split_and!; [done | discriminate | intros _; left; by split; [|left]]. }
  rewrite (proc_bind_Ok _ _ _ _ _ Hopen), (proc_bind_Ok _ _ _ _ _ (print_run _ _)).
  set (w1 := set_stdout w _).
  destruct (next_chunk r0) as [[c0 r1]|e] eqn:Hnext.
  2:{ rewrite (proc_bind_Err _ _ _ _ _ (lift_run _ _)).
      assert (Hfc : is_ok (c0r1 ← next_chunk r0; to_datetime c0r1.1 DATETIME_COLS) = false)
        by (by rewrite Hnext).
      apply fails_before_write; [done | by eapply first_chunk_fails |].
      left. split; [done | right; by eapply first_chunk_load_fails]. }
  rewrite (proc_bind_Ok _ _ _ _ _ (lift_run _ _)). cbn beta iota.
  rewrite (proc_bind_Ok _ _ _ _ _ (print_run _ _)). set (w2 := set_stdout w1 _).
  rewrite convert_to_datetime_eq, datetime_columns_eq.
  destruct (to_datetime c0 DATETIME_COLS) as [c0'|e] eqn:Htd.
  2:{ rewrite (proc_bind_Err _ _ _ _ _ (lift_run _ _)).
      assert (Hfc : is_ok (c0r1 ← next_chunk r0; to_datetime c0r1.1 DATETIME_COLS) = false)
        by (by rewrite Hnext, bind_Ok; cbn [fst]; rewrite Htd).
      apply fails_before_write; [done | by eapply first_chunk_fails |].
      left. split; [by subst w2 w1; rewrite !conn_db_print | right; by eapply first_chunk_load_fails]. }
  rewrite (proc_bind_Ok _ _ _ _ _ (lift_run _ _)).
  assert (Hdb2 : conn_db w2 eng = Some db) by (subst w2 w1; by rewrite !conn_db_print).
  destruct (ingest_replace true f db tbl eng w2 100000 r0 c0 r1 c0' Hnd Hdb2 Hr Hnext Htd) as [Hrep Hinv0].
  rewrite (proc_bind_Ok _ _ _ _ _ Hrep).
  destruct (loop_step f db tbl eng true Hnd _ _ _ _ _ Hinv0 Hnext Htd) as (w3 & Happ & _ & Hinv1 & _).
  rewrite (proc_bind_Ok _ _ _ _ _ Happ).
  destruct (read_csv_Ok _ _ _ Hr) as (Hat & Hc0 & _ & Hcs & _ & Hh).
  assert (Hlo : length (take (Z.to_nat 100000) (records f)) ≤ currow r1).
  { destruct (next_chunk_at _ _ _ _ Hat Hnext) as (_ & _ & Htake).
    rewrite Hc0, Hcs, take_0, drop_0, app_nil_l in Htake. rewrite <- Htake, length_take. lia. }
  pose proof (old_loop_spec f db tbl eng Hnd (S (reader_measure r1)) r1 w3 Hinv1 (Nat.lt_succ_diag_r _))
    as Hloop.
  destruct (old_loop _ _ _ _ w3) as [w4 [[]|e]] eqn:Hl.
  - rewrite (proc_bind_Ok _ _ _ _ _ Hl), print_run.
    destruct (load_all_holds _ _ _ _ _ _ Hh Hloop) as (t & Ht & Hdb4).
    rewrite Ht. split_and!; [done | | discriminate]. intros t' [= <-]. by rewrite conn_db_print.
  - rewrite (proc_bind_Err _ _ _ _ _ Hl). destruct Hloop as [Hfail Hm].
    rewrite load_all_is_ok by done. split_and!; [by rewrite Hfail | |].
    + intros t Ht. assert (Hok := load_all_is_ok true f Hh). by rewrite Ht, Hfail in Hok.
    + intros _. right. eapply table_post_mono; [exact Hlo|]. by split.
Qed.
End OldIngest.

(** ** [old_main]: download, connect, then [old_ingest] *)

Section OldMain.
Context `{DatetimeParser}.

Lemma download_cached url csv w :
  csv_file_of url = Some csv → is_Some (files w !! csv) → download url w = (w, Ok tt).
Proof. intros Hc Hs. unfold download. rewrite Hc. by rewrite bool_decide_true. Qed.

Lemma download_fetch url csv w status body :
  csv_file_of url = Some csv → files w !! csv = None → web w !! url = Some (status, body) →
  ∃ w1, download url w = (w1, Ok tt) ∧ files w1 = <[csv := body]> (files w) ∧ servers w1 = servers w.
Proof.
  intros Hc Hn Hw. unfold download. rewrite Hc, bool_decide_false by (rewrite Hn; apply is_Some_None).
  rewrite (proc_bind_Ok _ _ _ _ _ (print_run _ _)). unfold curl. simpl. rewrite Hw. by eexists.
Qed.

Lemma connect_run url w db : servers w !! url = Some db → connect url w = (w, Ok tt).
Proof. unfold connect. by intros ->. Qed.

(** The world after the two prints of lines 28-29. *)
Definition old_banner (args : OldCli.Args) (w : World) : World :=
  ((print (Say "Starting the ingestion process...");;
    print (Say ("Arguments received: " +:+ ns_repr (old_ns args)))) w).1.

Lemma old_main_banner args w : old_main args w = old_main_body args (old_banner args w).
Proof.
  unfold old_main, old_banner.
  by rewrite (proc_bind_Ok _ _ _ _ _ (print_run _ _)), (proc_bind_Ok _ _ _ _ _ (print_run _ _)).
Qed.

(** Once the file is in place and the server answers, [old_main] is
    [old_ingest] on the local file, through an engine. *)
Lemma old_main_ingest args w csv w1 db :
  csv_file_of (OldCli.csv_url args) = Some csv →
  download (OldCli.csv_url args) (old_banner args w) = (w1, Ok tt) →
  servers w1 !! old_url args = Some db →
  ∃ w2, old_main args w = old_ingest csv (OldCli.table_name args) (Engine (old_url args)) w2 ∧
        files w2 = files w1 ∧ servers w2 = servers w1.
Proof.
  intros Hc Hd Hs. rewrite old_main_banner. unfold old_main_body.
  rewrite (proc_bind_Ok _ _ _ _ _ Hd).
  rewrite (proc_bind_Ok _ _ _ _ _ (print_run _ _)).
  rewrite (proc_bind_Ok _ _ _ _ _
             (connect_run (old_url args) (set_stdout w1 (stdout w1 ++ [Say "Connecting to the database..."])) db Hs)).
  rewrite (proc_bind_Ok _ _ _ _ _ (print_run _ _)), Hc. cbn [of_option].
  rewrite (proc_bind_Ok _ _ _ _ _ (lift_run _ _)). by eexists.
Qed.

(** [old_main] with the file [f] in place after the download step. *)
Lemma old_main_run args w csv w1 f db :
  csv_file_of (OldCli.csv_url args) = Some csv →
  download (OldCli.csv_url args) (old_banner args w) = (w1, Ok tt) →
  files w1 !! csv = Some f → servers w1 !! old_url args = Some db →
  NoDup (table_cols true (header f)) →
  let '(w', o) := old_main args w in
  is_ok o = is_ok (load_all_at true f) ∧
  (∀ t, load_all_at true f = Ok t → servers w' !! old_url args = Some (<[OldCli.table_name args := t]> db)) ∧
  (is_ok o = false →
   (servers w' !! old_url args = Some db ∧
    (header f = [] ∨ is_ok (load_rows (header f) (take (Z.to_nat 100000) (records f))) = false)) ∨
   table_post f db (OldCli.table_name args) (Engine (old_url args)) true
              (length (take (Z.to_nat 100000) (records f))) w' false).
Proof.
  intros Hc Hd Hf Hs Hnd. destruct (old_main_ingest _ _ _ _ _ Hc Hd Hs) as (w2 & -> & Hf2 & Hs2).
  apply old_ingest_run; [by rewrite Hf2 | simpl; by rewrite Hs2 | done].
Qed.
End OldMain.

(** ** What the old loader does *)

Section OldTheorems.
Context `{DatetimeParser}.

(** C10: with its local file [csv_file] present, [old_main] loads that file,
    whatever the URL serves now: it ends normally exactly when the
    one-shot load with the index succeeds, and the server's table is
    then the one-shot table with its ["index"] column. *)
Theorem old_main_refines args w csv f db w' o :
  csv_file_of (OldCli.csv_url args) = Some csv → files w !! csv = Some f →
  servers w !! old_url args = Some db → NoDup (table_cols true (header f)) →
  old_main args w = (w', o) →
  is_ok o = is_ok (load_all_at true f) ∧
  ∀ t, load_all_at true f = Ok t → servers w' !! old_url args = Some (<[OldCli.table_name args := t]> db).
Proof.
  intros Hc Hf Hs Hnd Hrun.
  assert (Hd : download (OldCli.csv_url args) (old_banner args w) = (old_banner args w, Ok tt))
    by (apply (download_cached _ csv); [done | by exists f]).
  pose proof (old_main_run args w csv _ f db Hc Hd Hf Hs Hnd) as Hr. rewrite Hrun in Hr.
  by destruct Hr as (? & ? & _).
Qed.

(** C9: partial writes.  When the first chunk of 100000 records loads but a
    later one does not, [old_main] raises after committing the first
    chunk: the server's table holds the one-shot rows of a prefix of at
    least 100000, but not all, of the records. *)
Theorem old_main_partial args w csv f db w' e :
  csv_file_of (OldCli.csv_url args) = Some csv → files w !! csv = Some f →
  servers w !! old_url args = Some db → NoDup (table_cols true (header f)) → header f ≠ [] →
  is_ok (load_rows (header f) (take (Z.to_nat 100000) (records f))) = true →
  old_main args w = (w', Err e) →
  ∃ m T, Z.to_nat 100000 ≤ m < length (records f) ∧
         load_rows_at true (header f) 0 (take m (records f)) = Ok T ∧
         servers w' !! old_url args =
           Some (<[OldCli.table_name args := mkTable (table_cols true (header f)) T]> db).
Proof.
  intros Hc Hf Hs Hnd Hh Hfirst Hrun.
  assert (Hd : download (OldCli.csv_url args) (old_banner args w) = (old_banner args w, Ok tt))
    by (apply (download_cached _ csv); [done | by exists f]).
  pose proof (old_main_run args w csv _ f db Hc Hd Hf Hs Hnd) as Hr. rewrite Hrun in Hr.
  destruct Hr as (_ & _ & Hfail).
  destruct (Hfail eq_refl) as [[_ [?|?]]|[Hall (m & Hm & T & HT & Hdb)]]; [done | congruence |].
  exists m, T. split; [|split; [done | exact Hdb]].
  assert (m ≠ length (records f)).
  { intros ->. rewrite take_ge in HT by done.
    pose proof (load_rows_at_is_ok (header f) true 0 (records f)) as Hok.
    by rewrite HT, Hall in Hok. }
  rewrite length_take in Hm. lia.
Qed.

(** C22: [curl] without [--fail].  For an http URL that does not end in
    [.gz] (saved as [data.csv], which [compression='infer'] reads as
    plain text), when the local file is absent and the URL answers with
    any HTTP status, an error page included, [old_main] saves the body as
    its local file and loads it as the data. *)
Theorem old_main_downloads args w status body db w' o :
  csv_file_of (OldCli.csv_url args) = Some "data.csv" → files w !! "data.csv" = None →
  web w !! OldCli.csv_url args = Some (status, body) →
  servers w !! old_url args = Some db → NoDup (table_cols true (header body)) →
  old_main args w = (w', o) →
  is_ok o = is_ok (load_all_at true body) ∧
  ∀ t, load_all_at true body = Ok t →
       servers w' !! old_url args = Some (<[OldCli.table_name args := t]> db).
Proof.
  intros Hc Hf Hw Hs Hnd Hrun.
  destruct (download_fetch _ "data.csv" (old_banner args w) status body Hc Hf Hw) as (w1 & Hd & Hf1 & Hs1).
  assert (Hb : files w1 !! "data.csv" = Some body) by (rewrite Hf1; apply lookup_insert_eq).
  pose proof (old_main_run args w "data.csv" w1 body db Hc Hd Hb ltac:(by rewrite Hs1) Hnd) as Hr.
  rewrite Hrun in Hr. by destruct Hr as (? & ? & _).
Qed.

(** C11: a local path, which [ingest_data.py] accepts: the [if] of line 39 is
    not taken, [csv_file] stays unbound and [old_main] raises
    [UnboundLocalError] after connecting, even when the file exists;
    no database changes. *)
Theorem old_main_local_path args w db w' o :
  csv_file_of (OldCli.csv_url args) = None → servers w !! old_url args = Some db →
  old_main args w = (w', o) →
  o = raise (UnboundLocalError "csv_file") ∧ servers w' = servers w.
Proof.
  intros Hc Hs. rewrite old_main_banner. unfold old_main_body.
  unfold download at 1. rewrite Hc, (proc_bind_Ok _ _ _ _ _ (ret_run _ _)).
  rewrite (proc_bind_Ok _ _ _ _ _ (print_run _ _)).
  set (w1 := set_stdout _ _).
  rewrite (proc_bind_Ok _ _ _ _ _ (connect_run (old_url args) w1 db Hs)).
  rewrite (proc_bind_Ok _ _ _ _ _ (print_run _ _)). cbn [of_option].
  rewrite (proc_bind_Err _ _ _ _ _ (lift_run _ _)). by intros [= <- <-].
Qed.
End OldTheorems.

(** ** Witnesses *)

Module OldExamples.
#[local] Existing Instance IsoParser.iso_parser.

Definition csv_gz : string :=
  "https://github.com/DataTalksClub/nyc-tlc-data/releases/download/yellow/yellow_tripdata_2021-01.csv.gz".

Definition args (csv_url : string) : OldCli.Args :=
  OldCli.mkArgs "root" "root" "localhost" "5432" "ny_taxi" "yellow_taxi_data" csv_url.

Definition url : string := old_url (args csv_gz).

(** What the URL serves now: a file other than the cached one. *)
Definition served : CsvFile := mkCsv (header Examples.taxi) [].

Definition world (cached : gmap string CsvFile) (status : nat) (body : CsvFile) : World :=
  mkWorld cached {[csv_gz := (status, body)]} {[url := ∅]} ∅ [].

Lemma old_main_refines_witness :
  ∃ w' o, old_main (args csv_gz) (world {["data.csv.gz" := Examples.taxi]} 200 served) = (w', o) ∧
          is_ok o = is_ok (load_all_at true Examples.taxi).
Proof.
  destruct (old_main (args csv_gz) (world {["data.csv.gz" := Examples.taxi]} 200 served))
    as [w' o] eqn:Hrun.
  exists w', o. split; [done|].
  refine (proj1 (old_main_refines _ _ "data.csv.gz" Examples.taxi ∅ _ _ _ _ _ _ Hrun));
    [reflexivity | reflexivity | reflexivity |].
  apply (bool_decide_unpack _). vm_compute. exact I.
Defined.

(** 100000 good records, then one whose pickup time does not parse. *)
Definition good : list string := ["1"; "2021-01-01 00:30:10"; "2021-01-01 00:36:12"; "8"].
Definition bad : list string := ["2"; "01/01/2021 00:43"; "2021-01-01 01:00:00"; "9"].
Definition big : CsvFile :=
  mkCsv (header Examples.taxi) (replicate (Z.to_nat 100000) good ++ [bad]).

Lemma big_first_chunk :
  is_ok (load_rows (header big) (take (Z.to_nat 100000) (records big))) = true.
Proof.
  cbn [records big]. rewrite <- (length_replicate (Z.to_nat 100000) good) at 1.
  rewrite take_app_length. apply load_rows_at_ok_iff.
  - apply (bool_decide_unpack _). vm_compute. exact I.
  - apply Forall_replicate. vm_compute. reflexivity.
Qed.

Lemma big_fails : is_ok (load_all_at true big) = false.
Proof.
  apply not_true_iff_false. unfold load_all_at. rewrite bool_decide_false by discriminate.
  intros Hok. assert (Hl : is_ok (load_rows_at true (header big) 0 (records big)) = true)
    by (by destruct (load_rows_at _ _ _ _)).
  apply load_rows_at_ok_iff, Forall_app in Hl as [_ Hb];
    [|apply (bool_decide_unpack _); vm_compute; exact I].
  apply Forall_inv in Hb. vm_compute in Hb. discriminate.
Qed.

Lemma old_main_partial_witness :
  ∃ w' e m T, old_main (args csv_gz) (world {["data.csv.gz" := big]} 200 served) = (w', Err e) ∧
    Z.to_nat 100000 ≤ m < length (records big) ∧
    servers w' !! url = Some {["yellow_taxi_data" := mkTable (table_cols true (header big)) T]}.
Proof.
  destruct (old_main (args csv_gz) (world {["data.csv.gz" := big]} 200 served)) as [w' o] eqn:Hrun.
  assert (Hnd : NoDup (table_cols true (header big)))
    by (apply (bool_decide_unpack _); vm_compute; exact I).
  destruct o as [u|e].
  - exfalso. pose proof (old_main_run (args csv_gz) (world {["data.csv.gz" := big]} 200 served)
                           "data.csv.gz" (old_banner (args csv_gz) (world {["data.csv.gz" := big]} 200 served)) big ∅
                           ltac:(reflexivity) ltac:(reflexivity) ltac:(reflexivity) ltac:(reflexivity) Hnd)
      as Hr.
    rewrite Hrun in Hr. destruct Hr as [Hok _]. by rewrite big_fails in Hok.
  - destruct (old_main_partial (args csv_gz) (world {["data.csv.gz" := big]} 200 served)
                "data.csv.gz" big ∅ w' e ltac:(reflexivity) ltac:(reflexivity) ltac:(reflexivity) Hnd
                ltac:(discriminate) big_first_chunk Hrun) as (m & T & Hm & _ & Hdb).
    exists w', e, m, T. split; [reflexivity | split; [exact Hm | exact Hdb]].
Defined.

(** A 404 page, saved by [curl] as the data file. *)
Definition not_found : CsvFile := mkCsv ["<html><body>Not Found</body></html>"] [].

(** The same month as an uncompressed file. *)
Definition csv_plain : string :=
  "https://github.com/DataTalksClub/nyc-tlc-data/releases/download/yellow/yellow_tripdata_2021-01.csv".

Definition world_plain (status : nat) (body : CsvFile) : World :=
  mkWorld ∅ {[csv_plain := (status, body)]} {[url := ∅]} ∅ [].

Lemma old_main_downloads_witness :
  ∃ w' o, old_main (args csv_plain) (world_plain 404 not_found) = (w', o) ∧
          is_ok o = is_ok (load_all_at true not_found) ∧ is_ok o = true.
Proof.
  destruct (old_main (args csv_plain) (world_plain 404 not_found)) as [w' o] eqn:Hrun.
  assert (Hok : is_ok o = is_ok (load_all_at true not_found)).
  { refine (proj1 (old_main_downloads _ _ 404 not_found ∅ _ _ _ _ _ _ _ Hrun));
      [reflexivity | reflexivity | reflexivity | reflexivity |].
    apply (bool_decide_unpack _). vm_compute. exact I. }
  exists w', o. split_and!; [done | exact Hok | rewrite Hok; vm_compute; reflexivity].
Defined.

Lemma old_main_local_path_witness :
  ∃ w', old_main (args "yellow_tripdata_2021-01.csv")
          (mkWorld {["yellow_tripdata_2021-01.csv" := Examples.taxi]} ∅ {[url := ∅]} ∅ []) =
        (w', raise (UnboundLocalError "csv_file")).
Proof.
  destruct (old_main (args "yellow_tripdata_2021-01.csv")
              (mkWorld {["yellow_tripdata_2021-01.csv" := Examples.taxi]} ∅ {[url := ∅]} ∅ []))
    as [w' o] eqn:Hrun.
  exists w'. f_equal.
  exact (proj1 (old_main_local_path (args "yellow_tripdata_2021-01.csv")
                  (mkWorld {["yellow_tripdata_2021-01.csv" := Examples.taxi]} ∅ {[url := ∅]} ∅ [])
                  ∅ w' o ltac:(reflexivity) ltac:(reflexivity) Hrun)).
Defined.
End OldExamples.
