(* ===== verification/Dag.v ===== *)
(** * Dag: the Airflow DAG [yellow_taxi_to_gcs_2024_h1]
    (src/M03_Homework/airflow_project/dags/gcs_ingest_taxi.py)

    The DAG is plain data handed to Airflow: for each month of
    January-June 2024 a task group with three tasks, [download_file] >>
    [upload_to_gcs] >> [verify_gcs].  [dag_tasks] is the task list the
    module builds (lines 86-102), with each task's id, operation,
    upstream ids and retry count; the retry count comes from the DAG's
    [default_args], which the [DAG(...)] call of lines 34-39 does not
    receive, so it is Airflow's default, 0.

    The tasks act on a [DagWorld]: the local disk, what the web answers
    to successive GET requests, and the GCS objects.  [download_file]
    (lines 43-61) keeps a local file that exists, else streams the body
    into it; [upload_to_gcs] (lines 65-74) copies a local file to a
    bucket; [verify_gcs] (lines 78-83) checks an object exists.  The
    executor [dag_run] (Airflow's, modelled from its documented
    behaviour) runs the tasks in list order, which the theorems show is
    a topological order, skips a task whose upstream did not succeed,
    and retries a failing task [task_retries] times. *)

From S2P Require Import Prelude EngineUrl.

(** ** The module's constants (lines 20-32) *)

(** [f"{m:02d}"] *)
Definition fmt02 (m : Z) : string := if (m <? 10)%Z then "0" +:+ py_str_int m else py_str_int m.

Definition BASE_URL : string := "https://d37ci6vzurychx.cloudfront.net/trip-data".

(** [[f"{m:02d}" for m in range(1, 7)]] *)
Definition MONTHS : list string := map (λ m, fmt02 (Z.of_nat m)) (seq 1 6).

(** [[f"yellow_tripdata_2024-{m}.parquet" for m in MONTHS]] *)
Definition FILES : list string := map (λ m, "yellow_tripdata_2024-" +:+ m +:+ ".parquet") MONTHS.

Definition LOCAL_DIR : string := "/tmp/taxi_2024_h1".
Definition GCP_PROJECT_ID : string := "dtc-de-course-466908".
Definition GCP_GCS_BUCKET : string := "dtc-de-course-466908-m03-bucket".

Record DefaultArgs : Type := mkDefaultArgs {
  owner : string; retries : nat; retry_delay_minutes : nat
}.

Definition default_args : DefaultArgs := mkDefaultArgs "airflow" 2 5.

(** The arguments of [DAG(...)]; [start_date] as (year, month, day). *)
Record DagDecl : Type := mkDag {
  dag_id : string; description : string; start_date : nat * nat * nat;
  max_active_runs : nat; dag_default_args : option DefaultArgs
}.

(** Lines 34-39: no [default_args=default_args]. *)
Definition dag : DagDecl :=
  mkDag "yellow_taxi_to_gcs_2024_h1" "Stage Jan-Jun 2024 Yellow Taxi Parquet files to GCS"
        (2025, 8, 4) 1 None.

(** ** Tasks *)

(** What a task runs; [Upload] reads its source path from the return
    value (XCom) of the task [src]. *)
Inductive Op : Type :=
| Download (file_name : string)
| Upload (src : string) (bucket_name file_name : string)
| Verify (file_name bucket_name : string).

Record Task : Type := mkTask {
  task_id : string; op : Op; upstream : list string; task_retries : nat
}.

(** A task's retries: the DAG's [default_args], else Airflow's default
    [retries=0]. *)
Definition effective_retries (d : DagDecl) : nat :=
  match dag_default_args d with Some a => retries a | None => 0 end.

(** The id of a task of the group [process_month_{month}]: Airflow
    prefixes the [task_id] given to [override] with the group id. *)
Definition group_task_id (month name : string) : string :=
  ("process_month_" +:+ month) +:+ "." +:+ name.

(** One iteration of the loop of lines 86-102: the task group, its
    three tasks and [download_task >> upload_task >> verify_task].
    [clean_name] (line 87) is unused. *)
Definition month_group (d : DagDecl) (month file_name : string) : list Task :=
  let did := group_task_id month ("download_" +:+ file_name) in
  let uid := group_task_id month ("upload_" +:+ file_name) in
  let vid := group_task_id month ("verify_" +:+ file_name) in
  let r := effective_retries d in
  [mkTask did (Download file_name) [] r;
   mkTask uid (Upload did GCP_GCS_BUCKET file_name) [did] r;
   mkTask vid (Verify file_name GCP_GCS_BUCKET) [uid] r].

(** [for month, file_name in zip(MONTHS, FILES): ...] *)
Definition dag_tasks (d : DagDecl) : list Task :=
  concat (map (λ mf, month_group d mf.1 mf.2) (zip MONTHS FILES)).

(** ** The world the tasks act on *)

(** The answer to one GET: no answer, or a status and a body streamed in
    chunks, the connection breaking after [broken_after] chunks. *)
Inductive Response : Type :=
| Unreachable
| Resp (status : nat) (body : list string) (broken_after : option nat).

Record DagWorld : Type := mkDagWorld {
  local : gmap string (list string);        (** path to the chunks written *)
  web : gmap string (list Response);        (** URL to the answers of successive GETs *)
  gcs : gmap (string * string) (list string);  (** (bucket, object) to content *)
  log : list string
}.

Definition DProc (A : Type) : Type := DagWorld → DagWorld * res A.

#[export] Instance dproc_ret : MRet DProc := λ A a w, (w, Ok a).
#[export] Instance dproc_bind : MBind DProc := λ A B f m w,
  match m w with
  | (w', Ok a) => f a w'
  | (w', Err e) => (w', Err e)
  end.

Definition dprint (s : string) : DProc unit := λ w,
  (mkDagWorld (local w) (web w) (gcs w) (log w ++ [s]), Ok tt).

Definition draise {A} (e : Exc) : DProc A := λ w, (w, Err e).

(** [requests.get(url, stream=True, timeout=60)]: the next answer. *)
Definition http_get (url : string) : DProc (nat * list string * option nat) := λ w,
  match web w !! url with
  | Some (Resp st body brk :: rest) =>
      (mkDagWorld (local w) (<[url := rest]> (web w)) (gcs w) (log w), Ok (st, body, brk))
  | Some (Unreachable :: rest) =>
      (mkDagWorld (local w) (<[url := rest]> (web w)) (gcs w) (log w), Err (ConnectionError url))
  | _ => (w, Err (ConnectionError url))
  end.

(** [with open(local_path, "wb") as f: for chunk in r.iter_content(...):
    f.write(chunk)]: the file is created empty, then each chunk is
    appended; a broken connection raises with the chunks so far on disk. *)
Definition write_stream (path url : string) (body : list string) (brk : option nat) : DProc unit := λ w,
  match brk with
  | Some k => (mkDagWorld (<[path := take k body]> (local w)) (web w) (gcs w) (log w),
               Err (ConnectionError url))
  | None => (mkDagWorld (<[path := body]> (local w)) (web w) (gcs w) (log w), Ok tt)
  end.

(** [LOCAL_DIR / file_name] *)
Definition local_path_of (file_name : string) : string := LOCAL_DIR +:+ "/" +:+ file_name.

(** [download_file(file_name)] (lines 43-61). *)
Definition download_file (file_name : string) : DProc string := λ w,
  let local_path := local_path_of file_name in
  if bool_decide (is_Some (local w !! local_path)) then (w, Ok local_path)
  else
    (let url := BASE_URL +:+ "/" +:+ file_name in
     dprint ("Downloading " +:+ url);;
     '(st, body, brk) ← http_get url;
     (if bool_decide (400 ≤ st) then draise (HTTPError url) else mret tt);;
     write_stream local_path url body brk;;
     dprint ("Saved " +:+ local_path);;
     mret local_path) w.

(** [upload_to_gcs(source_path, bucket_name, file_name)] (lines 65-74). *)
Definition upload_to_gcs (source_path bucket_name file_name : string) : DProc unit := λ w,
  match local w !! source_path with
  | Some content =>
      (mkDagWorld (local w) (web w) (<[(bucket_name, file_name) := content]> (gcs w))
                  (log w ++ ["Uploaded " +:+ file_name +:+ " to GCS bucket " +:+ bucket_name +:+ "."]),
       Ok tt)
  | None => (w, Err (FileNotFoundError source_path))
  end.

(** [verify_gcs(file_name, bucket_name)] (lines 78-83). *)
Definition verify_gcs (file_name bucket_name : string) : DProc unit := λ w,
  if bool_decide (is_Some (gcs w !! (bucket_name, file_name)))
  then dprint ("Verified " +:+ file_name +:+ " exists in GCS bucket " +:+ bucket_name +:+ ".") w
  else (w, Err (FileNotFoundError file_name)).

(** ** The executor *)

Inductive TState : Type := Success | Failed | UpstreamFailed.

#[export] Instance TState_eq_dec : EqDecision TState.
Proof. solve_decision. Defined.

(** The state of a DAG run: each task's state and return value. *)
Record DagRun : Type := mkRun { states : gmap string TState; xcom : gmap string string }.

(** A task's operation; the value is its XCom ([""] for [None]). *)
Definition run_op (xc : gmap string string) (o : Op) : DProc string :=
  match o with
  | Download f => download_file f
  | Upload src b f =>
      match xc !! src with
      | Some p => upload_to_gcs p b f;; mret ""
      | None => draise (ValueError ("no XCom from " +:+ src))
      end
  | Verify f b => verify_gcs f b;; mret ""
  end.

(** Run [m], retrying it up to [n] times while it raises. *)
Fixpoint with_retries {A} (n : nat) (m : DProc A) : DProc A := λ w,
  match m w with
  | (w', Ok a) => (w', Ok a)
  | (w', Err e) => match n with 0 => (w', Err e) | S n' => with_retries n' m w' end
  end.

(** One task: skipped when an upstream task did not succeed, else run
    with its retries. *)
Definition run_task (t : Task) (w : DagWorld) (r : DagRun) : DagWorld * DagRun :=
  if forallb (λ u, bool_decide (states r !! u = Some Success)) (upstream t) then
    match with_retries (task_retries t) (run_op (xcom r) (op t)) w with
    | (w', Ok v) => (w', mkRun (<[task_id t := Success]> (states r)) (<[task_id t := v]> (xcom r)))
    | (w', Err _) => (w', mkRun (<[task_id t := Failed]> (states r)) (xcom r))
    end
  else (w, mkRun (<[task_id t := UpstreamFailed]> (states r)) (xcom r)).

Fixpoint dag_run (ts : list Task) (w : DagWorld) (r : DagRun) : DagWorld * DagRun :=
  match ts with
  | [] => (w, r)
  | t :: ts' => let '(w', r') := run_task t w r in dag_run ts' w' r'
  end.

(** Every upstream id of a task is the id of an earlier task. *)
Fixpoint upstream_before (seen : list string) (ts : list Task) : bool :=
  match ts with
  | [] => true
  | t :: ts' => forallb (λ u, bool_decide (u ∈ seen)) (upstream t) &&
                upstream_before (task_id t :: seen) ts'
  end.

(** The run succeeded: every task is in state [Success]. *)
Definition run_succeeded (ts : list Task) (r : DagRun) : bool :=
  forallb (λ t, bool_decide (states r !! task_id t = Some Success)) ts.

(** ** Running tasks *)

Lemma dag_run_app ts1 ts2 w r :
  dag_run (ts1 ++ ts2) w r = let '(w', r') := dag_run ts1 w r in dag_run ts2 w' r'.
Proof.
  revert w r. induction ts1 as [|t ts IH]; intros w r; [done|]. simpl.
  destruct (run_task t w r). apply IH.
Qed.

Lemma dag_run_cons t ts w r :
  dag_run (t :: ts) w r = let '(w', r') := run_task t w r in dag_run ts w' r'.
Proof. done. Qed.

Lemma with_retries_Ok {A} n (m : DProc A) w w' a :
  m w = (w', Ok a) → with_retries n m w = (w', Ok a).
Proof. intros Hm. destruct n; simpl; by rewrite Hm. Qed.

Lemma download_file_local f w :
  is_Some (local w !! local_path_of f) → download_file f w = (w, Ok (local_path_of f)).
Proof. intros Hs. unfold download_file. by rewrite bool_decide_true. Qed.

Section Group.
Context (d : DagDecl) (m f : string).

(** A month's group after its download returned [p] holding [c]: the
    three tasks succeed and the object [f] of the bucket holds [c]. *)
Lemma group_run w r w1 p c :
  with_retries (effective_retries d) (download_file f) w = (w1, Ok p) →
  local w1 !! p = Some c →
  ∃ l, dag_run (month_group d m f) w r =
       (mkDagWorld (local w1) (web w1) (<[(GCP_GCS_BUCKET, f) := c]> (gcs w1)) l,
        mkRun (<[group_task_id m ("verify_" +:+ f) := Success]>
                 (<[group_task_id m ("upload_" +:+ f) := Success]>
                    (<[group_task_id m ("download_" +:+ f) := Success]> (states r))))
              (<[group_task_id m ("verify_" +:+ f) := ""]>
                 (<[group_task_id m ("upload_" +:+ f) := ""]>
                    (<[group_task_id m ("download_" +:+ f) := p]> (xcom r))))).
Proof.
  intros Hd Hp. cbn [month_group dag_run].
  unfold run_task at 1. cbn [upstream forallb op task_id task_retries run_op states xcom]. rewrite Hd.
  unfold run_task at 1. cbn [upstream forallb op task_id task_retries run_op states xcom].
  rewrite lookup_insert_eq, bool_decide_true by done. cbn [andb]. rewrite lookup_insert_eq.
  rewrite (with_retries_Ok _ _ _
             (mkDagWorld (local w1) (web w1) (<[(GCP_GCS_BUCKET, f) := c]> (gcs w1))
                (log w1 ++ ["Uploaded " +:+ f +:+ " to GCS bucket " +:+ GCP_GCS_BUCKET +:+ "."])) "");
    [|unfold mbind, dproc_bind, upload_to_gcs; by rewrite Hp].
  unfold run_task. cbn [upstream forallb op task_id task_retries run_op states xcom].
  rewrite lookup_insert_eq, bool_decide_true by done. cbn [andb].
  erewrite (with_retries_Ok _ _ _ _ ""); [eexists; reflexivity|].
  unfold mbind, dproc_bind, verify_gcs. simpl. rewrite lookup_insert_eq.
  rewrite bool_decide_true by (by eexists). reflexivity.
Qed.
End Group.

Lemma lookup_inserts_same `{Countable K} {V} (ks : list K) (x : V) (mp : gmap K V) i :
  foldr (λ k mp, <[k := x]> mp) mp ks !! i = if bool_decide (i ∈ ks) then Some x else mp !! i.
Proof.
  induction ks as [|k ks IH]; simpl; [first [done | by rewrite bool_decide_false by set_solver]|].
  destruct (decide (i = k)) as [->|Hne]; [by rewrite lookup_insert_eq, bool_decide_true by set_solver|].
  rewrite lookup_insert_ne by done. rewrite IH. by repeat case_bool_decide; set_solver.
Qed.

Definition groups (d : DagDecl) (ps : list (string * string)) : list Task :=
  concat (map (λ mf, month_group d mf.1 mf.2) ps).

(** Every month's file already on disk: each group succeeds without a
    GET and uploads the local file as it is. *)
Lemma groups_run_local d ps w r :
  (∀ mf, mf ∈ ps → is_Some (local w !! local_path_of mf.2)) →
  let '(w', r') := dag_run (groups d ps) w r in
  local w' = local w ∧ web w' = web w ∧
  (∀ b o, gcs w' !! (b, o) =
     if bool_decide (b = GCP_GCS_BUCKET ∧ o ∈ map snd ps) then local w !! local_path_of o
     else gcs w !! (b, o)) ∧
  (∀ i, states r' !! i =
     if bool_decide (i ∈ map task_id (groups d ps)) then Some Success else states r !! i).
Proof.
  revert w r. induction ps as [|[m f] ps IH]; intros w r Hloc.
  - simpl. split_and!; try done; intros; by rewrite bool_decide_false by set_solver.
  - unfold groups. cbn [map concat fst snd]. fold (groups d ps). rewrite dag_run_app.
    destruct (Hloc (m, f)) as [c Hc]; [set_solver|].
    destruct (group_run d m f w r w (local_path_of f) c
                (with_retries_Ok _ _ _ _ _ (download_file_local f w ltac:(by eexists))) Hc) as [l ->].
    set (w1 := mkDagWorld _ _ _ _). set (r1 := mkRun _ _).
    pose proof (IH w1 r1 ltac:(intros mf Hmf; apply Hloc; set_solver)) as IH'.
    destruct (dag_run (groups d ps) w1 r1) as [w2 r2]. destruct IH' as (Hl & Hw & Hg & Hs).
    split_and!; [done | done | |].
    + intros b o. rewrite Hg. simpl. case_bool_decide as Hin.
      * rewrite bool_decide_true by set_solver. done.
      * destruct (decide ((b, o) = (GCP_GCS_BUCKET, f))) as [[= -> ->]|Hne].
        -- rewrite lookup_insert_eq, bool_decide_true by set_solver. done.
        -- rewrite lookup_insert_ne by done. rewrite bool_decide_false; [done|].
           intros [-> Ho]. apply elem_of_cons in Ho as [->|Ho]; [done|tauto].
    + intros i. rewrite Hs. subst r1. cbn [states].
      change (<[_ := Success]> (<[_ := Success]> (<[_ := Success]> (states r)))) with
        (foldr (λ k mp, <[k := Success]> mp) (states r)
           [group_task_id m ("verify_" +:+ f); group_task_id m ("upload_" +:+ f);
            group_task_id m ("download_" +:+ f)]).
      rewrite lookup_inserts_same. cbn [month_group map task_id app].
      by repeat case_bool_decide; set_solver.
Qed.

Lemma upstream_before_spec seen ts i t u :
  upstream_before seen ts = true → ts !! i = Some t → u ∈ upstream t →
  u ∈ seen ∨ ∃ j t', j < i ∧ ts !! j = Some t' ∧ task_id t' = u.
Proof.
  revert seen i. induction ts as [|t0 ts IH]; intros seen i Hb Hi Hu; [done|].
  simpl in Hb. apply andb_true_iff in Hb as [Hup Hb]. destruct i as [|i]; simpl in Hi.
  - injection Hi as <-. left. rewrite forallb_forall in Hup.
    apply (bool_decide_eq_true_1 _), Hup. by apply list_elem_of_In.
  - destruct (IH _ _ Hb Hi Hu) as [Hs|(j & t' & Hj & Ht' & <-)].
    + apply elem_of_cons in Hs as [->|Hs]; [right; exists 0, t0; split_and!; [lia|done|done] | by left].
    + right. exists (S j), t'. split_and!; [lia|done|done].
Qed.

(** The tasks have distinct ids: 18 of them, three per month. *)
Theorem dag_task_ids_unique d :
  NoDup (map task_id (dag_tasks d)) ∧ length (dag_tasks d) = 18.
Proof. split; [apply (bool_decide_unpack _); vm_compute; exact I | reflexivity]. Qed.

(** C13: the task graph is acyclic: in the order the module declares
    them, every upstream task of a task comes before it (so
    [download >> upload >> verify] in each month and no edge between
    months). *)
Theorem dag_tasks_topological d i t u :
  dag_tasks d !! i = Some t → u ∈ upstream t →
  ∃ j t', j < i ∧ dag_tasks d !! j = Some t' ∧ task_id t' = u.
Proof.
  intros Hi Hu. assert (Hb : upstream_before [] (dag_tasks d) = true) by (vm_compute; reflexivity).
  destruct (upstream_before_spec _ _ _ _ _ Hb Hi Hu) as [Hn|]; [by apply elem_of_nil in Hn | done].
Qed.

(** [default_args] (retries 2, retry_delay 5 minutes) is built but
    not passed to [DAG(...)]: every task runs with Airflow's default of
    0 retries. *)
Theorem dag_retries_ignored :
  retries default_args = 2 ∧ ∀ t, t ∈ dag_tasks dag → task_retries t = 0.
Proof.
  split; [done|]. apply Forall_forall. apply (bool_decide_unpack _). vm_compute. exact I.
Qed.

(** C14: with every month's file already on the local disk, a run
    succeeds whatever the web serves, and uploads each local file as it
    is: a stale or partial local file is never downloaded again. *)
Theorem dag_run_uploads_local d w r :
  (∀ f, f ∈ FILES → is_Some (local w !! local_path_of f)) →
  let '(w', r') := dag_run (dag_tasks d) w r in
  run_succeeded (dag_tasks d) r' = true ∧
  ∀ f, f ∈ FILES → gcs w' !! (GCP_GCS_BUCKET, f) = local w !! local_path_of f.
Proof.
  intros Hloc. assert (Hsnd : map snd (zip MONTHS FILES) = FILES) by reflexivity.
  pose proof (groups_run_local d (zip MONTHS FILES) w r) as Hg.
  change (groups d (zip MONTHS FILES)) with (dag_tasks d) in Hg.
  destruct (dag_run (dag_tasks d) w r) as [w' r'].
  destruct Hg as (_ & _ & Hgcs & Hst).
  { intros mf Hmf. apply Hloc. rewrite <- Hsnd. by apply (list_elem_of_fmap_2 snd). }
  split.
  - unfold run_succeeded. apply forallb_forall. intros t Ht. apply bool_decide_eq_true_2.
    rewrite Hst, bool_decide_true; [done|].
    apply (list_elem_of_fmap_2 task_id). by apply list_elem_of_In.
  - intros f Hf. rewrite Hgcs, Hsnd. by rewrite bool_decide_true.
Qed.

(** [BASE_URL/file_name], the URL [download_file] requests. *)
Definition url_of (file_name : string) : string := BASE_URL +:+ "/" +:+ file_name.

(** A download whose connection breaks after [k] chunks raises, leaving
    the first [k] chunks in the local file. *)
Lemma download_file_broken f w st body k rest :
  local w !! local_path_of f = None → web w !! url_of f = Some (Resp st body (Some k) :: rest) →
  st < 400 →
  ∃ w1, download_file f w = (w1, Err (ConnectionError (url_of f))) ∧
        local w1 = <[local_path_of f := take k body]> (local w).
Proof.
  intros Hl Hw Hst. unfold download_file. rewrite Hl, bool_decide_false by (intros [? ?]; discriminate).
  unfold mbind, dproc_bind, dprint, http_get. cbn [web local gcs log]. fold (url_of f). rewrite Hw.
  rewrite bool_decide_false by lia. eexists. split; reflexivity.
Qed.

(** C15: a retry after a broken download does not download again: it
    finds the partial file and returns it as the download, so the task
    succeeds with the first [k] chunks of the body on disk. *)
Theorem download_retry_keeps_partial n f w st body k rest :
  local w !! local_path_of f = None → web w !! url_of f = Some (Resp st body (Some k) :: rest) →
  st < 400 →
  ∃ w', with_retries (S n) (download_file f) w = (w', Ok (local_path_of f)) ∧
        local w' !! local_path_of f = Some (take k body).
Proof.
  intros Hl Hw Hst. destruct (download_file_broken f w st body k rest Hl Hw Hst) as (w1 & Hd & Hl1).
  exists w1. simpl. rewrite Hd.
  rewrite (with_retries_Ok _ _ _ _ _ (download_file_local f w1 ltac:(rewrite Hl1, lookup_insert_eq; by eexists))).
  split; [done|]. by rewrite Hl1, lookup_insert_eq.
Qed.

(** ** Groups do not interfere *)

Lemma append_cancel_l (s a b : string) : s +:+ a = s +:+ b → a = b.
Proof. induction s as [|c s IH]; simpl; [done|]. intros [= H]. by apply IH. Qed.

Lemma url_of_inj g f : url_of g = url_of f → g = f.
Proof. intros H. by do 2 apply append_cancel_l in H. Qed.

Lemma local_path_of_inj g f : local_path_of g = local_path_of f → g = f.
Proof. intros H. by do 2 apply append_cancel_l in H. Qed.

(** [w'] has the local file and the web answers of [f] that [w] has. *)
Definition frames (f : string) (w w' : DagWorld) : Prop :=
  local w' !! local_path_of f = local w !! local_path_of f ∧ web w' !! url_of f = web w !! url_of f.

Lemma frames_trans f w1 w2 w3 : frames f w1 w2 → frames f w2 w3 → frames f w1 w3.
Proof. intros [? ?] [? ?]. split; congruence. Qed.

(** The file a task's operation names. *)
Definition op_file (o : Op) : string :=
  match o with Download g => g | Upload _ _ g => g | Verify g _ => g end.

Lemma download_file_frames g f w : g ≠ f → frames f w (download_file g w).1.
Proof.
  intros Hne. assert (Hu : url_of g ≠ url_of f) by (by intros ?%url_of_inj).
  assert (Hp : local_path_of g ≠ local_path_of f) by (by intros ?%local_path_of_inj).
  unfold download_file. case_bool_decide; [done|].
  unfold mbind, dproc_bind, dprint, http_get. cbn [web local gcs log]. fold (url_of g).
  destruct (web w !! url_of g) as [[|[|st body brk] rest]|]; cbn; try done;
    [unfold frames; cbn; by rewrite lookup_insert_ne|].
  case_bool_decide; cbn; [unfold frames; cbn; by rewrite lookup_insert_ne|].
  destruct brk; cbn; unfold frames; cbn; by rewrite !lookup_insert_ne.
Qed.

Lemma with_retries_frames {A} f n (m : DProc A) :
  (∀ w, frames f w (m w).1) → ∀ w, frames f w (with_retries n m w).1.
Proof.
  intros Hm. induction n as [|n IH]; intros w; simpl; destruct (m w) as [w' [a|e]] eqn:Hw;
    try (specialize (Hm w); by rewrite Hw in Hm).
  eapply frames_trans; [|apply IH]. specialize (Hm w). by rewrite Hw in Hm.
Qed.

Lemma run_op_frames f xc o w : op_file o ≠ f → frames f w (run_op xc o w).1.
Proof.
  intros Hne. destruct o as [g|src b g|g b]; simpl in *.
  - by apply download_file_frames.
  - destruct (xc !! src) as [p|]; [|done]. unfold mbind, dproc_bind, upload_to_gcs, frames.
    destruct (local w !! p); cbn; done.
  - unfold verify_gcs, frames, mbind, dproc_bind. case_bool_decide; cbn; done.
Qed.

Lemma dag_run_frames f ts w r :
  Forall (λ t, op_file (op t) ≠ f) ts → frames f w (dag_run ts w r).1.
Proof.
  revert w r. induction ts as [|t ts IH]; intros w r Hts; [done|].
  apply Forall_cons in Hts as [Ht Hts]. simpl. unfold run_task.
  destruct (forallb _ _); [|apply IH, Hts].
  pose proof (with_retries_frames f (task_retries t) _ (λ w, run_op_frames f (xcom r) (op t) w Ht) w)
    as Hw.
  destruct (with_retries _ _ w) as [w' [v|e]];
    (eapply frames_trans; [exact Hw | apply IH, Hts]).
Qed.

(** Tasks that do not carry the id [i] leave its state alone. *)
Lemma dag_run_states_other ts w r i :
  i ∉ map task_id ts → states (dag_run ts w r).2 !! i = states r !! i.
Proof.
  revert w r. induction ts as [|t ts IH]; intros w r Hi; [done|]. simpl in Hi.
  apply not_elem_of_cons in Hi as [Hne Hi]. simpl. unfold run_task.
  destruct (forallb _ _); [destruct (with_retries _ _ _) as [? [?|?]]|];
    rewrite IH by done; simpl; by rewrite lookup_insert_ne by done.
Qed.

Lemma group_task_id_inj m a b : group_task_id m a = group_task_id m b → a = b.
Proof. unfold group_task_id. intros H. by do 2 apply append_cancel_l in H. Qed.

Lemma groups_cons d mf ps : groups d (mf :: ps) = month_group d mf.1 mf.2 ++ groups d ps.
Proof. done. Qed.

Lemma groups_app d ps1 ps2 : groups d (ps1 ++ ps2) = groups d ps1 ++ groups d ps2.
Proof. unfold groups. by rewrite map_app, concat_app. Qed.

Lemma groups_op_file d ps f :
  f ∉ map snd ps → Forall (λ t, op_file (op t) ≠ f) (groups d ps).
Proof.
  induction ps as [|[m g] ps IH]; intros Hf; [constructor|]. simpl in Hf.
  apply not_elem_of_cons in Hf as [Hne Hf]. unfold groups. cbn [map concat fst snd].
  apply Forall_app. split; [repeat constructor; simpl; congruence | by apply IH].
Qed.

Lemma dag_task_ids_NoDup d : NoDup (map task_id (dag_tasks d)).
Proof. apply (bool_decide_unpack _). vm_compute. exact I. Qed.

Lemma download_file_unreachable f w rest :
  local w !! local_path_of f = None → web w !! url_of f = Some (Unreachable :: rest) →
  ∃ w1, download_file f w = (w1, Err (ConnectionError (url_of f))).
Proof.
  intros Hl Hw. unfold download_file. rewrite Hl, bool_decide_false by (intros [? ?]; discriminate).
  unfold mbind, dproc_bind, dprint, http_get. cbn [web local gcs log]. fold (url_of f). rewrite Hw.
  by eexists.
Qed.

(** A month whose download fails ends with its download task [Failed]. *)
Lemma group_run_download_fails d m f w r w1 e :
  with_retries (effective_retries d) (download_file f) w = (w1, Err e) →
  states (dag_run (month_group d m f) w r).2 !! group_task_id m ("download_" +:+ f) = Some Failed.
Proof.
  intros Hd. unfold month_group. cbv zeta. rewrite dag_run_cons. unfold run_task at 1.
  cbn [upstream forallb op task_id task_retries run_op states xcom]. rewrite Hd. cbn iota beta.
  rewrite dag_run_states_other; [apply lookup_insert_eq|].
  cbn [map task_id]. intros [Hi|Hi]%elem_of_cons; [|apply list_elem_of_singleton in Hi];
    apply group_task_id_inj in Hi; discriminate Hi.
Qed.

(** C16: without retries, one failed request fails the run: when a
    month's file is not on disk and the first GET for it gets no answer,
    the run of [dag] does not succeed, whatever a second GET would
    return. *)
Theorem dag_run_no_retry f w r rest :
  f ∈ FILES → local w !! local_path_of f = None → web w !! url_of f = Some (Unreachable :: rest) →
  run_succeeded (dag_tasks dag) (dag_run (dag_tasks dag) w r).2 = false.
Proof.
  intros Hf Hl Hw. assert (Hz : map snd (zip MONTHS FILES) = FILES) by reflexivity.
  rewrite <- Hz in Hf. apply list_elem_of_fmap in Hf as ([m f'] & Heq & Hmf). simpl in Heq. subst f'.
  apply list_elem_of_split in Hmf as (ps1 & ps2 & Hps).
  assert (Hnf : f ∉ map snd ps1).
  { assert (HnF : NoDup (map snd (zip MONTHS FILES)))
      by (rewrite Hz; apply (bool_decide_unpack _); vm_compute; exact I).
    rewrite Hps, map_app in HnF. apply NoDup_app in HnF as (_ & Hd & _). intros Hin.
    apply (Hd f Hin). simpl. left. }
  pose proof (dag_task_ids_NoDup dag) as Hnd.
  change (dag_tasks dag) with (groups dag (zip MONTHS FILES)) in *. rewrite Hps in *.
  rewrite groups_app, groups_cons in *. cbn [fst snd] in Hnd |- *.
  set (did := group_task_id m ("download_" +:+ f)).
  assert (Hst : states (dag_run (groups dag ps1 ++ month_group dag m f ++ groups dag ps2) w r).2 !! did
                = Some Failed).
  { rewrite dag_run_app. pose proof (dag_run_frames f (groups dag ps1) w r (groups_op_file _ _ _ Hnf)) as Hfr.
    destruct (dag_run (groups dag ps1) w r) as [w1 r1]. destruct Hfr as [Hl1 Hw1]. simpl in Hl1, Hw1.
    rewrite dag_run_app. destruct (download_file_unreachable f w1 rest) as [w2 Hd];
      [by rewrite Hl1 | by rewrite Hw1|].
    assert (Hd0 : with_retries (effective_retries dag) (download_file f) w1 =
                  (w2, Err (ConnectionError (url_of f))))
      by (change (effective_retries dag) with 0; cbn [with_retries]; by rewrite Hd).
    pose proof (group_run_download_fails dag m f w1 r1 w2 _ Hd0) as Hg.
    destruct (dag_run (month_group dag m f) w1 r1) as [w3 r3]. simpl in Hg.
    rewrite dag_run_states_other; [done|].
    rewrite !map_app in Hnd. apply NoDup_app in Hnd as (_ & _ & Hnd).
    apply NoDup_app in Hnd as (_ & Hd' & _). apply Hd'. cbn. left. }
  apply not_true_iff_false. unfold run_succeeded. rewrite forallb_forall. intros Hall.
  assert (Hin : In (mkTask did (Download f) [] (effective_retries dag))
                  (groups dag ps1 ++ month_group dag m f ++ groups dag ps2))
    by (apply in_or_app; right; apply in_or_app; left; left; reflexivity).
  specialize (Hall _ Hin). cbn [task_id] in Hall. rewrite Hst in Hall. by apply bool_decide_eq_true_1 in Hall.
Qed.

(** ** Witnesses *)

Module DagExamples.
Definition jan : string := "yellow_tripdata_2024-01.parquet".

(** Every month's file on disk, the web silent. *)
Definition all_local : DagWorld :=
  mkDagWorld (list_to_map (map (λ f, (local_path_of f, ["PAR1"])) FILES)) ∅ ∅ [].

Definition run0 : DagRun := mkRun ∅ ∅.

Lemma dag_tasks_topological_witness :
  ∃ j t', j < 1 ∧ dag_tasks dag !! j = Some t' ∧
          task_id t' = group_task_id "01" ("download_" +:+ jan).
Proof.
  destruct (dag_tasks dag !! 1) as [t|] eqn:Ht; [|vm_compute in Ht; discriminate].
  pose proof Ht as Ht'. vm_compute in Ht'. injection Ht' as Ht'.
  apply (dag_tasks_topological dag 1 t); [exact Ht|]. rewrite <- Ht'. vm_compute. left.
Defined.

Lemma dag_run_uploads_local_witness :
  ∃ w' r', dag_run (dag_tasks dag) all_local run0 = (w', r') ∧
           run_succeeded (dag_tasks dag) r' = true ∧
           gcs w' !! (GCP_GCS_BUCKET, jan) = Some ["PAR1"].
Proof.
  pose proof (dag_run_uploads_local dag all_local run0) as H.
  destruct (dag_run (dag_tasks dag) all_local run0) as [w' r']. exists w', r'.
  destruct H as [Hs Hg].
  - intros f Hf. unfold FILES, MONTHS in Hf. vm_compute in Hf.
    repeat (apply elem_of_cons in Hf as [->|Hf]; [vm_compute; by eexists|]). by apply elem_of_nil in Hf.
  - split_and!; [done | done |]. rewrite Hg; [vm_compute; reflexivity | vm_compute; left].
Defined.

Lemma download_retry_keeps_partial_witness :
  ∃ w', with_retries 2 (download_file jan)
          (mkDagWorld ∅ {[url_of jan := [Resp 200 ["c1"; "c2"; "c3"] (Some 1)]]} ∅ []) =
        (w', Ok (local_path_of jan)) ∧ local w' !! local_path_of jan = Some ["c1"].
Proof.
  apply (download_retry_keeps_partial 1 jan _ 200 ["c1"; "c2"; "c3"] 1 []);
    [reflexivity | vm_compute; reflexivity | lia].
Defined.

Lemma dag_run_no_retry_witness :
  run_succeeded (dag_tasks dag)
    (dag_run (dag_tasks dag)
       (mkDagWorld ∅ {[url_of jan := [Unreachable; Resp 200 ["PAR1"] None]]} ∅ []) run0).2 = false.
Proof.
  apply (dag_run_no_retry jan _ run0 [Resp 200 ["PAR1"] None]);
    [vm_compute; left | reflexivity | vm_compute; reflexivity].
Defined.
End DagExamples.
