(* ===== verification/Phases.v ===== *)
(** * Phases: a run of the loader as the state machine of its phases

    The run of [ingest] (src/M01_Homework/ingest_data.py, lines 36-63)
    goes through the phases the specification names: [Uninitialized]
    (nothing read, no table touched), [Opened] (the reader of line 40
    exists), [Appending i] (the table was re-created from the first
    chunk and holds it, lines 47-51; [i] is the index of the next chunk
    of the [for] loop, so [Appending 2] is the specification's
    Schema-Initialized phase), and the end phases [Complete] (the loop
    met [StopIteration] and line 63 printed the summary) and [Failed]
    (an exception left [ingest]).  [istep] is the transition relation;
    each rule runs the lines of the source between two phases.

    The theorems: the machine never gets stuck before an end phase and
    every run of it reaches one ([ingest_phases_live], by the measure of
    the reader); it is deterministic; and [ingest] computes exactly the
    end phase the machine reaches ([ingest_phases]), so the fuel of the
    function's loop is never what ends it.  The step out of [Opened] is
    the specification's schema initialisation: it re-creates the table
    from the normalised first chunk ([schema_initialised]), and when it
    fails nothing was touched ([first_chunk_failure_untouched]).  Every
    reader a run holds has the chunk size [ingest] was given, so every
    chunk it reads has at most that many rows ([loader_chunks_bounded]). *)

From S2P Require Import Prelude Frame Reader Sink Runtime EngineUrl Ingest.

(** The phases of a run of [ingest]. *)
Inductive Phase : Type :=
  | Uninitialized (csv_url : string)
  | Opened (stream : TextFileReader)
  | Appending (i : nat) (stream : TextFileReader) (rows : nat)
  | Complete (rows : nat)
  | Failed (e : Exc).

(** The end phases. *)
Definition final (p : Phase) : bool :=
  match p with Complete _ | Failed _ => true | _ => false end.

(** The phase a block of lines leads to: [k a] when it returns [a], and
    [Failed e] when it raises [e], which no handler of [ingest] catches. *)
Definition to_phase {A} (k : A → Phase) (p : World * res A) : World * Phase :=
  (p.1, match p.2 with Ok a => k a | Err e => Failed e end).

(** The reader a phase holds: the one the next [next] is called on. *)
Definition phase_reader (p : Phase) : option TextFileReader :=
  match p with Opened s | Appending _ s _ => Some s | _ => None end.

(** What [ingest] returns, and the world it leaves, in an end phase. *)
Definition outcome (c : World * Phase) : option (World * res unit) :=
  match c.2 with
  | Complete _ => Some (c.1, Ok tt)
  | Failed e => Some (c.1, Err e)
  | _ => None
  end.

Section Machine.
Context `{DatetimeParser} (table : string) (eng : Conn) (n : Z).

(** Lines 39-45: the opening message and [pd.read_csv]. *)
Definition open_step (csv_url : string) : Proc TextFileReader :=
  print (Say ("reading " +:+ csv_url +:+ " ..."));;
  open_csv csv_url n.

(** Lines 47-51: the first chunk, the table re-created from its columns,
    the chunk appended, [rows = len(first_chunk)]. *)
Definition first_chunk_step (stream : TextFileReader) : Proc (TextFileReader * nat) :=
  '(c0, stream') ← lift (next_chunk stream);
  first_chunk ← lift (to_datetime c0 DATETIME_COLS);
  exec eng (to_sql (head0 first_chunk) table IfReplace false);;
  exec eng (to_sql first_chunk table IfAppend false);;
  mret (stream', len first_chunk).

(** Lines 55-61: the body of the [for] loop on chunk [i]. *)
Definition chunk_step (i : nat) (chunk : DataFrame) (rows : nat) : Proc nat :=
  chunk' ← lift (to_datetime chunk DATETIME_COLS);
  exec eng (to_sql chunk' table IfAppend false);;
  let rows' := rows + len chunk' in
  print (ChunkLine i (len chunk') rows');;
  mret rows'.

(** The transitions.  In [Appending], the header of the [for] loop
    (line 54) calls [next]: a chunk runs the body, [StopIteration] ends
    the loop and line 63 prints the summary, any other exception fails
    the run. *)
Inductive istep : World * Phase → World * Phase → Prop :=
  | IOpen w csv_url :
      istep (w, Uninitialized csv_url) (to_phase Opened (open_step csv_url w))
  | IFirst w stream :
      istep (w, Opened stream)
            (to_phase (λ '(s, k), Appending 2 s k) (first_chunk_step stream w))
  | INext w i stream rows chunk stream' :
      next_chunk stream = Ok (chunk, stream') →
      istep (w, Appending i stream rows)
            (to_phase (Appending (S i) stream') (chunk_step i chunk rows w))
  | IStop w i stream rows :
      next_chunk stream = raise StopIteration →
      istep (w, Appending i stream rows) ((print (FinishedLine rows) w).1, Complete rows)
  | IRaise w i stream rows e :
      next_chunk stream = raise e → e ≠ StopIteration →
      istep (w, Appending i stream rows) (w, Failed e).
End Machine.

Arguments istep {_} _ _ _ _ _.

(** ** The machine never stops before an end phase *)

Section Steps.
Context `{DatetimeParser} (table : string) (eng : Conn) (n : Z).
Abbreviation step := (istep table eng n).

(** The end phases are exactly the phases without a transition. *)
Lemma final_no_step c c' : final c.2 = true → ¬ step c c'.
Proof. intros Hf Hs. inversion Hs; subst; discriminate. Qed.

Lemma progress c : final c.2 = false → ∃ c', step c c'.
Proof.
  destruct c as [w [csv|s|i s rows|rows|e]]; simpl; intros Hf; try discriminate.
  - eexists. apply IOpen.
  - eexists. apply IFirst.
  - destruct (next_chunk s) as [[chunk s']|e] eqn:Hn.
    + eexists. by eapply INext.
    + destruct (decide (e = StopIteration)) as [->|He].
      * eexists. by apply IStop.
      * eexists. by apply IRaise.
Qed.

Lemma step_deterministic c c1 c2 : step c c1 → step c c2 → c1 = c2.
Proof. intros H1 H2. inversion H1; subst; inversion H2; subst; congruence. Qed.

(** ** Every run reaches an end phase *)

Lemma final_sn c : final c.2 = true → sn step c.
Proof. intros Hf. constructor. intros c' Hs. by destruct (final_no_step c c' Hf Hs). Qed.

Lemma to_phase_sn {A} (k : A → Phase) (p : World * res A) :
  (∀ a, p.2 = Ok a → sn step (p.1, k a)) → sn step (to_phase k p).
Proof. destruct p as [w [a|e]]; intros Hk; [by apply Hk | by apply final_sn]. Qed.

Lemma first_chunk_step_next s w w' s' k :
  first_chunk_step table eng s w = (w', Ok (s', k)) → ∃ c0, next_chunk s = Ok (c0, s').
Proof.
  unfold first_chunk_step. proc_unfold. repeat case_match; intros; simplify_eq; eauto.
Qed.

Lemma open_step_chunksize csv w w' s :
  open_step n csv w = (w', Ok s) → 0 < chunksize s.
Proof.
  unfold open_step, open_csv, print. proc_unfold. simpl. case_match; [|discriminate].
  intros [= _ Hr]. apply read_csv_Ok in Hr as (_ & _ & _ & -> & ? & _). lia.
Qed.

Lemma next_chunk_chunksize s c s' : next_chunk s = Ok (c, s') → chunksize s' = chunksize s.
Proof. intros (_ & _ & ? & _)%next_chunk_Ok. done. Qed.

Lemma appending_sn m w i s rows :
  reader_measure s < m → 0 < chunksize s → sn step (w, Appending i s rows).
Proof.
  revert w i s rows. induction m as [|m IH]; intros w i s rows Hm Hs; [lia|].
  constructor. intros c' Hst. inversion Hst as [| |? ? ? ? ? ? Hn| |]; subst.
  - apply to_phase_sn. intros a _. apply IH.
    + pose proof (next_chunk_measure _ _ _ Hs Hn). lia.
    + by erewrite next_chunk_chunksize.
  - by apply final_sn.
  - by apply final_sn.
Qed.

Lemma opened_sn w s : 0 < chunksize s → sn step (w, Opened s).
Proof.
  intros Hs. constructor. intros c' Hst. inversion Hst; subst.
  apply to_phase_sn. intros [s' k] Hok.
  destruct (first_chunk_step table eng s w) as [w' o] eqn:Hf. simpl in Hok; subst o.
  destruct (first_chunk_step_next _ _ _ _ _ Hf) as [c0 Hn].
  apply (appending_sn (S (reader_measure s'))); [lia|]. by erewrite next_chunk_chunksize.
Qed.

(** A phase from which no run is infinite reaches an end phase. *)
Lemma sn_final c : sn step c → ∃ c', rtc step c c' ∧ final c'.2 = true.
Proof.
  induction 1 as [c _ IH]. destruct (final c.2) eqn:Hf; [by exists c|].
  destruct (progress c Hf) as [c1 Hs]. destruct (IH c1 Hs) as (c' & ? & ?).
  exists c'. split; [by eapply rtc_l|done].
Qed.

Lemma start_sn w csv_url : sn step (w, Uninitialized csv_url).
Proof.
  constructor. intros c' Hst. inversion Hst; subst. apply to_phase_sn. intros s Hok.
  apply opened_sn. destruct (open_step n csv_url w) as [w' o] eqn:Ho. simpl in Hok; subst o.
  by eapply open_step_chunksize.
Qed.

(** Liveness of the loader: no run of the machine from
    [Uninitialized] is infinite, and the run reaches an end phase,
    [Complete] or [Failed], whatever the file, the database and the chunk
    size. *)
Theorem ingest_phases_live w csv_url :
  sn step (w, Uninitialized csv_url) ∧
  ∃ c, rtc step (w, Uninitialized csv_url) c ∧ final c.2 = true.
Proof. split; [apply start_sn | apply sn_final, start_sn]. Qed.

(** ** The chunk size of every reader the run holds *)

Lemma open_step_size csv w w' s : open_step n csv w = (w', Ok s) → chunksize s = Z.to_nat n.
Proof.
  unfold open_step, open_csv, print. proc_unfold. simpl. case_match; [|discriminate].
  intros [= _ Hr]. by apply read_csv_Ok in Hr as (_ & _ & _ & -> & _).
Qed.

(** Every reader of a phase a run reaches has the chunk size [ingest]
    was called with (an invariant of the machine, by induction on the
    run). *)
Lemma reached_chunksize w csv_url c :
  rtc step (w, Uninitialized csv_url) c →
  ∀ s, phase_reader c.2 = Some s → chunksize s = Z.to_nat n.
Proof.
  intros Hrtc.
  apply (rtc_ind_r (R := step) (λ c, ∀ s, phase_reader c.2 = Some s → chunksize s = Z.to_nat n)
           (w, Uninitialized csv_url)); [by intros ? [=]| |exact Hrtc].
  intros c1 c2 _ Hst IH s Hs. inversion Hst as [w0 csv| w0 s0 |w0 i s0 rows chunk s0' Hn| |]; subst.
  - destruct (open_step n csv w0) as [w' [s'|e]] eqn:Ho; simpl in Hs; [|discriminate].
    injection Hs as <-. by eapply open_step_size.
  - destruct (first_chunk_step table eng s0 w0) as [w' [[s' k]|e]] eqn:Hf; simpl in Hs; [|discriminate].
    injection Hs as <-. destruct (first_chunk_step_next _ _ _ _ _ Hf) as [c0 Hn].
    rewrite (next_chunk_chunksize _ _ _ Hn). by apply IH.
  - destruct (chunk_step table eng i chunk rows w0) as [w' [r|e]]; simpl in Hs; [|discriminate].
    injection Hs as <-. rewrite (next_chunk_chunksize _ _ _ Hn). by apply IH.
  - discriminate.
  - discriminate.
Qed.

(** C21: the memory bound of the loader, the reason it reads in chunks:
    every chunk [next] returns during a run of
    [ingest(csv_url, table, eng, chunksize=n)], the first chunk of line
    47 as each chunk of the [for] loop of line 54, has at most [n] rows,
    because line 45 hands [chunksize] to the reader. *)
Theorem loader_chunks_bounded w csv_url w' p s c s' :
  rtc step (w, Uninitialized csv_url) (w', p) → phase_reader p = Some s →
  next_chunk s = Ok (c, s') → len c ≤ Z.to_nat n.
Proof.
  intros Hr Hp Hn. rewrite <- (reached_chunksize _ _ _ Hr s Hp). by eapply next_chunk_bounded.
Qed.

End Steps.

(** ** [ingest] computes the end phase of the machine *)

Section Refinement.
Context `{DatetimeParser} (table : string) (eng : Conn) (n : Z).
Abbreviation step := (istep table eng n).

(** Line 63 after the loop. *)
Definition finish (rows : nat) : Proc unit := print (FinishedLine rows).

Lemma measure_zero_stop s : reader_measure s = 0 → next_chunk s = raise StopIteration.
Proof.
  unfold reader_measure. intros Hm. apply next_chunk_stop.
  destruct (pending s), (first_chunk s); simpl in Hm; by try lia.
Qed.

(** One iteration of the function's loop is the body [chunk_step]
    followed by the rest of the loop. *)
Lemma ingest_loop_chunk fuel i s rows chunk s' w :
  next_chunk s = Ok (chunk, s') →
  ingest_loop (S fuel) table eng i s rows w
  = (chunk_step table eng i chunk rows ≫= λ rows', ingest_loop fuel table eng (S i) s' rows') w.
Proof.
  intros Hn. cbn [ingest_loop]. rewrite Hn. unfold chunk_step, print. proc_unfold.
  by repeat case_match.
Qed.

Lemma loop_phases fuel w i s rows :
  0 < chunksize s → reader_measure s ≤ fuel →
  ∃ c, rtc step (w, Appending i s rows) c ∧
       outcome c = Some ((ingest_loop fuel table eng i s rows ≫= finish) w).
Proof.
  revert w i s rows. induction fuel as [|fuel IH]; intros w i s rows Hs Hm.
  { exists ((finish rows w).1, Complete rows). split; [|done].
    apply rtc_once, IStop, measure_zero_stop. lia. }
  destruct (next_chunk s) as [[chunk s']|e] eqn:Hn.
  - rewrite (proc_bind_ext_l _ _ _ _ (ingest_loop_chunk _ _ _ _ _ _ _ Hn)), proc_bind_assoc.
    pose proof (INext table eng n w i s rows chunk s' Hn) as Hst.
    destruct (chunk_step table eng i chunk rows w) as [w1 [r1|e]] eqn:Hc.
    + rewrite (proc_bind_Ok _ _ _ _ _ Hc).
      destruct (IH w1 (S i) s' r1) as (c & Hrtc & Hout).
      * by erewrite next_chunk_chunksize.
      * pose proof (next_chunk_measure _ _ _ Hs Hn). lia.
      * exists c. split; [eapply rtc_l; [exact Hst|exact Hrtc]|exact Hout].
    + rewrite (proc_bind_Err _ _ _ _ _ Hc). by eexists; split; [apply rtc_once, Hst|].
  - destruct (decide (e = StopIteration)) as [->|He].
    + exists ((finish rows w).1, Complete rows). split; [by apply rtc_once, IStop|].
      cbn [ingest_loop]. rewrite Hn. done.
    + exists (w, Failed e). split; [by apply rtc_once, IRaise|].
      cbn [ingest_loop]. rewrite Hn. by destruct e.
Qed.

(** [ingest] is the opening, the first chunk, then the loop. *)
Lemma ingest_steps csv_url w :
  ingest csv_url table eng n w
  = (open_step n csv_url ≫= λ s, first_chunk_step table eng s ≫= λ '(s', k),
       ingest_loop (reader_measure s') table eng 2 s' k ≫= finish) w.
Proof.
  unfold ingest, open_step, first_chunk_step, finish. proc_unfold. by repeat case_match.
Qed.

(** The function [ingest] and the machine agree: from
    [Uninitialized] the machine reaches an end phase whose world and
    result are exactly those [ingest] returns, for every world. *)
Theorem ingest_phases csv_url w :
  ∃ c, rtc step (w, Uninitialized csv_url) c ∧ outcome c = Some (ingest csv_url table eng n w).
Proof.
  rewrite ingest_steps. pose proof (IOpen table eng n w csv_url) as H1.
  destruct (open_step n csv_url w) as [w1 [s|e]] eqn:Ho.
  - rewrite (proc_bind_Ok _ _ _ _ _ Ho). pose proof (IFirst table eng n w1 s) as H2.
    destruct (first_chunk_step table eng s w1) as [w2 [[s' k]|e]] eqn:Hf.
    + rewrite (proc_bind_Ok _ _ _ _ _ Hf).
      destruct (first_chunk_step_next _ _ _ _ _ _ _ Hf) as [c0 Hn].
      destruct (loop_phases (reader_measure s') w2 2 s' k) as (c & Hrtc & Hout); [|lia|].
      { erewrite next_chunk_chunksize by exact Hn. by eapply open_step_chunksize. }
      exists c. split; [|exact Hout].
      eapply rtc_l; [exact H1|]. eapply rtc_l; [exact H2|exact Hrtc].
    + rewrite (proc_bind_Err _ _ _ _ _ Hf). exists (w2, Failed e). split; [|done].
      eapply rtc_l; [exact H1|]. by apply rtc_once.
  - rewrite (proc_bind_Err _ _ _ _ _ Ho). exists (w1, Failed e). split; [|done]. by apply rtc_once.
Qed.

End Refinement.

(** ** The Schema-Initialized phase *)

Section Schema.
Context `{DatetimeParser} (table : string) (eng : Conn) (n : Z).

(** Lines 47-51 on a first chunk that normalises: the table is the first
    chunk's columns and rows. *)
Lemma first_chunk_step_Ok s w db c0 s' fc :
  NoDup (names s) → conn_db w eng = Some db →
  next_chunk s = Ok (c0, s') → to_datetime c0 DATETIME_COLS = Ok fc →
  first_chunk_step table eng s w
  = (set_conn_db w eng (<[table := mkTable (columns fc) (sql_rows false fc)]> db), Ok (s', len fc)).
Proof.
  intros Hnd Hdb Hn Htd.
  assert (Hcols : sql_columns false fc = names s).
  { unfold sql_columns. simpl. rewrite (proj2 (to_datetime_cols _ _ _ Htd)).
    destruct (next_chunk_Ok _ _ _ Hn) as (-> & _). apply frame_of_columns. }
  unfold first_chunk_step.
  rewrite (proc_bind_Ok _ _ w w (c0, s')) by (by rewrite lift_run, Hn). cbv beta iota.
  rewrite (proc_bind_Ok _ _ w w fc) by (by rewrite lift_run, Htd).
  erewrite (proc_bind_Ok _ _ w _ tt).
  2:{ eapply exec_Ok; [exact Hdb|]. apply to_sql_replace. by rewrite sql_columns_head0, Hcols. }
  erewrite (proc_bind_Ok _ _ _ _ tt).
  2:{ eapply exec_Ok; [apply conn_db_set|]. apply to_sql_append; [by rewrite Hcols| |].
      - apply lookup_insert_eq.
      - by rewrite sql_columns_head0. }
  rewrite set_conn_db_twice, insert_insert_eq, sql_columns_head0. reflexivity.
Qed.

(** C19: the machine enters [Appending] only through lines 47-51: the
    first chunk was read and normalised, the destination table was
    dropped and re-created from the first chunk's columns and holds
    exactly that chunk's rows, every other table is unchanged, and the
    row count is the chunk's length (the specification's invariant that
    the schema comes from the first chunk before any data is written). *)
Theorem schema_initialised w s w' s' k db :
  NoDup (names s) → conn_db w eng = Some db →
  istep table eng n (w, Opened s) (w', Appending 2 s' k) →
  ∃ c0 fc, next_chunk s = Ok (c0, s') ∧ to_datetime c0 DATETIME_COLS = Ok fc ∧ k = len fc ∧
           conn_db w' eng = Some (<[table := mkTable (columns fc) (sql_rows false fc)]> db).
Proof.
  intros Hnd Hdb Hst. inversion Hst as [|? ? Hp| | |]; subst.
  destruct (first_chunk_step table eng s w) as [w1 [[s1 k1]|e]] eqn:Hf; [|discriminate].
  destruct (first_chunk_step_next _ _ _ _ _ _ _ Hf) as [c0 Hn].
  destruct (to_datetime c0 DATETIME_COLS) as [fc|e] eqn:Htd.
  - rewrite (first_chunk_step_Ok _ _ _ _ _ _ Hnd Hdb Hn Htd) in Hf. simplify_eq. cbn [fst snd] in *. simplify_eq.
    exists c0, fc. split_and!; [done..|]. apply conn_db_set.
  - unfold first_chunk_step in Hf.
    rewrite (proc_bind_Ok _ _ w w (c0, s1)) in Hf by (by rewrite lift_run, Hn). cbv beta iota in Hf.
    by rewrite (proc_bind_Err _ _ w w e) in Hf by (by rewrite lift_run, Htd).
Qed.

(** Once the first chunk is normalised, lines 48-51 do not raise: the
    [replace] never does, and the [append] writes the columns the table
    was just given. *)
Lemma first_chunk_step_writes s w db c0 s' fc :
  conn_db w eng = Some db → next_chunk s = Ok (c0, s') → to_datetime c0 DATETIME_COLS = Ok fc →
  ∃ w', first_chunk_step table eng s w = (w', Ok (s', len fc)).
Proof.
  intros Hdb Hn Htd. unfold first_chunk_step.
  rewrite (proc_bind_Ok _ _ w w (c0, s')) by (by rewrite lift_run, Hn). cbv beta iota.
  rewrite (proc_bind_Ok _ _ w w fc) by (by rewrite lift_run, Htd).
  destruct (to_sql_replace_ok (head0 fc) table false db) as (t0 & Hr & Hc0).
  rewrite (proc_bind_Ok _ _ _ _ tt (exec_Ok _ _ _ _ _ Hdb Hr)).
  destruct (to_sql_append_ok fc table false (<[table := t0]> db) t0) as (t1 & Ha & _).
  - apply lookup_insert_eq.
  - by rewrite Hc0, sql_columns_head0.
  - rewrite (proc_bind_Ok _ _ _ _ tt (exec_Ok _ _ _ _ _ (conn_db_set _ _ _) Ha)). by eexists.
Qed.

(** C20: no table contact before the first chunk is normalised (the
    specification's Uninitialized phase): when the step out of [Opened]
    fails, it failed in [next] or in [to_datetime], and the world, the
    database behind the connection included, is exactly as before. *)
Theorem first_chunk_failure_untouched w s w' e db :
  conn_db w eng = Some db →
  istep table eng n (w, Opened s) (w', Failed e) →
  w' = w ∧ (next_chunk s = raise e ∨
            ∃ c0 s', next_chunk s = Ok (c0, s') ∧ to_datetime c0 DATETIME_COLS = raise e).
Proof.
  intros Hdb Hst. inversion Hst; subst.
  destruct (first_chunk_step table eng s w) as [w1 [[s1 k1]|e1]] eqn:Hf; simplify_eq/=.
  destruct (next_chunk s) as [[c0 s']|e'] eqn:Hn.
  - destruct (to_datetime c0 DATETIME_COLS) as [fc|e'] eqn:Htd.
    + destruct (first_chunk_step_writes s w db c0 s' fc Hdb Hn Htd) as [w2 Hw]. congruence.
    + unfold first_chunk_step in Hf.
      rewrite (proc_bind_Ok _ _ w w (c0, s')) in Hf by (by rewrite lift_run, Hn). cbv beta iota in Hf.
      rewrite (proc_bind_Err _ _ w w e') in Hf by (by rewrite lift_run, Htd). simplify_eq.
      split; [done|]. right. eauto.
  - unfold first_chunk_step in Hf.
    rewrite (proc_bind_Err _ _ w w e') in Hf by (by rewrite lift_run, Hn). simplify_eq. auto.
Qed.

End Schema.

(** ** Witnesses *)

Module PhaseExamples.
Import Examples.
#[local] Existing Instance IsoParser.iso_parser.

Definition eng0 : Conn := Connection url.

(** The reader [read_csv] returns on [taxi] with [chunksize=2], and the
    one [next] leaves. *)
Definition reader0 : TextFileReader := mkReader (header taxi) (records taxi) 0 true 2.
Definition reader1 : TextFileReader := mkReader (header taxi) (drop 2 (records taxi)) 2 false 2.

Definition w1 : World := (first_chunk_step "yellow_taxi_data" eng0 reader0 (world taxi)).1.

Lemma schema_initialised_witness :
  ∃ c0 fc, next_chunk reader0 = Ok (c0, reader1) ∧ to_datetime c0 DATETIME_COLS = Ok fc ∧ 2 = len fc ∧
           conn_db w1 eng0 = Some (<["yellow_taxi_data" := mkTable (columns fc) (sql_rows false fc)]> ∅).
Proof.
  apply (schema_initialised "yellow_taxi_data" eng0 2 (world taxi) reader0 w1 reader1 2 ∅).
  - apply (bool_decide_unpack _). vm_compute. exact I.
  - reflexivity.
  - exact (IFirst "yellow_taxi_data" eng0 2 (world taxi) reader0).
Defined.

(** A first chunk whose pickup time does not parse. *)
Definition bad_reader : TextFileReader := mkReader (header taxi_bad) (drop 3 (records taxi_bad)) 3 false 2.

Definition bad_error : Exc := ValueError "Unknown datetime string format: 01/01/2021 00:43".

Lemma first_chunk_failure_untouched_witness :
  world taxi = world taxi ∧
  (next_chunk bad_reader = raise bad_error ∨
   ∃ c0 s', next_chunk bad_reader = Ok (c0, s') ∧ to_datetime c0 DATETIME_COLS = raise bad_error).
Proof.
  apply (first_chunk_failure_untouched "yellow_taxi_data" eng0 2 (world taxi) bad_reader (world taxi)
           bad_error ∅); [reflexivity|].
  exact (IFirst "yellow_taxi_data" eng0 2 (world taxi) bad_reader).
Defined.

Definition csv0 : string := "yellow_tripdata_2021-01.csv".

Lemma loader_chunks_bounded_witness :
  ∃ c s', next_chunk reader0 = Ok (c, s') ∧ len c ≤ Z.to_nat 2.
Proof.
  destruct (next_chunk reader0) as [[c s']|e] eqn:Hn; [|vm_compute in Hn; discriminate].
  exists c, s'. split; [done|].
  apply (loader_chunks_bounded "yellow_taxi_data" eng0 2 (world taxi) csv0
           (open_step 2 csv0 (world taxi)).1 (Opened reader0) reader0 c s'); [|done|exact Hn].
  apply rtc_once.
  replace ((open_step 2 csv0 (world taxi)).1, Opened reader0)
    with (to_phase Opened (open_step 2 csv0 (world taxi))) by (vm_compute; reflexivity).
  apply IOpen.
Defined.

End PhaseExamples.
