(* ===== verification/Entry.v ===== *)
(** * Entry: the command lines and the scripts' entry points

    [ingest_data.py] builds its parser in [parse_args] (lines 67-77):
    seven required options and [--chunksize] (default 100000), [--port]
    and [--chunksize] of [type=int]; [main] (lines 80-86) parses
    [sys.argv] first and reads the namespace's attributes.
    [ingest_data_old.py] builds its parser under [if __name__ ==
    "__main__"] (lines 93-117) with seven options none of which is
    required, prints the namespace and calls [main(args)].

    The theorems: a command line written as [--flag=value] for every
    option runs [main] on exactly those values, whatever the strings hold
    except the value ['--'] ([main_argv_roundtrip]); every namespace
    [parse_args] returns has the attributes [main] reads, with their
    types, unless some option was given ['--'], which CPython 3.11's
    argparse stores as [[]] ([parse_args_typed]); a value that starts
    with a dash cannot follow its flag as a separate argument
    ([password_dash_rejected]); the old script, run without
    [--csv_url], parses, prints its banner and dies on [None.startswith]
    ([old_script_no_url]), and with all its options it runs [main] on
    them ([old_script_roundtrip]). *)

From S2P Require Import Prelude Frame Reader Sink Runtime EngineUrl ArgParse Ingest IngestOld.

(** ** The current loader *)

(** [parse_args()]'s parser (lines 68-76). *)
Definition parser : list Action :=
  [add_argument "--user" TStr true PyNone; add_argument "--password" TStr true PyNone;
   add_argument "--host" TStr true PyNone; add_argument "--port" TInt true PyNone;
   add_argument "--database" TStr true PyNone; add_argument "--table" TStr true PyNone;
   add_argument "--csv-url" TStr true PyNone; add_argument "--chunksize" TInt false (PyInt 100000)].

(** [args.k]: [AttributeError] when the namespace has no [k]. *)
Definition getattr (n : Namespace) (k : string) : res PyVal :=
  of_option (AttributeError k) (assoc_str k n).

(** An attribute [main] uses as a [str] or an [int].  Python itself
    does not check.  [parse_args_typed] shows that the values have these
    types except the [[]] argparse stores for a ['--'] value; what [main]
    would do with a list (format it into the URL, pass it to [read_csv])
    is outside the typed arguments of [Ingest.main], and the model stops
    there with this error. *)
Definition get_str (n : Namespace) (k : string) : res string :=
  v ← getattr n k; match v with PyStr s => Ok s | _ => Err (ValueError k) end.

Definition get_int (n : Namespace) (k : string) : res Z :=
  v ← getattr n k; match v with PyInt z => Ok z | _ => Err (ValueError k) end.

(** The attributes [main] reads (lines 84, 86). *)
Definition cli_args_of (n : Namespace) : res Cli.Args :=
  user ← get_str n "user"; password ← get_str n "password"; host ← get_str n "host";
  port ← get_int n "port"; database ← get_str n "database"; table ← get_str n "table";
  csv_url ← get_str n "csv_url"; chunksize ← get_int n "chunksize";
  Ok (Cli.mkArgs user password host port database table csv_url chunksize).

Section Script.
Context `{DatetimeParser}.

(** [main()] (lines 80-86) on the command line [argv]: line 81 parses
    it, then the body of [Ingest.main] runs on the attributes; the
    module's [if __name__ == "__main__": main()] (lines 89-90). *)
Definition main_argv (argv : list string) : Proc unit :=
  n ← lift (parse_args parser argv);
  args ← lift (cli_args_of n);
  main args.
End Script.

(** ** The old loader *)

(** [f"{v}"]: [None] formats as ["None"]. *)
Definition py_format (v : PyVal) : string :=
  match v with PyNone => "None" | PyStr s => s | PyInt z => py_str_int z | PyNil => "[]" end.

Section OldScript.
Context `{DatetimeParser}.

(** What [main(args)] does past line 50 when [args.table_name] is
    [None]: [to_sql(name=None, ...)], pandas' behaviour there is not
    modelled, and the theorems hold for every such behaviour. *)
Variable unnamed_table : OldCli.Args → Proc unit.

(** [main(args)] (lines 26-92) on the namespace: the prints of lines
    28-29, then [csv_url.startswith] (line 39) raises on [None]; the
    connection fields are only formatted into the URL (line 50), where
    [None] reads ["None"]. *)
Definition old_main_ns (n : Namespace) : Proc unit :=
  print (Say "Starting the ingestion process...");;
  print (Say ("Arguments received: " +:+ ns_repr n));;
  user ← lift (getattr n "user"); password ← lift (getattr n "password");
  host ← lift (getattr n "host"); port ← lift (getattr n "port");
  database_name ← lift (getattr n "database_name"); table_name ← lift (getattr n "table_name");
  csv_url ← lift (getattr n "csv_url");
  match csv_url with
  | PyStr csv =>
      let args := OldCli.mkArgs (py_format user) (py_format password) (py_format host)
                    (py_format port) (py_format database_name) (py_format table_name) csv in
      match table_name with
      | PyStr _ => old_main_body args
      | _ => unnamed_table args
      end
  | _ => lift (raise (AttributeError "'NoneType' object has no attribute 'startswith'"))
  end.

(** Lines 93-117: parse, print the namespace, [main(args)], print. *)
Definition old_script (argv : list string) : Proc unit :=
  n ← lift (parse_args old_parser argv);
  print (Say ("Parsed arguments: " +:+ ns_repr n));;
  old_main_ns n;;
  print (Say "Ingestion process completed.").
End OldScript.

(** ** A command line of [--flag=value] arguments *)

(** The values of [args] as [main] would receive them back. *)
Definition cli_values (a : Cli.Args) : list string :=
  [Cli.user a; Cli.password a; Cli.host a; py_str_int (Cli.port a); Cli.database a;
   Cli.table a; Cli.csv_url a; py_str_int (Cli.chunksize a)].

(** The [str] arguments, which the command line carries verbatim. *)
Definition cli_strs (a : Cli.Args) : list string :=
  [Cli.user a; Cli.password a; Cli.host a; Cli.database a; Cli.table a; Cli.csv_url a].

Definition cli_items (a : Cli.Args) : list (Action * string * string) :=
  zip_with (λ act v, (act, hd "" (option_strings act), v)) parser (cli_values a).

(** [--user=... --password=... ... --chunksize=...]. *)
Definition argv_of (a : Cli.Args) : list string := map (λ '(_, f, v), eq_arg f v) (cli_items a).

Lemma parser_table_ok : Forall (λ '(o, _), is_in "=" o = false) (option_table parser).
Proof. repeat constructor. Qed.

Lemma cli_items_ok a :
  Forall (λ '(act, f, _), flag_ok f = true ∧ assoc_str f (option_table parser) = Some (TAct act))
         (cli_items a).
Proof. repeat constructor. Qed.

(** A value of a list that holds no ['--'] is not ['--']. *)
Lemma not_dd_of {v} {l : list string} : "--" ∉ l → v ∈ l → v ≠ "--".
Proof. intros Hl Hv ->. exact (Hl Hv). Qed.

(** Every value of [argv_of a] goes through the type conversion. *)
Ltac convert_values Hdd :=
  rewrite ?get_values_convert
    by first [ apply py_str_int_not_dd | apply (not_dd_of Hdd); set_solver ].

(** The namespace of [argv_of a]. *)
Lemma parse_argv_of a :
  "--" ∉ cli_strs a →
  py_digits (Cli.port a) ≤ max_str_digits → py_digits (Cli.chunksize a) ≤ max_str_digits →
  parse_args parser (argv_of a) =
    Ok [("user", PyStr (Cli.user a)); ("password", PyStr (Cli.password a));
        ("host", PyStr (Cli.host a)); ("port", PyInt (Cli.port a));
        ("database", PyStr (Cli.database a)); ("table", PyStr (Cli.table a));
        ("csv_url", PyStr (Cli.csv_url a)); ("chunksize", PyInt (Cli.chunksize a))].
Proof.
  intros Hdd Hp Hc. unfold argv_of. rewrite (parse_args_eq _ _ parser_table_ok (cli_items_ok a)).
  unfold cli_strs in Hdd. cbn -[py_int py_str_int get_values]. convert_values Hdd.
  cbn -[py_int py_str_int]. rewrite !py_int_py_str_int.
  rewrite (proj2 (Nat.leb_le _ _) Hp), (proj2 (Nat.leb_le _ _) Hc). reflexivity.
Qed.

Section Roundtrip.
Context `{DatetimeParser}.

(** C23: the command line [--flag=value ...] of a set of arguments
    runs [main] on exactly those arguments: [argparse] reads every [str]
    value back whatever characters it holds (a leading dash, an ['='],
    spaces) except the value ['--'] itself, which CPython 3.11 turns into
    [[]]; [int()] reads back the port and chunk size [str()] printed, up
    to CPython's 4300-digit limit. *)
Theorem main_argv_roundtrip a w :
  "--" ∉ cli_strs a →
  py_digits (Cli.port a) ≤ max_str_digits → py_digits (Cli.chunksize a) ≤ max_str_digits →
  main_argv (argv_of a) w = main a w.
Proof.
  intros Hdd Hp Hc. unfold main_argv.
  rewrite (proc_bind_Ok _ _ w w _) by (by rewrite lift_run, parse_argv_of).
  rewrite (proc_bind_Ok _ _ w w a); [done|]. rewrite lift_run. by destruct a.
Qed.
End Roundtrip.

(** ** The namespaces [parse_args] returns *)

Lemma parser_nodup : NoDup (map dest parser).
Proof. apply (bool_decide_unpack _). vm_compute. reflexivity. Qed.

(** Every option of [parser] ends with a value of its type or the [[]]
    of a ['--'] value: the optional [--chunksize] defaults to an [int]. *)
Lemma parser_typed argv n a :
  parse_args parser argv = Ok n → a ∈ parser →
  ∃ v, assoc_str (dest a) n = Some v ∧ (typed a v = true ∨ v = PyNil).
Proof.
  intros H Ha. destruct (parse_args_typed_ns parser parser_nodup argv n H a Ha)
    as (v & Hv & Hty). exists v. split; [done|]. destruct Hty as [Hs|[Hr ->]].
  - unfold stored in Hs. apply orb_true_iff in Hs as [?|Hn]; [by left|right].
    by apply bool_decide_eq_true in Hn.
  - left. repeat (apply elem_of_cons in Ha as [->|Ha]; [done|]). by apply elem_of_nil in Ha.
Qed.

Lemma get_str_typed n a v :
  assoc_str (dest a) n = Some v → typed a v = true → atype a = TStr →
  ∃ s, get_str n (dest a) = Ok s.
Proof.
  intros Hv Ht Hty. unfold typed in Ht. rewrite Hty in Ht. destruct v as [|s| |]; try done.
  exists s. unfold get_str, getattr. by rewrite Hv.
Qed.

Lemma get_int_typed n a v :
  assoc_str (dest a) n = Some v → typed a v = true → atype a = TInt →
  ∃ z, get_int n (dest a) = Ok z.
Proof.
  intros Hv Ht Hty. unfold typed in Ht. rewrite Hty in Ht. destruct v as [| |z|]; try done.
  exists z. unfold get_int, getattr. by rewrite Hv.
Qed.

(** One attribute of [main]: the value of the [i]-th option, of its
    type since no option holds [[]] ([Hno]). *)
Ltac get_field H Hno i :=
  let a := eval vm_compute in (List.nth i parser (mkAction [] "" TStr false PyNone)) in
  let Ha := fresh in let v := fresh "v" in let Hv := fresh "Hv" in let Ht := fresh "Ht" in
  assert (Ha : a ∈ parser) by (apply (bool_decide_unpack _); vm_compute; reflexivity);
  destruct (parser_typed _ _ a H Ha) as (v & Hv & [Ht|Ht]);
  [| exfalso; apply Hno, Exists_exists; exists a; split; [exact Ha|by rewrite <- Ht]];
  let Hg := fresh in
  first [ edestruct get_str_typed as [? Hg]; [exact Hv|exact Ht|reflexivity|]
        | edestruct get_int_typed as [? Hg]; [exact Hv|exact Ht|reflexivity|] ];
  cbn [dest] in Hg; rewrite Hg, bind_Ok.

(** C24: [main] gets every attribute it reads (lines 84, 86) with the
    type it uses, whatever the command line, except exactly when an
    option was given the value ['--']: CPython 3.11's argparse then
    stores [[]] for it. *)
Theorem parse_args_typed argv n :
  parse_args parser argv = Ok n →
  (∃ a, cli_args_of n = Ok a) ∨ ∃ act, act ∈ parser ∧ assoc_str (dest act) n = Some PyNil.
Proof.
  intros H. destruct (decide (Exists (λ act, assoc_str (dest act) n = Some PyNil) parser))
    as [Hnil|Hno]; [right; by apply Exists_exists|left].
  unfold cli_args_of.
  get_field H Hno 0. get_field H Hno 1. get_field H Hno 2. get_field H Hno 3.
  get_field H Hno 4. get_field H Hno 5. get_field H Hno 6. get_field H Hno 7. by eexists.
Qed.

(** ** A value that starts with a dash *)

Section DashValue.
Context (u r : string) (rest : list string).
Hypothesis Hu : ∀ r', u ≠ String "-" r'.
Hypothesis Hr : r ≠ "".
Hypothesis Hn : is_negnum (String "-" r) = false.
Hypothesis Hsp : is_in " " (String "-" r) = false.

(** The classification of [--user u --password -r ...]: the value after
    [--password] is an option, or [--], or an error. *)
Lemma classify_dash :
  (∃ m, classify parser ("--user" :: u :: "--password" :: String "-" r :: rest) = Err (SystemExit 2 m)) ∨
  ∃ pt ps, pt ≠ PA ∧
    classify parser ("--user" :: u :: "--password" :: String "-" r :: rest)
    = Ok (PO (Some (TAct (add_argument "--user" TStr true PyNone))) "--user" None :: PA ::
          PO (Some (TAct (add_argument "--password" TStr true PyNone))) "--password" None :: pt :: ps).
Proof.
  assert (Hu' : String.eqb u "--" = false) by (apply String.eqb_neq; intros ->; by apply (Hu "-")).
  rewrite (classify_cons _ "--user"), (classify_cons _ u), (classify_cons _ "--password") by done.
  rewrite (parse_optional_pos _ u Hu), bind_Ok.
  change (parse_optional parser "--user") with
    (Ok (COpt (Some (TAct (add_argument "--user" TStr true PyNone))) "--user" None) : res Cls).
  change (parse_optional parser "--password") with
    (Ok (COpt (Some (TAct (add_argument "--password" TStr true PyNone))) "--password" None) : res Cls).
  rewrite !bind_Ok. destruct (String.eqb (String "-" r) "--") eqn:Hdd.
  { right. eexists PDash, _. split; [done|]. cbn [classify]. rewrite Hdd. reflexivity. }
  rewrite classify_cons by done.
  destruct (parse_optional parser (String "-" r)) as [[|t os e]|err] eqn:Hp.
  - by apply parse_optional_dash in Hp.
  - destruct (classify parser rest) as [ps|err] eqn:Hc; simpl.
    + right. eexists (PO t os e), ps. by split.
    + left. destruct (classify_err _ _ _ Hc) as [m ->]. by exists m.
  - left. destruct (parse_optional_err _ _ _ Hp) as [m ->]. by exists m.
Qed.

(** A value that starts with a dash (and is no negative number and holds
    no space) cannot follow its flag as a separate argument:
    [--password -secret] ends the script with argparse's exit 2, so such
    a password has to be written [--password=-secret]. *)
Lemma password_dash_rejected :
  ∃ msg, parse_args parser ("--user" :: u :: "--password" :: String "-" r :: rest)
         = Err (SystemExit 2 msg).
Proof.
  unfold parse_args. destruct classify_dash as [[m ->]|(pt & ps & Hpt & ->)]; [by exists m|].
  rewrite bind_Ok. simpl. rewrite (get_values_convert _ u (Hu "-")). simpl.
  destruct pt; [done| |]; eexists; reflexivity.
Qed.
End DashValue.

(** ** The old script *)

Lemma old_parser_nodup : NoDup (map dest old_parser).
Proof. apply (bool_decide_unpack _). vm_compute. reflexivity. Qed.

(** Every option of [old_parser] is an attribute of the namespace. *)
Lemma old_parser_attr argv n a :
  parse_args old_parser argv = Ok n → a ∈ old_parser → ∃ v, getattr n (dest a) = Ok v.
Proof.
  intros H Ha. destruct (parse_args_typed_ns old_parser old_parser_nodup argv n H a Ha)
    as (v & Hv & _). exists v. unfold getattr. by rewrite Hv.
Qed.

(** The [i]-th attribute the old [main] reads. *)
Ltac old_attr H i :=
  let a := eval vm_compute in (List.nth i old_parser (mkAction [] "" TStr false PyNone)) in
  let Ha := fresh in let Hg := fresh in
  assert (Ha : a ∈ old_parser) by (apply (bool_decide_unpack _); vm_compute; reflexivity);
  destruct (old_parser_attr _ _ a H Ha) as [? Hg]; cbn [dest] in Hg; rewrite ?Hg.

Definition old_values (a : OldCli.Args) : list string :=
  [OldCli.user a; OldCli.password a; OldCli.host a; OldCli.port a; OldCli.database_name a;
   OldCli.table_name a; OldCli.csv_url a].

Definition old_items (a : OldCli.Args) : list (Action * string * string) :=
  zip_with (λ act v, (act, hd "" (option_strings act), v)) old_parser (old_values a).

(** [--user=... --password=... ... --csv_url=...]. *)
Definition old_argv_of (a : OldCli.Args) : list string :=
  map (λ '(_, f, v), eq_arg f v) (old_items a).

(** The same without [--csv_url]: the six other options. *)
Definition old_argv_no_url (a : OldCli.Args) : list string :=
  map (λ '(_, f, v), eq_arg f v) (take 6 (old_items a)).

Lemma old_table_ok : Forall (λ '(o, _), is_in "=" o = false) (option_table old_parser).
Proof. repeat constructor. Qed.

Lemma old_items_ok a :
  Forall (λ '(act, f, _), flag_ok f = true ∧ assoc_str f (option_table old_parser) = Some (TAct act))
         (old_items a).
Proof. repeat constructor. Qed.

Lemma parse_old_argv_of a : "--" ∉ old_values a → parse_args old_parser (old_argv_of a) = Ok (old_ns a).
Proof.
  intros Hdd. unfold old_argv_of. rewrite (parse_args_eq _ _ old_table_ok (old_items_ok a)).
  unfold old_values in Hdd. cbn -[get_values]. convert_values Hdd. reflexivity.
Qed.

(** Without [--csv_url] the parse succeeds, whatever the six values,
    and leaves [csv_url] at its default [None]. *)
Lemma parse_old_no_url a :
  ∃ n, parse_args old_parser (old_argv_no_url a) = Ok n ∧ assoc_str "csv_url" n = Some PyNone.
Proof.
  unfold old_argv_no_url.
  rewrite (parse_args_eq _ _ old_table_ok ltac:(apply Forall_take, old_items_ok)).
  cbn -[get_values]. rewrite !get_values_str by reflexivity. cbn. eexists; split; reflexivity.
Qed.

Section OldNoUrl.
Context `{DatetimeParser} (unnamed_table : OldCli.Args → Proc unit).

(** On a namespace whose [csv_url] is [None], the old script prints the
    namespace and [main]'s banner, then dies on [None.startswith]. *)
Lemma old_script_none_url argv n w :
  parse_args old_parser argv = Ok n → assoc_str "csv_url" n = Some PyNone →
  old_script unnamed_table argv w =
    (set_stdout w (stdout w ++ [Say ("Parsed arguments: " +:+ ns_repr n);
                                Say "Starting the ingestion process...";
                                Say ("Arguments received: " +:+ ns_repr n)]),
     Err (AttributeError "'NoneType' object has no attribute 'startswith'")).
Proof.
  intros Hp Hcsv. unfold old_script, old_main_ns.
  rewrite (proc_bind_Ok _ _ w w n) by (by rewrite lift_run, Hp).
  proc_unfold. old_attr Hp 0. old_attr Hp 1. old_attr Hp 2. old_attr Hp 3.
  old_attr Hp 4. old_attr Hp 5. unfold getattr at 1. rewrite Hcsv. simpl.
  by rewrite <- !app_assoc.
Qed.

(** C25: the old script's options are not required: run with its six
    other options and without [--csv_url], whatever their values, the
    parse succeeds, and the script prints the namespace and [main]'s
    banner, then dies with [AttributeError] on [None.startswith] (line
    39), before any download or connection: the world changes only by
    the three lines printed. *)
Theorem old_script_no_url a w :
  ∃ n, parse_args old_parser (old_argv_no_url a) = Ok n ∧
       old_script unnamed_table (old_argv_no_url a) w =
         (set_stdout w (stdout w ++ [Say ("Parsed arguments: " +:+ ns_repr n);
                                     Say "Starting the ingestion process...";
                                     Say ("Arguments received: " +:+ ns_repr n)]),
          Err (AttributeError "'NoneType' object has no attribute 'startswith'")).
Proof.
  destruct (parse_old_no_url a) as (n & Hp & Hc). exists n. split; [done|].
  by apply old_script_none_url.
Qed.
End OldNoUrl.

Section OldRoundtrip.
Context `{DatetimeParser} (unnamed_table : OldCli.Args → Proc unit).

(** On the namespace of its own arguments, the namespace reader of the
    old [main] is [old_main]. *)
Lemma old_main_ns_old_ns a w : old_main_ns unnamed_table (old_ns a) w = old_main a w.
Proof. destruct a. reflexivity. Qed.

(** C26: the old script on [--flag=value] for its seven options prints
    the namespace and runs [main] on exactly those strings, whatever
    characters they hold except the value ['--'] (which argparse turns
    into [[]]), then prints its closing line. *)
Theorem old_script_roundtrip a w :
  "--" ∉ old_values a →
  old_script unnamed_table (old_argv_of a) w =
    (print (Say ("Parsed arguments: " +:+ ns_repr (old_ns a)));;
     old_main a;;
     print (Say "Ingestion process completed.")) w.
Proof.
  intros Hdd. unfold old_script.
  rewrite (proc_bind_Ok _ _ w w (old_ns a)) by (by rewrite lift_run, parse_old_argv_of).
  unfold mbind at 1 3, proc_bind at 1 3. rewrite print_run.
  unfold mbind at 1 2, proc_bind at 1 2. by rewrite old_main_ns_old_ns.
Qed.
End OldRoundtrip.

(** ** Witnesses on concrete command lines *)

Module EntryExamples.
#[local] Existing Instance IsoParser.iso_parser.

(** A password that starts with a dash and holds an ['='] and a space. *)
Definition dash_args : Cli.Args :=
  Cli.mkArgs "root" "-s3cret=a b" "localhost" 5432 "ny_taxi" "yellow_taxi_data"
             "yellow_tripdata_2021-01.csv" 100000.

Lemma main_argv_roundtrip_witness :
  main_argv (argv_of dash_args) (Examples.world Examples.taxi) = main dash_args (Examples.world Examples.taxi).
Proof.
  apply main_argv_roundtrip; [apply (bool_decide_unpack _); vm_compute; reflexivity|..];
    apply Nat.leb_le; vm_compute; reflexivity.
Defined.

(** [--csv] abbreviates [--csv-url]; [--chunksize] is left out. *)
Definition sample_argv : list string :=
  ["--user"; "root"; "--password"; "root"; "--host"; "localhost"; "--port"; "5432";
   "--database"; "ny_taxi"; "--table"; "yellow_taxi_data"; "--csv"; "yellow_tripdata_2021-01.csv"].

Lemma parse_args_typed_witness :
  ∃ n, parse_args parser sample_argv = Ok n ∧
       ((∃ a, cli_args_of n = Ok a) ∨ ∃ act, act ∈ parser ∧ assoc_str (dest act) n = Some PyNil).
Proof.
  destruct (parse_args parser sample_argv) as [n|e] eqn:Hp; [|vm_compute in Hp; discriminate].
  exists n. split; [done|]. exact (parse_args_typed _ _ Hp).
Defined.

(** [--port=--] is accepted: the port is [[]]. *)
Example port_dashdash :
  parse_args parser ["--user=root"; "--password=root"; "--host=localhost"; "--port=--";
                     "--database=ny_taxi"; "--table=t"; "--csv-url=x.csv"] =
    Ok [("user", PyStr "root"); ("password", PyStr "root"); ("host", PyStr "localhost");
        ("port", PyNil); ("database", PyStr "ny_taxi"); ("table", PyStr "t");
        ("csv_url", PyStr "x.csv"); ("chunksize", PyInt 100000)].
Proof. vm_compute. reflexivity. Qed.

Definition old_args : OldCli.Args :=
  OldCli.mkArgs "root" "root" "localhost" "5432" "ny_taxi" "yellow_taxi_data" "data.csv".

Lemma old_script_roundtrip_witness :
  old_script (λ _, mret tt) (old_argv_of old_args) (Examples.world Examples.taxi) =
    (print (Say ("Parsed arguments: " +:+ ns_repr (old_ns old_args)));;
     old_main old_args;;
     print (Say "Ingestion process completed.")) (Examples.world Examples.taxi).
Proof. apply old_script_roundtrip. apply (bool_decide_unpack _). vm_compute. reflexivity. Defined.

End EntryExamples.
